(** * The EB CLI's model-driven client and its consumers

    A shallow embedding of

    - [ebcli/bundled/botocore/client.py]  (ClientCreator, BaseClient,
      ClientMeta, Config),
    - [ebcli/operations/commonops.py]     (wait_for_success_events,
      _is_success_string, get_event_string),
    - [ebcli/lib/elb.py]                  (get_health_of_instances),

    together with the facts about them that the specification states.

    Python code is embedded as programs of a small monad: a program may return,
    raise, read and write the state it owns, and call a collaborator.  What a
    collaborator answers is chosen by an environment; the interpreter records
    every call with its answer, so that statements on the order of calls and on
    what was answered are statements on that record. *)

From Stdlib Require Import ZArith List String Ascii Lia Bool.
From stdpp Require Import base tactics option list strings gmap.

Local Open Scope Z_scope.
Local Open Scope string_scope.

(** ** Python values and exceptions *)

(** The identity of a Python object that lives outside the model (a serializer,
    an endpoint, a request dict, a handler function, ...).  The code hands such
    objects around by reference and never looks inside. *)
Definition obj := positive.

(** Data as the loader and the configuration files give it. *)
#[local] Set Warnings "-register-all".
Inductive pyval : Type :=
| VNone
| VBool (b : bool)
| VInt (n : Z)
| VStr (s : string)
| VList (l : list pyval)
| VDict (d : gmap string pyval).

(** The exceptions the embedded code raises or handles.  [Foreign] is any
    other exception a collaborator raises. *)
Inductive exn : Type :=
| ClientError (error_response : obj) (operation_name : string)
| OperationNotPageableError (operation_name : string)
| DataNotFoundError (data_path : string)
| ValueError (msg : string)
| KeyError (key : string)
| TypeError (msg : string)
| AttributeError (msg : string)
| UnboundLocalError (name : string)
| ServiceError (message : string)
| NotFoundError (cause : exn)
| NotSupportedError (message : string)
| TimeoutError (message : string)
| Foreign (id : obj).

(** ** Programs *)

Module Py.

Section Prog.
Context {S : Type} {E : Type} {R : E -> Type}.

(** [S] is the state the program owns, [E] the calls to collaborators and
    [R c] what call [c] answers.  A call's continuation receives the answer
    or the exception the collaborator raised; [Spin] is a loop that has used
    up its fuel. *)
Inductive prog (A : Type) : Type :=
| Ret (a : A)
| Raise (x : exn)
| Spin
| Get (k : S -> prog A)
| Put (s : S) (k : prog A)
| Call (c : E) (k : exn + R c -> prog A).

Global Arguments Ret {A} a.
Global Arguments Raise {A} x.
Global Arguments Spin {A}.
Global Arguments Get {A} k.
Global Arguments Put {A} s k.
Global Arguments Call {A} c k.

Fixpoint bind {A B : Type} (p : prog A) (f : A -> prog B) : prog B :=
  match p with
  | Ret a => f a
  | Raise x => Raise x
  | Spin => Spin
  | Get k => Get (fun s => bind (k s) f)
  | Put s k => Put s (bind k f)
  | Call c k => Call c (fun r => bind (k r) f)
  end.

(** [try: p  except: h] *)
Fixpoint try_except {A : Type} (p : prog A) (h : exn -> prog A) : prog A :=
  match p with
  | Ret a => Ret a
  | Raise x => h x
  | Spin => Spin
  | Get k => Get (fun s => try_except (k s) h)
  | Put s k => Put s (try_except k h)
  | Call c k => Call c (fun r => try_except (k r) h)
  end.

(** [try: p  finally: f]: [f] runs when [p] returns and when it raises, and
    an exception of [f] replaces the outcome of [p]. *)
Fixpoint try_finally {A : Type} (p : prog A) (f : prog unit) : prog A :=
  match p with
  | Ret a => bind f (fun _ => Ret a)
  | Raise x => bind f (fun _ => Raise x)
  | Spin => Spin
  | Get k => Get (fun s => try_finally (k s) f)
  | Put s k => Put s (try_finally k f)
  | Call c k => Call c (fun r => try_finally (k r) f)
  end.

(** A call whose exception propagates. *)
Definition call (c : E) : prog (R c) :=
  Call c (fun r => match r with inl x => Raise x | inr a => Ret a end).

Definition get : prog S := Get (fun s => Ret s).
Definition put (s : S) : prog unit := Put s (Ret tt).

(** *** Running a program *)

Inductive outcome (A : Type) : Type :=
| Returned (a : A)
| Raised (x : exn)
| OutOfFuel.

Global Arguments Returned {A} a.
Global Arguments Raised {A} x.
Global Arguments OutOfFuel {A}.

(** One recorded call: what was called and what came back. *)
Definition entry : Type := { c : E & (exn + R c)%type }.

Definition env (W : Type) : Type := forall c : E, W -> (exn + R c) * W.

Fixpoint run {A W : Type} (h : env W) (p : prog A) (s : S) (w : W)
  : outcome A * S * W * list entry :=
  match p with
  | Ret a => (Returned a, s, w, [])
  | Raise x => (Raised x, s, w, [])
  | Spin => (OutOfFuel, s, w, [])
  | Get k => run h (k s) s w
  | Put s' k => run h k s' w
  | Call c k =>
      let '(r, w') := h c w in
      let '(o, s', w'', t) := run h (k r) s w' in
      (o, s', w'', existT c r :: t)
  end.

(** The calls of a record, and the exceptions collaborators answered with. *)
Definition calls (t : list entry) : list E := map (@projT1 _ _) t.

Definition raised (t : list entry) : list exn :=
  omap (fun e : entry => match projT2 e with inl x => Some x | inr _ => None end) t.

End Prog.

Global Arguments prog : clear implicits.
Global Arguments entry : clear implicits.
Global Arguments env : clear implicits.

End Py.

Import Py.

Declare Scope py_scope.
Delimit Scope py_scope with py.
Notation "'let*' x ':=' c1 'in' c2" := (bind c1 (fun x => c2))
  (at level 10, x pattern, c1 at level 100, c2 at level 200) : py_scope.
Local Open Scope py_scope.

(** ** Operations on Python data *)

(** [bool(v)] *)
Definition py_truthy (v : pyval) : bool :=
  match v with
  | VNone => false
  | VBool b => b
  | VInt n => negb (n =? 0)%Z
  | VStr s => negb (String.eqb s "")
  | VList l => match l with [] => false | _ => true end
  | VDict d => negb (bool_decide (d = ∅))
  end.

(** [sub in s] on strings *)
Fixpoint str_contains (sub s : string) : bool :=
  String.prefix sub s ||
  match s with
  | EmptyString => false
  | String _ s' => str_contains sub s'
  end.

(** [s.startswith(p)] *)
Definition startswith (s p : string) : bool := String.prefix p s.

(** [k in v] for a string [k] *)
Definition py_in (k : string) (v : pyval) : exn + bool :=
  match v with
  | VDict d => inr (bool_decide (is_Some (d !! k)))
  | VList l => inr (existsb (fun x => match x with VStr s => String.eqb s k | _ => false end) l)
  | VStr s => inr (str_contains k s)
  | _ => inl (TypeError "argument is not iterable")
  end.

(** [v[k]] for a string [k] *)
Definition py_getitem (v : pyval) (k : string) : exn + pyval :=
  match v with
  | VDict d => match d !! k with Some x => inr x | None => inl (KeyError k) end
  | _ => inl (TypeError "indices must be integers")
  end.

(** [v.get(k, dflt)] *)
Definition py_get (v : pyval) (k : string) (dflt : pyval) : exn + pyval :=
  match v with
  | VDict d => inr (default dflt (d !! k))
  | _ => inl (AttributeError "object has no attribute 'get'")
  end.

(** A pure step that may raise, as a program. *)
Definition lift {S E} {R : E -> Type} {A} (r : exn + A) : prog S E R A :=
  match r with inl x => Raise x | inr a => Ret a end.

(** ** The event emitter (botocore/hooks.py) *)

Module Hooks.

(** What a client registers: a handler function of some collaborator, or the
    bound method [self._sign_request] of a client, which signs with that
    client's request signer. *)
Inductive handler : Type :=
| HandlerFn (f : obj)
| SignRequest (request_signer : obj).

(** Modelled from the spec: botocore/hooks.py (the EventEmitter) is not among
    the sources.  The registry maps an event-name pattern to an ordered
    sequence of (handlerId, handlerFn); it is kept as the sequence of
    registrations in registration order, each with its pattern. *)
Record registration : Type := Registration {
  pattern : string;
  unique_id : option string;
  handler_fn : handler
}.

(** Modelled from the spec: the registry of one EventEmitter. *)
Abbreviation registry := (list registration).

(** Modelled from the spec: whether a handler id is already registered. *)
Definition id_registered (uid : string) (reg : registry) : bool :=
  existsb (fun r => bool_decide (unique_id r = Some uid)) reg.

(** Modelled from the spec: [register(eventNamePattern, handler, handlerId)],
    idempotent by id: re-registering the same id does not duplicate the
    handler. *)
Definition register (event_name : string) (h : handler) (uid : option string)
    (reg : registry) : registry :=
  match uid with
  | Some i =>
      if id_registered i reg then reg
      else (reg ++ [Registration event_name (Some i) h])%list
  | None => (reg ++ [Registration event_name None h])%list
  end.

(** The dot-segmented prefixes of an event name, the most general first:
    [a.b.c] has [a], [a.b] and [a.b.c]. *)
Fixpoint prefixes_from (acc s : string) : list string :=
  match s with
  | EmptyString => [acc]
  | String c s' =>
      if Ascii.eqb c "."%char
      then acc :: prefixes_from (acc +:+ ".") s'
      else prefixes_from (acc +:+ String c EmptyString) s'
  end.

Definition event_prefixes (event_name : string) : list string :=
  prefixes_from "" event_name.

(** Modelled from the spec: the handlers [emit(eventName, **payload)] invokes,
    in the order it invokes them: every pattern that is a dot-segmented prefix
    of the event name, most general pattern first, and in registration order
    within a pattern. *)
Definition handlers_to_call (reg : registry) (event_name : string) : list registration :=
  flat_map (fun p => filter (fun r => pattern r = p) reg) (event_prefixes event_name).


(** Emitters are objects: a client holds a reference to one. *)
Definition loc := positive.

(** Modelled from the spec: [copy()] produces an independent emitter whose
    handler lists are snapshotted at copy time: a new object with the
    registrations of the copied one. *)
Definition copy (em : loc) (heap : gmap loc registry) : loc * gmap loc registry :=
  let em' := fresh (dom heap) in
  (em', <[em' := heap !!! em]> heap).

(** [emitter.register(...)] on the emitter object [em]. *)
Definition register_at (em : loc) (event_name : string) (h : handler)
    (uid : option string) (heap : gmap loc registry) : gmap loc registry :=
  <[em := register event_name h uid (heap !!! em)]> heap.

End Hooks.

(** ** botocore/client.py *)

Module Client.
Import Hooks.

(** *** The objects the file works with *)

(** What the code reads of a [botocore.model.ServiceModel]. *)
Record ServiceModel : Type := {
  service_name : string;
  api_version : string;
  endpoint_prefix : string;
  signing_name : string;
  signature_version : pyval;
  metadata : gmap string pyval;
  operation_names : list string;
  operation_model : string -> exn + obj
}.

(** [class Config]: advanced configuration for clients. *)
Record Config : Type := { config_signature_version : pyval }.

(** [class ClientMeta]: [events] is the client's emitter, or [None]. *)
Record ClientMeta : Type := { events : option loc }.

(** [class BaseClient] *)
Record BaseClient : Type := {
  _serializer : obj;
  _endpoint : obj;
  _response_parser : obj;
  _request_signer : obj;
  _cache : gmap string pyval;
  meta : ClientMeta
}.

(** [class ClientCreator] *)
Record ClientCreator : Type := {
  _loader : obj;
  _endpoint_resolver : obj;
  _user_agent : string;
  _event_emitter : loc;
  _retry_handler_factory : obj;
  _retry_config_translator : obj;
  _response_parser_factory : option obj
}.

(** What the code reads of the objects its collaborators build. *)
Record Endpoint : Type := { endpoint_obj : obj; endpoint_region_name : pyval }.
Record http_response : Type := { http_obj : obj; status_code : Z }.
Record WaiterModel : Type := { waiter_model_obj : obj; waiter_names : list string }.

(** [botocore.paginate.Paginator(method, pagination_cfg)]: the method is the
    client's own method of that name. *)
Record Paginator : Type := { _method : string; _pagination_cfg : pyval }.

(** *** The collaborators' calls *)

Inductive external : Type :=
| LoadServiceModel (loader : obj) (path : string)
| NewServiceModel (json_model : pyval) (name : string)
| LoadData (loader : obj) (path : string)
| BuildRetryConfig (translator : obj) (prefix : string) (retry definitions : pyval)
| CreateRetryHandler (factory : obj) (retry_config : obj) (prefix : string)
| ConstructEndpoint (resolver : obj) (prefix : string) (region_name : pyval) (scheme : string)
| CreateSerializer (protocol : pyval) (include_validation : bool)
| NewEndpointCreator (resolver : obj) (region_name : pyval) (event_emitter : loc)
    (user_agent : string)
| CreateEndpoint (creator : obj) (service_model : ServiceModel) (region_name : pyval)
    (is_secure : bool) (endpoint_url verify : pyval) (response_parser_factory : option obj)
| CreateParser (protocol : pyval)
| NewRequestSigner (name : string) (region_name : pyval) (signing : string)
    (version : pyval) (credentials : option obj) (event_emitter : loc)
| Emit (emitter : loc) (event_name : string) (payload : list (string * obj))
| SerializeToRequest (serializer : obj) (params : obj) (model : obj)
| MakeRequest (endpoint : obj) (model : obj) (request_dict : obj)
| NewWaiterModel (config : pyval)
| CreateWaiterWithClient (waiter_name : string) (model : WaiterModel) (client : BaseClient).

Definition R (c : external) : Type :=
  match c with
  | LoadServiceModel _ _ => pyval
  | NewServiceModel _ _ => ServiceModel
  | LoadData _ _ => pyval
  | BuildRetryConfig _ _ _ _ => obj
  | CreateRetryHandler _ _ _ => obj
  | ConstructEndpoint _ _ _ _ => pyval
  | CreateSerializer _ _ => obj
  | NewEndpointCreator _ _ _ _ => obj
  | CreateEndpoint _ _ _ _ _ _ _ => Endpoint
  | CreateParser _ => obj
  | NewRequestSigner _ _ _ _ _ _ => obj
  | Emit _ _ _ => unit
  | SerializeToRequest _ _ _ => obj
  | MakeRequest _ _ _ => (http_response * obj)%type
  | NewWaiterModel _ => WaiterModel
  | CreateWaiterWithClient _ _ _ => obj
  end.

(** A method of the creator runs on the emitters; a method of a client runs on
    that client ([self]). *)
Abbreviation creator_prog := (prog (gmap loc registry) external R).
Abbreviation client_prog := (prog BaseClient external R).
Abbreviation call c := (Py.call (R := R) c).

(** *** ClientCreator *)

(** [_register_retries(self, service_model)] *)
Definition _register_retries (self : ClientCreator) (service_model : ServiceModel)
    : creator_prog unit :=
  let endpoint_prefix := endpoint_prefix service_model in
  let* original_config := call (LoadData (_loader self) "aws/_retry") in
  if negb (py_truthy original_config) then Ret tt
  else
    let* retry := lift (py_get original_config "retry" (VDict ∅)) in
    let* definitions := lift (py_get original_config "definitions" (VDict ∅)) in
    let* retry_config :=
      call (BuildRetryConfig (_retry_config_translator self) endpoint_prefix
              retry definitions) in
    let* handler :=
      call (CreateRetryHandler (_retry_handler_factory self) retry_config
              endpoint_prefix) in
    let unique_id := "retry-config-" +:+ endpoint_prefix in
    let* heap := get in
    put (register_at (_event_emitter self) ("needs-retry." +:+ endpoint_prefix)
           (HandlerFn handler) (Some unique_id) heap).

(** [_load_service_model(self, service_name)] *)
Definition _load_service_model (self : ClientCreator) (name : string)
    : creator_prog ServiceModel :=
  let* json_model := call (LoadServiceModel (_loader self) ("aws/" +:+ name)) in
  let* service_model := call (NewServiceModel json_model name) in
  let* _ := _register_retries self service_model in
  Ret service_model.

(** [_get_signature_version_and_region(self, service_model, region_name,
    is_secure, scoped_config)] *)
Definition _get_signature_version_and_region (self : ClientCreator)
    (service_model : ServiceModel) (region_name : pyval) (is_secure : bool)
    (scoped_config : pyval) : creator_prog (pyval * pyval) :=
  let resolver := _endpoint_resolver self in
  let scheme := if is_secure then "https" else "http" in
  let* endpoint_config :=
    call (ConstructEndpoint resolver (endpoint_prefix service_model)
            region_name scheme) in
  (* Signature version override from endpoint *)
  let signature_version := signature_version service_model in
  let* properties := lift (py_get endpoint_config "properties" (VDict ∅)) in
  let* has_version := lift (py_in "signatureVersion" properties) in
  let* signature_version :=
    if has_version : bool then
      let* properties := lift (py_getitem endpoint_config "properties") in
      lift (py_getitem properties "signatureVersion")
    else Ret signature_version in
  (* Signature overrides from a configuration file *)
  let* signature_version :=
    match scoped_config with
    | VNone => Ret signature_version
    | _ =>
        let* service_config :=
          lift (py_get scoped_config (endpoint_prefix service_model) VNone) in
        match service_config with
        | VDict d =>
            let override := default VNone (d !! "signature_version") in
            if py_truthy override then Ret override else Ret signature_version
        | _ => Ret signature_version
        end
    end in
  Ret (signature_version, region_name).

(** The arguments [_get_client_args] returns, by keyword. *)
Record client_args : Type := {
  arg_serializer : obj;
  arg_endpoint : obj;
  arg_response_parser : obj;
  arg_event_emitter : loc;
  arg_request_signer : obj
}.

(** [copy.copy(emitter)] *)
Definition copy_emitter (em : loc) : creator_prog loc :=
  let* heap := get in
  let '(em', heap') := copy em heap in
  let* _ := put heap' in
  Ret em'.

(** [_get_client_args(self, service_model, region_name, is_secure,
    endpoint_url, verify, credentials, scoped_config, client_config)] *)
Definition _get_client_args (self : ClientCreator) (service_model : ServiceModel)
    (region_name : pyval) (is_secure : bool) (endpoint_url verify : pyval)
    (credentials : option obj) (scoped_config : pyval)
    (client_config : option Config) : creator_prog client_args :=
  let* protocol := lift (py_getitem (VDict (metadata service_model)) "protocol") in
  let* serializer := call (CreateSerializer protocol true) in
  let* event_emitter := copy_emitter (_event_emitter self) in
  let* endpoint_creator :=
    call (NewEndpointCreator (_endpoint_resolver self) region_name event_emitter
            (_user_agent self)) in
  let* endpoint :=
    call (CreateEndpoint endpoint_creator service_model region_name is_secure
            endpoint_url verify (_response_parser_factory self)) in
  let* response_parser := call (CreateParser protocol) in
  let region_name := endpoint_region_name endpoint in
  let* (signature_version, region_name) :=
    _get_signature_version_and_region self service_model region_name is_secure
      scoped_config in
  let signature_version :=
    match client_config with
    | Some cfg =>
        match config_signature_version cfg with
        | VNone => signature_version
        | v => v
        end
    | None => signature_version
    end in
  let* signer :=
    call (NewRequestSigner (service_name service_model) region_name
            (signing_name service_model) signature_version credentials
            event_emitter) in
  Ret {| arg_serializer := serializer;
         arg_endpoint := endpoint_obj endpoint;
         arg_response_parser := response_parser;
         arg_event_emitter := event_emitter;
         arg_request_signer := signer |}.

(** [_create_name_mapping(self, service_model)]: py_name -> OperationName, for
    every operation of the service.  [xform_name] (botocore/__init__.py) is
    not among the sources and is taken as given. *)
Definition _create_name_mapping (xform_name : string -> string)
    (service_model : ServiceModel) : gmap string string :=
  foldl (fun mapping operation_name => <[xform_name operation_name := operation_name]> mapping)
    ∅ (operation_names service_model).

(** [_create_api_method]: the method [_api_call] made for one operation. *)
Section ApiCall.
Context {S : Type}.
Variables (operation_name : string) (service_model : ServiceModel).

(** [self.meta.events.emit(event_name, **payload)] *)
Definition emit (self : BaseClient) (event_name : string)
    (payload : list (string * obj)) : prog S external R unit :=
  match events (meta self) with
  | Some em => call (Emit em event_name payload)
  | None => Raise (AttributeError "'NoneType' object has no attribute 'emit'")
  end.

Definition event_name_of (stage : string) : string :=
  stage +:+ "." +:+ endpoint_prefix service_model +:+ "." +:+ operation_name.

Definition _api_call (self : BaseClient) (kwargs : obj) : prog S external R obj :=
  let* operation_model := lift (operation_model service_model operation_name) in
  let* _ :=
    emit self (event_name_of "before-parameter-build")
      [("params", kwargs); ("model", operation_model)] in
  let* request_dict :=
    call (SerializeToRequest (_serializer self) kwargs operation_model) in
  let* _ :=
    emit self (event_name_of "before-call")
      [("model", operation_model); ("params", request_dict);
       ("request_signer", _request_signer self)] in
  let* (http, parsed_response) :=
    call (MakeRequest (_endpoint self) operation_model request_dict) in
  let* _ :=
    emit self (event_name_of "after-call")
      [("http_response", http_obj http); ("parsed", parsed_response);
       ("model", operation_model)] in
  if (status_code http >=? 300)%Z
  then Raise (ClientError parsed_response operation_name)
  else Ret parsed_response.
End ApiCall.

(** *** Pagination and waiter methods of a client *)

Definition set_cache (key : string) (v : pyval) (self : BaseClient) : BaseClient :=
  {| _serializer := _serializer self;
     _endpoint := _endpoint self;
     _response_parser := _response_parser self;
     _request_signer := _request_signer self;
     _cache := <[key := v]> (_cache self);
     meta := meta self |}.

(** [d[k]] on a dict with string keys *)
Definition dict_getitem {V : Type} (d : gmap string V) (k : string) : exn + V :=
  match d !! k with
  | Some v => inr v
  | None => inl (KeyError k)
  end.

Section PaginationMethods.
(** What [_add_pagination_methods] closes over. *)
Variables (loader : obj) (service_model : ServiceModel)
          (name_mapping : gmap string string).

Definition paginators_path : string :=
  "aws/" +:+ service_name service_model +:+ "/" +:+ api_version service_model
    +:+ ".paginators".

(** [can_paginate(self, operation_name)] *)
Definition can_paginate (operation_name : string) : client_prog bool :=
  let* self := get in
  let* _ :=
    if bool_decide (is_Some (_cache self !! "page_config")) then Ret tt
    else
      try_except
        (let* data := call (LoadData loader paginators_path) in
         let* page_config := lift (py_getitem data "pagination") in
         put (set_cache "page_config" page_config self))
        (fun x =>
           match x with
           | DataNotFoundError _ => put (set_cache "page_config" (VDict ∅) self)
           | _ => Raise x
           end) in
  let* actual_operation_name := lift (dict_getitem name_mapping operation_name) in
  let* self := get in
  let* page_config := lift (dict_getitem (_cache self) "page_config") in
  lift (py_in actual_operation_name page_config).

(** [get_paginator(self, operation_name)] *)
Definition get_paginator (operation_name : string) : client_prog Paginator :=
  let* pageable := can_paginate operation_name in
  if negb pageable then Raise (OperationNotPageableError operation_name)
  else
    let* actual_operation_name := lift (dict_getitem name_mapping operation_name) in
    let* self := get in
    let* page_config := lift (dict_getitem (_cache self) "page_config") in
    let* cfg := lift (py_getitem page_config actual_operation_name) in
    Ret {| _method := operation_name; _pagination_cfg := cfg |}.
End PaginationMethods.

Section WaiterMethods.
(** What [_add_waiter_methods] closes over; [xform_name] as above. *)
Variables (loader : obj) (service_model : ServiceModel)
          (xform_name : string -> string).

Definition waiters_path : string :=
  "aws/" +:+ service_name service_model +:+ "/" +:+ api_version service_model
    +:+ ".waiters".

(** [_get_waiter_config(self)] *)
Definition _get_waiter_config : client_prog pyval :=
  let* self := get in
  let* _ :=
    if bool_decide (is_Some (_cache self !! "waiter_config")) then Ret tt
    else
      try_except
        (let* waiter_config := call (LoadData loader waiters_path) in
         put (set_cache "waiter_config" waiter_config self))
        (fun x =>
           match x with
           | DataNotFoundError _ => put (set_cache "waiter_config" (VDict ∅) self)
           | _ => Raise x
           end) in
  let* self := get in
  lift (dict_getitem (_cache self) "waiter_config").

(** The loop [for name in model.waiter_names: mapping[xform_name(name)] = name] *)
Definition waiter_mapping (model : WaiterModel) : gmap string string :=
  foldl (fun mapping name => <[xform_name name := name]> mapping) ∅ (waiter_names model).

(** [get_waiter(self, waiter_name)] *)
Definition get_waiter (waiter_name : string) : client_prog obj :=
  let* config := _get_waiter_config in
  if negb (py_truthy config)
  then Raise (ValueError ("Waiter does not exist: " +:+ waiter_name))
  else
    let* model := call (NewWaiterModel config) in
    let mapping := waiter_mapping model in
    if negb (bool_decide (is_Some (mapping !! waiter_name)))
    then Raise (ValueError ("Waiter does not exist: " +:+ waiter_name))
    else
      let* name := lift (dict_getitem mapping waiter_name) in
      let* self := get in
      call (CreateWaiterWithClient name model self).
End WaiterMethods.

(** *** BaseClient and ClientMeta *)

(** [BaseClient.__init__(self, serializer, endpoint, response_parser,
    event_emitter, request_signer)] *)
Definition BaseClient__init__ (serializer endpoint response_parser : obj)
    (event_emitter : option loc) (request_signer : obj) : creator_prog BaseClient :=
  let self :=
    {| _serializer := serializer;
       _endpoint := endpoint;
       _response_parser := response_parser;
       _request_signer := request_signer;
       _cache := ∅;
       meta := {| events := event_emitter |} |} in
  match events (meta self) with
  | Some em =>
      let* heap := get in
      let* _ :=
        put (register_at em "request-created" (SignRequest (_request_signer self))
               None heap) in
      Ret self
  | None => Ret self
  end.

(** [ClientMeta.__copy__(self)] *)
Definition ClientMeta__copy__ (self : ClientMeta) : creator_prog ClientMeta :=
  let* copied_events :=
    match events self with
    | Some em => let* em' := copy_emitter em in Ret (Some em')
    | None => Ret None
    end in
  Ret {| events := copied_events |}.

(** [clone_client(self, serializer=None, endpoint=None, response_parser=None,
    request_signer=None)] *)
Definition clone_client (self : BaseClient)
    (serializer endpoint response_parser request_signer : option obj)
    : creator_prog BaseClient :=
  let serializer := default (_serializer self) serializer in
  let endpoint := default (_endpoint self) endpoint in
  let response_parser := default (_response_parser self) response_parser in
  let request_signer := default (_request_signer self) request_signer in
  (* This will be swapped out in the ClientMeta class. *)
  let* new_object :=
    BaseClient__init__ serializer endpoint response_parser None request_signer in
  let* new_meta := ClientMeta__copy__ (meta self) in
  Ret {| _serializer := _serializer new_object;
         _endpoint := _endpoint new_object;
         _response_parser := _response_parser new_object;
         _request_signer := _request_signer new_object;
         _cache := _cache new_object;
         meta := new_meta |}.

(** [create_client(...)], up to the class [create_client_class] builds: it
    loads the service model once itself and once more through
    [create_client_class], then constructs the client from the arguments. *)
Definition create_client (self : ClientCreator) (name : string)
    (region_name : pyval) (is_secure : bool) (endpoint_url verify : pyval)
    (credentials : option obj) (scoped_config : pyval)
    (client_config : option Config) : creator_prog BaseClient :=
  let* service_model := _load_service_model self name in
  let* _ := _load_service_model self name in
  let* args :=
    _get_client_args self service_model region_name is_secure endpoint_url
      verify credentials scoped_config client_config in
  BaseClient__init__ (arg_serializer args) (arg_endpoint args)
    (arg_response_parser args) (Some (arg_event_emitter args))
    (arg_request_signer args).

End Client.

(** ** ebcli/operations/commonops.py *)

Module Commonops.

(** What the code reads of an event ([event_date] is a point in time, in
    microseconds). *)
Record Event : Type := {
  message : string;
  severity : string;
  event_date : Z;
  app_name : string;
  environment_name : string
}.

Inductive external : Type :=
| Now
| Sleep (seconds : Z)
| GetEventStreamer
| AppendPrompt (streamer : obj) (text : string)
| GetNewEvents (app env request_id : option string) (last_event_time : option Z)
| StreamEvent (streamer : obj) (text : string)
| EndStream (streamer : obj).

Definition R (c : external) : Type :=
  match c with
  | Now => Z
  | Sleep _ => unit
  | GetEventStreamer => obj
  | AppendPrompt _ _ => unit
  | GetNewEvents _ _ _ _ => list Event
  | StreamEvent _ _ => unit
  | EndStream _ => unit
  end.

Abbreviation call c := (Py.call (S := unit) (R := R) c).

(** [timedelta(seconds=s)], in microseconds *)
Definition timedelta_seconds (s : Z) : Z := s * 1000000.

Section Strings.
(** The tables of [ebcli/resources/strings.py], which is not among the
    sources, are taken as given. *)
Variables (responses strings prompts : string -> string).

(** [_is_success_string(message)] *)
Definition _is_success_string (message : string) : exn + bool :=
  if String.eqb message (responses "event.greenmessage") then inr true
  else if startswith message (responses "event.launchsuccess") then inr true
  else if String.eqb message (responses "event.redmessage") then inl (ServiceError message)
  else if startswith message (responses "event.launchbad") then inl (ServiceError message)
  else if startswith message (responses "event.updatebad") then inl (ServiceError message)
  else if String.eqb message (responses "event.failedlaunch") then inl (ServiceError message)
  else if String.eqb message (responses "event.faileddeploy") then inl (ServiceError message)
  else if String.eqb message (responses "logs.pulled") then inr true
  else if startswith message (responses "logs.fail") then inl (ServiceError message)
  else if String.eqb message (responses "env.terminated") then inr true
  else if String.eqb message (responses "env.updatesuccess") then inr true
  else if String.eqb message (responses "env.configsuccess") then inr true
  else if String.eqb message (responses "app.deletesuccess") then inr true
  else if str_contains (responses "logs.successtail") message then inr true
  else if str_contains (responses "logs.successbundle") message then inr true
  else if startswith message (responses "swap.success") then inr true
  else if startswith message (responses "create.ecsdockerrun1")
       then inl (NotSupportedError (prompts "create.dockerrunupgrade"))
  else inr false.

(** [get_event_string(event)], with [long_format=False] *)
Definition get_event_string (event : Event) : string :=
  severity event +:+ ": " +:+ message event.

Section Wait.
Variables (request_id : option string) (sleep_time : Z) (stream_events : bool).
Variables (streamer : obj) (start timediff : Z).

(** How the first loop leaves the [try] block: by [return], or by falling
    out of the loop with the locals it has set. *)
Inductive first_exit : Type :=
| FirstReturn
| FirstDone (app env : string) (last_time : option Z).

(** [while not events:], the loop that gets the first events. *)
Fixpoint first_events (fuel : nat) : prog unit external R first_exit :=
  match fuel with
  | O => Spin
  | S fuel' =>
      let* events := call (GetNewEvents None None request_id None) in
      match last events with
      | Some event =>
          let* _ :=
            if stream_events
            then call (StreamEvent streamer (get_event_string event))
            else Ret tt in
          let* success := lift (_is_success_string (message event)) in
          if success : bool then Ret FirstReturn
          else Ret (FirstDone (app_name event) (environment_name event)
                      (Some (event_date event)))
      | None =>
          let* _ := call (Sleep sleep_time) in
          first_events fuel'
      end
  end.

(** [for event in reversed(events):], given the events already reversed:
    [inl tt] when the loop body returned, else the new [last_time]. *)
Fixpoint for_events (events : list Event) (last_time : option Z)
    : prog unit external R (unit + option Z) :=
  match events with
  | [] => Ret (inr last_time)
  | event :: rest =>
      let* last_time :=
        if stream_events
        then
          let* _ := call (StreamEvent streamer (get_event_string event)) in
          Ret (Some (event_date event))
        else Ret last_time in
      let* success := lift (_is_success_string (message event)) in
      if success : bool then Ret (inl tt) else for_events rest last_time
  end.

(** [while (datetime.now() - start) < timediff:]: [true] when the loop
    body returned, [false] when the loop ended on its condition. *)
Fixpoint poll (fuel : nat) (app env : string) (last_time : option Z)
    : prog unit external R bool :=
  match fuel with
  | O => Spin
  | S fuel' =>
      let* now := call Now in
      if (now - start <? timediff)%Z then
        let* _ := call (Sleep sleep_time) in
        let* events := call (GetNewEvents (Some app) (Some env) None last_time) in
        let* r := for_events (rev events) last_time in
        match r with
        | inl _ => Ret true
        | inr last_time' => poll fuel' app env last_time'
        end
      else Ret false
  end.
End Wait.

(** [wait_for_success_events(request_id, timeout_in_minutes=None,
    sleep_time=5, stream_events=True, can_abort=False)]; each loop may take
    [fuel] turns. *)
Definition wait_for_success_events (fuel : nat) (request_id : option string)
    (timeout_in_minutes : option Z) (sleep_time : Z)
    (stream_events can_abort : bool) : prog unit external R unit :=
  if bool_decide (timeout_in_minutes = Some 0%Z) then Ret tt
  else
    let timeout_in_minutes := default 10%Z timeout_in_minutes in
    let* start := call Now in
    let timediff := timedelta_seconds (timeout_in_minutes * 60) in
    let* streamer := call GetEventStreamer in
    let* _ :=
      if can_abort
      then call (AppendPrompt streamer (strings "events.abortmessage"))
      else Ret tt in
    let* returned :=
      try_finally
        (let* first := first_events request_id sleep_time stream_events streamer fuel in
         match first with
         | FirstReturn => Ret true
         | FirstDone app env last_time =>
             poll sleep_time stream_events streamer start timediff fuel app env
               last_time
         end)
        (call (EndStream streamer)) in
    if returned : bool then Ret tt
    else
      (* We have timed out *)
      Raise (TimeoutError "Timed out while waiting for command to Complete").
End Strings.

End Commonops.

(** ** ebcli/lib/elb.py *)

Module Elb.

Inductive external : Type :=
| MakeApiCall (service operation_name : string) (operation_options : list (string * pyval)).

Definition R (c : external) : Type := pyval.

Abbreviation call c := (Py.call (S := unit) (R := R) c).

(** [_make_api_call(operation_name, **operation_options)] *)
Definition _make_api_call (operation_name : string)
    (operation_options : list (string * pyval)) : prog unit external R pyval :=
  call (MakeApiCall "elb" operation_name operation_options).

(** [get_health_of_instances(load_balancer_name, region=None)].  The local
    variable [result] is bound only when the call in the [try] block returns.
    [responses] is the table of [ebcli/resources/strings.py], taken as given;
    an exception of class [ServiceError] is [ServiceError message]. *)
Definition get_health_of_instances (responses : string -> string)
    (load_balancer_name region : pyval) : prog unit external R pyval :=
  let* result :=
    try_except
      (let* result :=
         _make_api_call "describe-instance-health"
           [("load_balancer_name", load_balancer_name); ("region", region)] in
       Ret (Some result))
      (fun e =>
         match e with
         | ServiceError message =>
             if startswith message (responses "loadbalancer.notfound")
             then Raise (NotFoundError e)
             else Ret None
         | _ => Raise e
         end) in
  match result with
  | Some result => lift (py_getitem result "InstanceStates")
  | None => Raise (UnboundLocalError "result")
  end.

End Elb.

(** ** ebcli/docker/compose.py *)

Module Compose.

Definition AWSEB_LOGS : string := "awseb-logs-".
Definition COMPOSE_CMD_KEY : string := "command".
Definition COMPOSE_ENV_KEY : string := "environment".
Definition COMPOSE_IMG_KEY : string := "image".
Definition COMPOSE_LINKS_KEY : string := "links".
Definition COMPOSE_PORTS_KEY : string := "ports".
Definition COMPOSE_VOLUMES_KEY : string := "volumes".
Definition CONTAINER_DEF_CMD_KEY : string := "command".
Definition CONTAINER_DEF_CONTAINERPORT_KEY : string := "containerPort".
Definition CONTAINER_DEF_HOSTPORT_KEY : string := "hostPort".
Definition CONTAINER_DEF_IMG_KEY : string := "image".
Definition CONTAINER_DEF_KEY : string := "containerDefinitions".
Definition CONTAINER_DEF_LINKS_KEY : string := "links".
Definition CONTAINER_DEF_NAME_KEY : string := "name".
Definition CONTAINER_DEF_PORT_MAPPINGS_KEY : string := "portMappings".
Definition CONTAINER_PATH_KEY : string := "containerPath".
Definition MOUNT_POINTS : string := "mountPoints".
Definition READ_ONLY_KEY : string := "readOnly".
Definition READ_ONLY_VOLUME : string := ":ro".
Definition SOURCE_VOLUME_KEY : string := "sourceVolume".
Definition VAR_APP_CURRENT : string := "/var/app/current/".
Definition VOLUMES_KEY : string := "volumes".
Definition VOLUMES_NAME_KEY : string := "name".
Definition VOLUMES_HOST_KEY : string := "host".
Definition VOLUMES_SOURCE_PATH_KEY : string := "sourcePath".

(** *** Python operations the file uses *)

(** Sequencing of pure steps that may raise. *)
Definition and_then {A B : Type} (r : exn + A) (k : A -> exn + B) : exn + B :=
  match r with
  | inl x => inl x
  | inr a => k a
  end.

Notation "'let?' x ':=' c1 'in' c2" := (and_then c1 (fun x => c2))
  (at level 10, x pattern, c1 at level 100, c2 at level 200).

(** [[f(x) for x in l]], stopping at the first exception. *)
Fixpoint for_each {A B : Type} (f : A -> exn + B) (l : list A) : exn + list B :=
  match l with
  | [] => inr []
  | x :: l' =>
      let? y := f x in
      let? ys := for_each f l' in
      inr (y :: ys)
  end.

(** [s.replace(c, '')] for a one-character [c] *)
Fixpoint str_remove (c : ascii) (s : string) : string :=
  match s with
  | EmptyString => EmptyString
  | String a s' =>
      if Ascii.eqb a c then str_remove c s' else String a (str_remove c s')
  end.

(** [s[n:]] *)
Fixpoint str_drop (n : nat) (s : string) : string :=
  match n, s with
  | O, _ => s
  | S n', String _ s' => str_drop n' s'
  | S _, EmptyString => EmptyString
  end.

(** The characters of a string, as [for c in s] gives them. *)
Fixpoint str_chars (s : string) : list pyval :=
  match s with
  | EmptyString => []
  | String a s' => VStr (String a EmptyString) :: str_chars s'
  end.

(** What a value is as a dict key: [True] and [1] are the same key, a list or
    a dict is not hashable. *)
Inductive key : Type :=
| KNone
| KInt (n : Z)
| KStr (s : string).

#[global] Instance key_eq_dec : EqDecision key.
Proof. solve_decision. Defined.

Definition py_key (v : pyval) : exn + key :=
  match v with
  | VNone => inr KNone
  | VBool b => inr (KInt (if b then 1 else 0))
  | VInt n => inr (KInt n)
  | VStr s => inr (KStr s)
  | _ => inl (TypeError "unhashable type")
  end.

(** [d.get(k)] on a dict with keys of any hashable type, kept as the list of
    its bindings, the newest first. *)
Fixpoint assoc_get {V : Type} (d : list (key * V)) (k : key) : option V :=
  match d with
  | [] => None
  | (k', v) :: d' => if decide (k' = k) then Some v else assoc_get d' k
  end.

Section Compose.
(** Taken as given: [str(v)] as ['{}'.format(v)] renders a value, the order in
    which a dict hands out its keys (the map does not keep it), and
    [os.path.join] of the platform. *)
Variables (str_of : pyval -> string)
          (dict_keys : gmap string pyval -> list string)
          (path_join : string -> string -> string).

(** The elements [for x in v] goes through. *)
Definition py_iter (v : pyval) : exn + list pyval :=
  match v with
  | VList l => inr l
  | VStr s => inr (str_chars s)
  | VDict d => inr (VStr <$> dict_keys d)
  | _ => inl (TypeError "object is not iterable")
  end.

(** [_fakename(realname)] *)
Definition _fakename (realname : pyval) : exn + string :=
  match realname with
  | VStr s => inr (str_remove "-"%char s)
  | _ => inl (AttributeError "object has no attribute 'replace'")
  end.

(** [_get_port_maps(dockerrun_port_mappings)] *)
Definition _get_port_maps (dockerrun_port_mappings : pyval) : exn + list string :=
  let? mappings := py_iter dockerrun_port_mappings in
  for_each
    (fun m =>
       let? hostport := py_getitem m CONTAINER_DEF_HOSTPORT_KEY in
       let? containerport := py_getitem m CONTAINER_DEF_CONTAINERPORT_KEY in
       inr (str_of hostport +:+ ":" +:+ str_of containerport))
    mappings.

(** [_get_container_definitions(dockerrun)] *)
Definition _get_container_definitions (dockerrun : pyval) : exn + pyval :=
  py_get dockerrun CONTAINER_DEF_KEY (VList []).

(** [v.startswith(p)] on any value *)
Definition py_startswith (v : pyval) (p : string) : exn + bool :=
  match v with
  | VStr s => inr (startswith s p)
  | _ => inl (AttributeError "object has no attribute 'startswith'")
  end.

(** [v[n:]] on a value known to be a string *)
Definition py_str_drop (n : nat) (v : pyval) : string :=
  match v with
  | VStr s => str_drop n s
  | _ => EmptyString
  end.

(** The loop of [_get_volume_map], over the volumes still to come. *)
Fixpoint volume_map_loop (docker_proj_path : string) (volumes : list pyval)
    (vmap : list (key * string)) : exn + list (key * string) :=
  match volumes with
  | [] => inr vmap
  | volume :: rest =>
      let? name := py_getitem volume VOLUMES_NAME_KEY in
      let? host := py_getitem volume VOLUMES_HOST_KEY in
      let? source_path := py_getitem host VOLUMES_SOURCE_PATH_KEY in
      let? under := py_startswith source_path VAR_APP_CURRENT in
      if under : bool then
        let local_relative_path :=
          py_str_drop (String.length VAR_APP_CURRENT) source_path in
        let local_source_path := path_join docker_proj_path local_relative_path in
        let? k := py_key name in
        volume_map_loop docker_proj_path rest ((k, local_source_path) :: vmap)
      else volume_map_loop docker_proj_path rest vmap
  end.

(** [_get_volume_map(volumes, docker_proj_path)] *)
Definition _get_volume_map (volumes : pyval) (docker_proj_path : string)
    : exn + list (key * string) :=
  let? volumes := py_iter volumes in
  volume_map_loop docker_proj_path volumes [].

Inductive external : Type :=
| Makedirs (path : string).

Definition R (c : external) : Type := unit.

Abbreviation service_prog := (prog (gmap string pyval) external R).

(** The loop over the mount points in [_add_service]: the volumes of the
    service, in order. *)
Fixpoint mount_loop (volume_map : list (key * string)) (host_log : string)
    (mountpoints : list pyval) (volumes : list string) : service_prog (list string) :=
  match mountpoints with
  | [] => Ret volumes
  | mp :: rest =>
      let* src_vol := lift (py_getitem mp SOURCE_VOLUME_KEY) in
      let* container_path := lift (py_getitem mp CONTAINER_PATH_KEY) in
      let* read_only := lift (py_get mp READ_ONLY_KEY VNone) in
      let* k := lift (py_key src_vol) in
      let* src_path :=
        match assoc_get volume_map k with
        | Some src_path => Ret (Some src_path)
        | None =>
            let* logs := lift (py_startswith src_vol AWSEB_LOGS) in
            if logs : bool then
              let dirname := py_str_drop (String.length AWSEB_LOGS) src_vol in
              let src_path := path_join host_log dirname in
              let* _ := Py.call (R := R) (Makedirs src_path) in
              Ret (Some src_path)
            else Ret None
        end in
      match src_path with
      | None => mount_loop volume_map host_log rest volumes
      | Some src_path =>
          let volume := src_path +:+ ":" +:+ str_of container_path in
          let volume :=
            if py_truthy read_only then volume +:+ READ_ONLY_VOLUME else volume in
          mount_loop volume_map host_log rest (volumes ++ [volume])%list
      end
  end.

Definition str_list (l : list string) : pyval := VList (VStr <$> l).

(** [_add_service(services, definition, volume_map, host_log, envvars_map)];
    [services] is the state. *)
Definition _add_service (definition : pyval) (volume_map : list (key * string))
    (host_log : string) (envvars_map : pyval) : service_prog unit :=
  let* realname := lift (py_getitem definition CONTAINER_DEF_NAME_KEY) in
  let* img := lift (py_getitem definition CONTAINER_DEF_IMG_KEY) in
  let* links := lift (py_get definition CONTAINER_DEF_LINKS_KEY (VList [])) in
  let* command := lift (py_get definition CONTAINER_DEF_CMD_KEY (VList [])) in
  let* dockerrun_port_mappings :=
    lift (py_get definition CONTAINER_DEF_PORT_MAPPINGS_KEY (VList [])) in
  let* ports := lift (_get_port_maps dockerrun_port_mappings) in
  let* remote_mountpoints := lift (py_get definition MOUNT_POINTS (VList [])) in
  let service : gmap string pyval := {[ COMPOSE_IMG_KEY := img ]} in
  let service :=
    if py_truthy command then <[COMPOSE_CMD_KEY := command]> service else service in
  let service :=
    match ports with
    | [] => service
    | _ => <[COMPOSE_PORTS_KEY := str_list ports]> service
    end in
  let* service :=
    if py_truthy links then
      let* names := lift (py_iter links) in
      let* aliased :=
        lift (for_each
                (fun n =>
                   let? fake := _fakename n in
                   inr (fake +:+ ":" +:+ str_of n))
                names) in
      Ret (<[COMPOSE_LINKS_KEY := str_list aliased]> service)
    else Ret service in
  let service :=
    if py_truthy envvars_map then <[COMPOSE_ENV_KEY := envvars_map]> service
    else service in
  let* mountpoints := lift (py_iter remote_mountpoints) in
  let* volumes := mount_loop volume_map host_log mountpoints [] in
  let service :=
    match volumes with
    | [] => service
    | _ => <[COMPOSE_VOLUMES_KEY := str_list volumes]> service
    end in
  let* alias := lift (_fakename realname) in
  let* services := get in
  put (<[alias := VDict service]> services).

(** The loop of [compose_dict] over the container definitions. *)
Fixpoint add_services (definitions : list pyval) (volume_map : list (key * string))
    (host_log : string) (envvars_map : pyval) : service_prog unit :=
  match definitions with
  | [] => Ret tt
  | definition :: rest =>
      let* _ := _add_service definition volume_map host_log envvars_map in
      add_services rest volume_map host_log envvars_map
  end.

(** [compose_dict(dockerrun, docker_proj_path, host_log, envvars_map)] *)
Definition compose_dict (dockerrun : pyval) (docker_proj_path host_log : string)
    (envvars_map : pyval) : service_prog (gmap string pyval) :=
  let* _ := put ∅ in
  let* definitions := lift (_get_container_definitions dockerrun) in
  let* volumes := lift (py_get dockerrun VOLUMES_KEY (VList [])) in
  let* volume_map := lift (_get_volume_map volumes docker_proj_path) in
  let* definitions := lift (py_iter definitions) in
  let* _ := add_services definitions volume_map host_log envvars_map in
  get.
End Compose.

End Compose.

(** ** Programs that raise the EB CLI's own exceptions *)

Module Eb.

(** The exceptions the code below raises or handles: the ones above
    ([Builtin]), the classes of [ebcli/objects/exceptions.py] it names, and
    the ones of Python, of the operating system and of the YAML parser.  The
    classes are kept apart: a handler for one catches no other ([IOError] and
    [OSError] are two classes, as in Python 2). *)
Inductive error : Type :=
| Builtin (e : exn)
| NotInitializedError (message : string)
| NotFoundError (message : string)
| AlreadyExistsError (message : string)
| InvalidSyntaxError (message : string)
| ServiceError (message code : string)
| CommandError (message : string)
| AssertionError (message : string)
| IndexError
| IOError (id : obj)
| OSError (id : obj)
| ScannerError (id : obj)
| ParserError (id : obj).

Section Prog.
Context {S : Type} {E : Type} {R : E -> Type}.

(** Programs as in [Py], over these exceptions. *)
Inductive prog (A : Type) : Type :=
| Ret (a : A)
| Raise (x : error)
| Spin
| Get (k : S -> prog A)
| Put (s : S) (k : prog A)
| Call (c : E) (k : error + R c -> prog A).

#[global] Arguments Ret {A} a.
#[global] Arguments Raise {A} x.
#[global] Arguments Spin {A}.
#[global] Arguments Get {A} k.
#[global] Arguments Put {A} s k.
#[global] Arguments Call {A} c k.

Fixpoint bind {A B : Type} (p : prog A) (f : A -> prog B) : prog B :=
  match p with
  | Ret a => f a
  | Raise x => Raise x
  | Spin => Spin
  | Get k => Get (fun s => bind (k s) f)
  | Put s k => Put s (bind k f)
  | Call c k => Call c (fun r => bind (k r) f)
  end.

(** [try: p  except: h] *)
Fixpoint try_except {A : Type} (p : prog A) (h : error -> prog A) : prog A :=
  match p with
  | Ret a => Ret a
  | Raise x => h x
  | Spin => Spin
  | Get k => Get (fun s => try_except (k s) h)
  | Put s k => Put s (try_except k h)
  | Call c k => Call c (fun r => try_except (k r) h)
  end.

(** [try: p  finally: f] *)
Fixpoint try_finally {A : Type} (p : prog A) (f : prog unit) : prog A :=
  match p with
  | Ret a => bind f (fun _ => Ret a)
  | Raise x => bind f (fun _ => Raise x)
  | Spin => Spin
  | Get k => Get (fun s => try_finally (k s) f)
  | Put s k => Put s (try_finally k f)
  | Call c k => Call c (fun r => try_finally (k r) f)
  end.

Definition call (c : E) : prog (R c) :=
  Call c (fun r => match r with inl x => Raise x | inr a => Ret a end).

(** A pure step that may raise one of the exceptions above. *)
Definition lift {A : Type} (r : exn + A) : prog A :=
  match r with
  | inl x => Raise (Builtin x)
  | inr a => Ret a
  end.

Inductive outcome (A : Type) : Type :=
| Returned (a : A)
| Raised (x : error)
| OutOfFuel.

#[global] Arguments Returned {A} a.
#[global] Arguments Raised {A} x.
#[global] Arguments OutOfFuel {A}.

Definition entry : Type := { c : E & (error + R c)%type }.

Definition env (W : Type) : Type := forall c : E, W -> (error + R c) * W.

Fixpoint run {A W : Type} (h : env W) (p : prog A) (s : S) (w : W)
  : outcome A * S * W * list entry :=
  match p with
  | Ret a => (Returned a, s, w, [])
  | Raise x => (Raised x, s, w, [])
  | Spin => (OutOfFuel, s, w, [])
  | Get k => run h (k s) s w
  | Put s' k => run h k s' w
  | Call c k =>
      let '(r, w') := h c w in
      let '(o, s', w'', t) := run h (k r) s w' in
      (o, s', w'', existT c r :: t)
  end.

Definition calls (t : list entry) : list E := map (@projT1 _ _) t.

End Prog.

#[global] Arguments prog : clear implicits.
#[global] Arguments entry : clear implicits.
#[global] Arguments env : clear implicits.

(** A program of one module as part of a program of another, whose calls
    include the first one's. *)
Fixpoint embed {S E E' : Type} {R : E -> Type} {R' : E' -> Type} {A : Type}
    (inj : E -> E') (cast : forall c, R' (inj c) -> R c)
    (p : prog S E R A) : prog S E' R' A :=
  match p with
  | Ret a => Ret a
  | Raise x => Raise x
  | Spin => Spin
  | Get k => Get (fun s => embed inj cast (k s))
  | Put s k => Put s (embed inj cast k)
  | Call c k =>
      Call (inj c)
        (fun r => embed inj cast
                    (k match r with inl x => inl x | inr a => inr (cast c a) end))
  end.

Notation "'let+' x ':=' c1 'in' c2" := (bind c1 (fun x => c2))
  (at level 10, x pattern, c1 at level 100, c2 at level 200).

End Eb.

(** ** ebcli/core/fileoperations.py *)

Module Fileoperations.
Import Eb.

(** What the module asks of [os], [os.path], [shutil], [glob], [codecs] and
    [yaml].  [LoadYaml] is [codecs.open(filename, 'r')] followed by [load],
    [DumpYaml] is [codecs.open(filename, 'w')] followed by writing the
    [safe_dump] of the data, [ReadData] and [WriteData] are [codecs.open]
    followed by [read] and [write]. *)
Inductive external : Type :=
| Expanduser (path : string)
| Getcwd
| Chdir (path : string)
| Isdir (path : string)
| Isfile (path : string)
| Exists (path : string)
| Makedirs (path : string)
| Rmtree (path : string)
| Remove (path : string)
| Abspath (path : string)
| Glob (pathname : string)
| Getenv (name : string)
| LoadYaml (filename : string)
| DumpYaml (filename : string) (data : pyval)
| ReadData (location : string)
| WriteData (location : string) (data : string).

Definition R (c : external) : Type :=
  match c with
  | Expanduser _ => string
  | Getcwd => string
  | Chdir _ => unit
  | Isdir _ => bool
  | Isfile _ => bool
  | Exists _ => bool
  | Makedirs _ => unit
  | Rmtree _ => unit
  | Remove _ => unit
  | Abspath _ => string
  | Glob _ => list string
  | Getenv _ => option string
  | LoadYaml _ => pyval
  | DumpYaml _ _ => unit
  | ReadData _ => string
  | WriteData _ _ => unit
  end.

Abbreviation file_prog := (prog unit external R).
Abbreviation call c := (Eb.call (R := R) c).

Section Fileoperations.
(** [os.path.sep], [os.path.join] and [sys.platform.startswith('win')] *)
Variables (sep : string) (path_join : string -> string -> string) (windows : bool).

Definition pardir : string := "..".

Definition get_aws_home : file_prog string :=
  call (Expanduser ("~" +:+ sep +:+ ".aws" +:+ sep)).

Definition get_ssh_folder : file_prog string :=
  let+ p := call (Expanduser ("~" +:+ sep +:+ ".ssh" +:+ sep)) in
  let+ present := call (Exists p) in
  let+ _ := if negb present then call (Makedirs p) else Ret tt in
  Ret p.

Definition beanstalk_directory : string := ".elasticbeanstalk" +:+ sep.
Definition global_config_file : string := beanstalk_directory +:+ "config.global.yml".
Definition local_config_file : string := beanstalk_directory +:+ "config.yml".
Definition app_version_folder : string := beanstalk_directory +:+ "app_versions".

Definition is_git_directory_present : file_prog bool := call (Isdir ".git").

(** The recursion of [_traverse_to_project_root] is bounded by [fuel]. *)
Fixpoint _traverse_to_project_root (fuel : nat) : file_prog unit :=
  match fuel with
  | O => Spin
  | S fuel =>
      let+ cwd := call Getcwd in
      let+ isdir := call (Isdir beanstalk_directory) in
      if negb isdir then
        let+ _ := call (Chdir pardir) in
        let+ cwd' := call Getcwd in
        if String.eqb cwd cwd' then
          Raise (NotInitializedError "EB is not yet initialized")
        else _traverse_to_project_root fuel
      else Ret tt
  end.



Definition old_eb_config_present : file_prog bool :=
  call (Isfile (beanstalk_directory +:+ "config")).

Definition config_file_present : file_prog bool :=
  call (Isfile local_config_file).

Definition touch_config_folder : file_prog unit :=
  let+ isdir := call (Isdir beanstalk_directory) in
  if negb isdir then call (Makedirs beanstalk_directory) else Ret tt.

Definition get_zip_location (fuel : nat) (file_name : string) : file_prog string :=
  let+ cwd := call Getcwd in
  try_finally
    (let+ _ := _traverse_to_project_root fuel in
     let+ isdir := call (Isdir app_version_folder) in
     let+ _ := if negb isdir then call (Makedirs app_version_folder) else Ret tt in
     let+ path := call (Abspath app_version_folder) in
     Ret (path +:+ sep +:+ file_name))
    (call (Chdir cwd)).






Definition _get_yaml_dict (filename : string) : file_prog pyval :=
  try_except (call (LoadYaml filename))
    (fun x =>
       match x with
       | IOError _ => Ret (VDict ∅)
       | _ => Raise x
       end).

(** [config[section][key_name]] *)
Definition setting (config : pyval) (section key_name : string) : exn + pyval :=
  match py_getitem config section with
  | inl x => inl x
  | inr entries => py_getitem entries key_name
  end.

(** [default] is [None] for the module's [_marker]. *)
Definition get_config_setting (fuel : nat) (section key_name : string)
    (default : option pyval) : file_prog pyval :=
  let+ cwd := call Getcwd in
  try_finally
    (try_except
       (let+ _ := _traverse_to_project_root fuel in
        let+ config_global := _get_yaml_dict global_config_file in
        let+ config_local := _get_yaml_dict local_config_file in
        let+ value :=
          try_except (lift (setting config_global section key_name))
            (fun x =>
               match x with
               | Builtin (KeyError _) => Ret VNone
               | _ => Raise x
               end) in
        let+ value :=
          try_except
            (if py_truthy config_local
             then lift (setting config_local section key_name)
             else Ret value)
            (fun x =>
               match x with
               | Builtin (KeyError _) => Ret value
               | _ => Raise x
               end) in
        match value, default with
        | VNone, Some default => Ret default
        | _, _ => Ret value
        end)
       (fun x =>
          match x with
          | NotInitializedError _ =>
              match default with
              | None => Raise x
              | Some default => Ret default
              end
          | _ => Raise x
          end))
    (call (Chdir cwd)).

(** [config.setdefault(section, {})[key_name] = value] *)
Definition set_setting (config : pyval) (section key_name : string) (value : pyval)
    : exn + pyval :=
  match config with
  | VDict d =>
      match default (VDict ∅) (d !! section) with
      | VDict entries => inr (VDict (<[section := VDict (<[key_name := value]> entries)]> d))
      | VList _ => inl (TypeError "list indices must be integers")
      | _ => inl (TypeError "object does not support item assignment")
      end
  | _ => inl (AttributeError "object has no attribute 'setdefault'")
  end.

Definition write_config_setting (fuel : nat) (section key_name : string)
    (value : pyval) : file_prog unit :=
  let+ cwd := call Getcwd in
  try_finally
    (let+ _ := _traverse_to_project_root fuel in
     let+ config := _get_yaml_dict local_config_file in
     let config := if negb (py_truthy config) then VDict ∅ else config in
     let+ config := lift (set_setting config section key_name value) in
     call (DumpYaml local_config_file config))
    (call (Chdir cwd)).

Definition get_application_name (fuel : nat) (default : option pyval) : file_prog pyval :=
  let+ result := get_config_setting fuel "global" "application_name" None in
  match result with
  | VNone =>
      match default with
      | None => Raise (NotInitializedError "")
      | Some default => Ret default
      end
  | _ => Ret result
  end.

Definition get_default_region (fuel : nat) : file_prog pyval :=
  get_config_setting fuel "global" "default_region" None.

Definition get_default_solution_stack (fuel : nat) : file_prog pyval :=
  get_config_setting fuel "global" "default_platform" None.

Definition get_default_keyname (fuel : nat) : file_prog pyval :=
  get_config_setting fuel "global" "default_ec2_keyname" None.

Definition get_default_profile (fuel : nat) : file_prog pyval :=
  try_except (get_config_setting fuel "global" "profile" None)
    (fun x =>
       match x with
       | NotInitializedError _ => Ret VNone
       | _ => Raise x
       end).

Definition create_config_file (fuel : nat) (app_name region solution_stack : pyval)
    : file_prog unit :=
  let+ _ := call Getcwd in
  let+ isdir := call (Isdir beanstalk_directory) in
  let+ _ := if negb isdir then call (Makedirs beanstalk_directory) else Ret tt in
  let+ _ := write_config_setting fuel "global" "application_name" app_name in
  let+ _ := write_config_setting fuel "global" "default_region" region in
  write_config_setting fuel "global" "default_platform" solution_stack.

Definition get_editor (fuel : nat) : file_prog pyval :=
  let+ editor := get_config_setting fuel "global" "editor" None in
  let+ editor :=
    if negb (py_truthy editor)
    then let+ value := call (Getenv "EDITOR") in
         Ret (match value with Some s => VStr s | None => VNone end)
    else Ret editor in
  if negb (py_truthy editor)
  then if windows then Ret VNone else Ret (VStr "nano")
  else Ret editor.

Definition get_environment_from_file (fuel : nat) (env_name : string) : file_prog pyval :=
  let+ cwd := call Getcwd in
  let file_name := beanstalk_directory +:+ env_name in
  let+ env :=
    try_finally
      (try_except
         (let+ _ := _traverse_to_project_root fuel in
          let path := file_name +:+ ".env.yml" in
          let+ present := call (Exists path) in
          if present
          then let+ env := call (LoadYaml path) in Ret (Some env)
          else Ret None)
         (fun x =>
            match x with
            | ScannerError _ | ParserError _ =>
                Raise (InvalidSyntaxError
                         "The environment file contains invalid syntax.")
            | _ => Raise x
            end))
      (call (Chdir cwd)) in
  match env with
  | Some env => Ret env
  | None => Raise (Builtin (UnboundLocalError "env"))
  end.

Definition file_exists (full_path : string) : file_prog bool :=
  call (Isfile full_path).








End Fileoperations.

End Fileoperations.

(** ** ebcli/lib/ec2.py *)

Module Ec2.
Import Eb.

Inductive external : Type :=
| MakeApiCall (service operation_name : string) (operation_options : list (string * pyval)).

Definition R (c : external) : Type := pyval.

Abbreviation ec2_prog := (prog unit external R).
Abbreviation call c := (Eb.call (S := unit) (R := R) c).

(** [s.endswith(suffix)] *)
Definition endswith (s suffix : string) : bool :=
  (String.length suffix <=? String.length s)%nat &&
  String.eqb
    (String.substring (String.length s - String.length suffix) (String.length suffix) s)
    suffix.

(** [v == s] for a string [s] *)
Definition is_str (s : string) (v : pyval) : bool :=
  match v with
  | VStr s' => String.eqb s' s
  | _ => false
  end.

(** [v[0]]; a dict with string keys has no key [0]. *)
Definition first_item (v : pyval) : error + pyval :=
  match v with
  | VList (x :: _) => inr x
  | VList [] => inl IndexError
  | VStr (String a _) => inr (VStr (String a EmptyString))
  | VStr EmptyString => inl IndexError
  | VDict _ => inl (Builtin (KeyError "0"))
  | _ => inl (Builtin (TypeError "object is not subscriptable"))
  end.

Definition lift_error {A : Type} (r : error + A) : ec2_prog A :=
  match r with
  | inl x => Raise x
  | inr a => Ret a
  end.

(** [_make_api_call(operation_name, **operation_options)] *)
Definition _make_api_call (operation_name : string)
    (operation_options : list (string * pyval)) : ec2_prog pyval :=
  call (MakeApiCall "ec2" operation_name operation_options).

Definition get_key_pairs : ec2_prog pyval :=
  let+ result := _make_api_call "describe_key_pairs" [] in
  lift (py_getitem result "KeyPairs").

(** An exception of class [ServiceError] is [ServiceError message code]. *)
Definition import_key_pair (keyname key_material : pyval) : ec2_prog pyval :=
  try_except
    (_make_api_call "import_key_pair"
       [("KeyName", keyname); ("PublicKeyMaterial", key_material)])
    (fun e =>
       match e with
       | ServiceError message _ =>
           if endswith message "already exists."
           then Raise (AlreadyExistsError message)
           else Raise e
       | _ => Raise e
       end).

(** [describe_instance(instance_id)], for an instance id that is a string. *)
Definition describe_instance (instance_id : string) : ec2_prog pyval :=
  let+ result :=
    _make_api_call "describe_instances" [("InstanceIds", VList [VStr instance_id])] in
  try_except
    (let+ reservations := lift (py_getitem result "Reservations") in
     let+ reservation := lift_error (first_item reservations) in
     let+ instances := lift (py_getitem reservation "Instances") in
     lift_error (first_item instances))
    (fun e =>
       match e with
       | IndexError =>
           Raise (NotFoundError ("Instance " +:+ instance_id +:+ " not found."))
       | _ => Raise e
       end).

Section Ec2.
(** Taken as given: the table [responses] of [ebcli/resources/strings.py],
    the order in which a dict hands out its keys, and [str.lower]. *)
Variables (responses : string -> string)
          (dict_keys : gmap string pyval -> list string)
          (lower : string -> string).

(** The loop of [has_default_vpc] over the account attributes. *)
Fixpoint default_vpc_loop (attributes : list pyval) (default_vpc : pyval)
    : ec2_prog pyval :=
  match attributes with
  | [] => Ret default_vpc
  | attribute :: attributes =>
      let+ attribute_name := lift (py_getitem attribute "AttributeName") in
      let+ default_vpc :=
        if is_str "default-vpc" attribute_name
        then
          try_except
            (let+ values := lift (py_getitem attribute "AttributeValues") in
             let+ value := lift_error (first_item values) in
             lift (py_getitem value "AttributeValue"))
            (fun e =>
               match e with
               | Builtin (KeyError _) | IndexError => Ret VNone
               | _ => Raise e
               end)
        else Ret default_vpc in
      default_vpc_loop attributes default_vpc
  end.

Definition has_default_vpc : ec2_prog bool :=
  let+ result :=
    _make_api_call "describe_account_attributes"
      [("AttributeNames", VList [VStr "default-vpc"])] in
  let+ account_attributes := lift (py_getitem result "AccountAttributes") in
  let+ attributes := lift (Compose.py_iter dict_keys account_attributes) in
  let+ default_vpc := default_vpc_loop attributes VNone in
  if py_truthy default_vpc
  then match default_vpc with
       | VStr s => Ret (negb (String.eqb (lower s) "none"))
       | _ => Raise (Builtin (AttributeError "object has no attribute 'lower'"))
       end
  else Ret false.

Definition ssh_rule (security_group_id : pyval) : list (string * pyval) :=
  [("GroupId", security_group_id); ("IpProtocol", VStr "tcp");
   ("ToPort", VInt 22); ("FromPort", VInt 22); ("CidrIp", VStr "0.0.0.0/0")].

Definition revoke_ssh (security_group_id : pyval) : ec2_prog unit :=
  try_except
    (let+ _ := _make_api_call "revoke_security_group_ingress"
                 (ssh_rule security_group_id) in
     Ret tt)
    (fun e =>
       match e with
       | ServiceError message _ =>
           if startswith message (responses "ec2.sshalreadyopen")
           then Ret tt
           else Raise e
       | _ => Raise e
       end).

Definition authorize_ssh (security_group_id : pyval) : ec2_prog unit :=
  try_except
    (let+ _ := _make_api_call "authorize_security_group_ingress"
                 (ssh_rule security_group_id) in
     Ret tt)
    (fun e =>
       match e with
       | ServiceError _ code =>
           if String.eqb code "InvalidPermission.Duplicate"
           then Ret tt
           else Raise e
       | _ => Raise e
       end).

End Ec2.

End Ec2.

(** ** More of ebcli/operations/commonops.py *)

(** *** get_latest_solution_stack *)

Module SolutionStacks.
Import Eb.

(** What the code reads of a [SolutionStack]. *)
Record SolutionStack : Type := {
  name : string;
  platform : string;
  version : string;
  server : string
}.

Inductive external : Type :=
| GetAvailableSolutionStacks.

Definition R (c : external) : Type := list SolutionStack.

Abbreviation call c := (Eb.call (S := unit) (R := R) c).

(** The loop [if stack.server not in servers: servers.append(stack.server)] *)
Definition servers_of (solution_stacks : list SolutionStack) : list string :=
  foldl (fun servers stack =>
           if existsb (String.eqb (server stack)) servers
           then servers
           else (servers ++ [server stack])%list)
    [] solution_stacks.

Section SolutionStacks.
(** Taken as given: the table [strings] of [ebcli/resources/strings.py] and
    [str.replace]. *)
Variables (strings : string -> string)
          (replace : string -> string -> string -> string).

Definition get_latest_solution_stack (platform_version : string)
    (stack_list : option (list SolutionStack)) : prog unit external R SolutionStack :=
  let+ solution_stacks :=
    match stack_list with
    | Some (stack :: stacks) => Ret (stack :: stacks)
    | _ => call GetAvailableSolutionStacks
    end in
  let solution_stacks :=
    List.filter (fun x => String.eqb (version x) platform_version) solution_stacks in
  let servers := servers_of solution_stacks in
  match servers with
  | [] =>
      Raise (NotFoundError
               (replace (strings "sstacks.notaversion") "{version}" platform_version))
  | server0 :: _ =>
      let solution_stacks :=
        List.filter (fun x => String.eqb (server x) server0) solution_stacks in
      if negb (length solution_stacks =? 1)%nat
      then Raise (AssertionError
                    "Filtered Solution Stack list contains multiple results")
      else match solution_stacks with
           | stack :: _ => Ret stack
           | [] => Raise IndexError
           end
  end.

End SolutionStacks.

End SolutionStacks.

(** *** upload_keypair_if_needed *)

Module Keypairs.
Import Eb.

Inductive external : Type :=
| File (c : Fileoperations.external)
| Ec2Call (c : Ec2.external)
| ExecCmd (args : list string)
| GetDefaultRegion
| LogWarning (message : string).

(** [exec_cmd] gives the output, the error output and the return code;
    [aws.get_default_region()] a string or [None]. *)
Definition R (c : external) : Type :=
  match c with
  | File c => Fileoperations.R c
  | Ec2Call c => Ec2.R c
  | ExecCmd _ => (string * string * Z)%type
  | GetDefaultRegion => option string
  | LogWarning _ => unit
  end.

Abbreviation keys_prog := (prog unit external R).
Abbreviation call c := (Eb.call (S := unit) (R := R) c).

Definition of_file {A : Type} (p : Fileoperations.file_prog A) : keys_prog A :=
  embed (R' := R) File (fun _ a => a) p.

Definition of_ec2 {A : Type} (p : Ec2.ec2_prog A) : keys_prog A :=
  embed (R' := R) Ec2Call (fun _ a => a) p.

Section Keypairs.
(** Taken as given: [os.path.sep], the table [strings], [str.replace] and the
    order in which a dict hands out its keys. *)
Variables (sep : string) (strings : string -> string)
          (replace : string -> string -> string -> string)
          (dict_keys : gmap string pyval -> list string).

(** The key material is the output of [ssh-keygen]; the [CommandError] of the
    handler is built and dropped, so the function ends without a [return]
    and gives [None]. *)
Definition _get_public_ssh_key (keypair_name : string) : keys_prog pyval :=
  let+ folder := of_file (Fileoperations.get_ssh_folder sep) in
  let key_file := folder +:+ keypair_name in
  let+ present := call (File (Fileoperations.Exists key_file)) in
  let+ file_name :=
    if present then Ret key_file
    else
      let+ present := call (File (Fileoperations.Exists (key_file +:+ ".pem"))) in
      if present then Ret (key_file +:+ ".pem")
      else Raise (Builtin (NotSupportedError
                             (replace (strings "ssh.filenotfound") "{key-name}"
                                keypair_name))) in
  try_except
    (let+ (stdout, stderr, returncode) :=
       call (ExecCmd ["ssh-keygen"; "-y"; "-f"; file_name]) in
     if negb (returncode =? 0)%Z
     then Raise (CommandError
                   "An error occurred while trying to get ssh public key")
     else Ret (VStr stdout))
    (fun e =>
       match e with
       | OSError _ => Ret VNone
       | _ => Raise e
       end).

Definition upload_keypair_if_needed (keyname : string) : keys_prog unit :=
  let+ pairs := of_ec2 Ec2.get_key_pairs in
  let+ pairs := lift (Compose.py_iter dict_keys pairs) in
  let+ keys := lift (Compose.for_each (fun k => py_getitem k "KeyName") pairs) in
  if existsb (Ec2.is_str keyname) keys then Ret tt
  else
    let+ key_material := _get_public_ssh_key keyname in
    let+ imported :=
      try_except
        (let+ _ := of_ec2 (Ec2.import_key_pair (VStr keyname) key_material) in
         Ret true)
        (fun e =>
           match e with
           | AlreadyExistsError _ => Ret false
           | _ => Raise e
           end) in
    if imported
    then
      let+ region := call GetDefaultRegion in
      match region with
      | Some region =>
          call (LogWarning
                  (replace (replace (strings "ssh.uploaded") "{keyname}" keyname)
                     "{region}" region))
      | None => Raise (Builtin (TypeError "replace() argument 2 must be str, not None"))
      end
    else Ret tt.

End Keypairs.

End Keypairs.

(** *** _zip_up_project *)

Module Archive.
Import Eb.

Inductive external : Type :=
| File (c : Fileoperations.external)
| GetApplicationVersions (app_name : string)
| Echo (text : string).

Definition R (c : external) : Type :=
  match c with
  | File c => Fileoperations.R c
  | GetApplicationVersions _ => pyval
  | Echo _ => unit
  end.

Abbreviation zip_prog := (prog unit external R).
Abbreviation call c := (Eb.call (S := unit) (R := R) c).

Definition of_file {A : Type} (p : Fileoperations.file_prog A) : zip_prog A :=
  embed (R' := R) File (fun _ a => a) p.

Section Archive.
Variables (sep : string) (strings : string -> string)
          (replace : string -> string -> string -> string)
          (dict_keys : gmap string pyval -> list string).

Definition get_app_version_labels (app_name : string) : zip_prog (list pyval) :=
  let+ app_versions := call (GetApplicationVersions app_name) in
  let+ app_versions := lift (Compose.py_iter dict_keys app_versions) in
  lift (Compose.for_each (fun v => py_getitem v "VersionLabel") app_versions).

(** [_zip_up_project(app_name, version_label, source_control, staged)].
    Where the archive is to be created the code calls
    [fileoperations.get_ebignore_list()]; [fileoperations.py] defines no such
    function, so the attribute lookup raises and the zipping that follows is
    never reached. *)
Definition _zip_up_project (fuel : nat) (app_name version_label : string)
    : zip_prog (string * string) :=
  let file_name := version_label +:+ ".zip" in
  let+ file_path := of_file (Fileoperations.get_zip_location sep fuel file_name) in
  let+ present := of_file (Fileoperations.file_exists file_path) in
  let+ create :=
    if negb present
    then let+ labels := get_app_version_labels app_name in
         Ret (negb (existsb (Ec2.is_str version_label) labels))
    else Ret false in
  if create
  then
    let+ _ := call (Echo (replace (strings "appversion.create") "{version}"
                            version_label)) in
    Raise (Builtin (AttributeError
                      "module 'ebcli.core.fileoperations' has no attribute 'get_ebignore_list'"))
  else Ret (file_name, file_path).

End Archive.

End Archive.

(** *** Settings of the current branch *)

Module Branches.
Import Eb.

Inductive external : Type :=
| File (c : Fileoperations.external)
| GetSourceControl
| GetCurrentBranch (source_control : obj).

Definition R (c : external) : Type :=
  match c with
  | File c => Fileoperations.R c
  | GetSourceControl => obj
  | GetCurrentBranch _ => string
  end.

Abbreviation branch_prog := (prog unit external R).
Abbreviation call c := (Eb.call (S := unit) (R := R) c).

Definition of_file {A : Type} (p : Fileoperations.file_prog A) : branch_prog A :=
  embed (R' := R) File (fun _ a => a) p.

Section Branches.
Variable sep : string.

Definition write_setting_to_current_branch (fuel : nat) (keyname : string)
    (value : pyval) : branch_prog unit :=
  let+ source_control := call GetSourceControl in
  let+ branch_name := call (GetCurrentBranch source_control) in
  of_file (Fileoperations.write_config_setting sep fuel "branch-defaults" branch_name
             (VDict {[ keyname := value ]})).

Definition set_environment_for_current_branch (fuel : nat) (value : pyval)
    : branch_prog unit :=
  write_setting_to_current_branch fuel "environment" value.

Definition get_setting_from_current_branch (fuel : nat) (keyname : string)
    : branch_prog pyval :=
  let+ source_control := call GetSourceControl in
  let+ branch_name := call (GetCurrentBranch source_control) in
  let+ branch_dict :=
    of_file (Fileoperations.get_config_setting sep fuel "branch-defaults" branch_name
               None) in
  match branch_dict with
  | VNone => Ret VNone
  | _ =>
      try_except (lift (py_getitem branch_dict keyname))
        (fun e =>
           match e with
           | Builtin (KeyError _) => Ret VNone
           | _ => Raise e
           end)
  end.

Definition get_current_branch_environment (fuel : nat) : branch_prog pyval :=
  get_setting_from_current_branch fuel "environment".

(** [default] is [None] for [_marker]. *)
Definition get_config_setting_from_branch_or_default (fuel : nat) (key_name : string)
    (default : option pyval) : branch_prog pyval :=
  let+ setting := get_setting_from_current_branch fuel key_name in
  match setting with
  | VNone => of_file (Fileoperations.get_config_setting sep fuel "global" key_name default)
  | _ => Ret setting
  end.

Definition get_default_keyname (fuel : nat) : branch_prog pyval :=
  get_config_setting_from_branch_or_default fuel "default_ec2_keyname" None.

Definition get_default_profile (fuel : nat) : branch_prog pyval :=
  try_except (get_config_setting_from_branch_or_default fuel "profile" None)
    (fun e =>
       match e with
       | NotInitializedError _ => Ret VNone
       | _ => Raise e
       end).

Definition get_default_region (fuel : nat) : branch_prog pyval :=
  try_except (get_config_setting_from_branch_or_default fuel "default_region" None)
    (fun e =>
       match e with
       | NotInitializedError _ => Ret VNone
       | _ => Raise e
       end).

Definition get_default_solution_stack (fuel : nat) : branch_prog pyval :=
  get_config_setting_from_branch_or_default fuel "default_platform" None.

End Branches.

End Branches.

(** ** More of botocore/client.py *)

Module ClientNames.
Import Hooks Client.

(** The getter of the cached property [waiter_names]: the names [get_waiter]
    goes by, in the order of the model. *)
Definition waiter_names (loader : obj) (service_model : ServiceModel)
    (xform_name : string -> string) : client_prog (list string) :=
  let* config := _get_waiter_config loader service_model in
  if negb (py_truthy config) then Ret []
  else
    let* model := call (NewWaiterModel config) in
    Ret (xform_name <$> Client.waiter_names model).

End ClientNames.

(** * Facts *)

(** ** Running composed programs *)

Module PyFacts.

Section Run.
Context {S E : Type} {R : E -> Type} {W : Type}.
Variable h : env E R W.

(** How the rest of a program extends the run of its first part. *)
Definition and_then {A B : Type} (r : outcome A * S * W * list (entry E R))
    (k : A -> S -> W -> outcome B * S * W * list (entry E R))
    : outcome B * S * W * list (entry E R) :=
  match r with
  | (Returned a, s, w, t) =>
      let '(o, s', w', t') := k a s w in (o, s', w', (t ++ t')%list)
  | (Raised x, s, w, t) => (Raised x, s, w, t)
  | (OutOfFuel, s, w, t) => (OutOfFuel, s, w, t)
  end.

Lemma run_bind {A B : Type} (p : prog S E R A) (f : A -> prog S E R B) s w :
  run h (bind p f) s w = and_then (run h p s w) (fun a => run h (f a)).
Proof.
  revert s w. induction p as [a|x| |k IH|s0 k IH|c k IH]; intros s w; simpl.
  - destruct (run h (f a) s w) as [[[o s'] w'] t]. reflexivity.
  - reflexivity.
  - reflexivity.
  - apply IH.
  - apply IH.
  - destruct (h c w) as [r w1]. rewrite IH.
    destruct (run h (k r) s w1) as [[[o s1] w2] t].
    destruct o as [a|x|]; simpl; try reflexivity.
    destruct (run h (f a) s1 w2) as [[[o' s2] w3] t']. reflexivity.
Qed.

(** The run of [try: p finally: f]. *)
Definition finally_then {A : Type} (r : outcome A * S * W * list (entry E R))
    (f : prog S E R unit) : outcome A * S * W * list (entry E R) :=
  match r with
  | (OutOfFuel, s, w, t) => (OutOfFuel, s, w, t)
  | (o, s, w, t) =>
      match run h f s w with
      | (Returned _, s', w', t') => (o, s', w', (t ++ t')%list)
      | (Raised x, s', w', t') => (Raised x, s', w', (t ++ t')%list)
      | (OutOfFuel, s', w', t') => (OutOfFuel, s', w', (t ++ t')%list)
      end
  end.

Lemma run_try_finally {A : Type} (p : prog S E R A) (f : prog S E R unit) s w :
  run h (try_finally p f) s w = finally_then (run h p s w) f.
Proof.
  revert s w. induction p as [a|x| |k IH|s0 k IH|c k IH]; intros s w; simpl.
  - rewrite run_bind. destruct (run h f s w) as [[[o s'] w'] t].
    destruct o; simpl; rewrite ?app_nil_r; reflexivity.
  - rewrite run_bind. destruct (run h f s w) as [[[o s'] w'] t].
    destruct o; simpl; rewrite ?app_nil_r; reflexivity.
  - reflexivity.
  - apply IH.
  - apply IH.
  - destruct (h c w) as [r w1]. rewrite IH.
    destruct (run h (k r) s w1) as [[[o s1] w2] t].
    destruct o as [a|x|]; simpl; try reflexivity;
      destruct (run h f s1 w2) as [[[o' s2] w3] t']; destruct o'; reflexivity.
Qed.
End Run.

End PyFacts.

(** ** get_health_of_instances *)

Module ElbFacts.
Import Elb.

(** C9. When the describe-instance-health call raises a ServiceError whose
    message does not start with the load-balancer-not-found string, the
    except block neither re-raises nor converts it: the function makes that
    one call and then fails on the unbound local [result]; the ServiceError
    does not reach the caller. *)
Theorem get_health_of_instances_unbound_result :
  forall (W : Type) (h : env external R W) (w w' : W)
         (responses : string -> string) (load_balancer_name region : pyval)
         (message : string),
    let c := MakeApiCall "elb" "describe-instance-health"
               [("load_balancer_name", load_balancer_name); ("region", region)] in
    h c w = (inl (ServiceError message), w') ->
    startswith message (responses "loadbalancer.notfound") = false ->
    run h (get_health_of_instances responses load_balancer_name region) tt w
    = (Raised (UnboundLocalError "result"), tt, w',
       [existT c (inl (ServiceError message))]).
Proof.
  intros W h w w' responses lb region message c Hcall Hprefix.
  unfold get_health_of_instances, _make_api_call; simpl.
  fold c. rewrite Hcall. simpl. rewrite Hprefix. reflexivity.
Qed.

(** An environment in which the service answers every call with the same
    ServiceError. *)
Definition failing_service (message : string) : env external R unit :=
  fun _ w => (inl (ServiceError message), w).

Lemma get_health_of_instances_unbound_result_witness :
  run (failing_service "Throttling: Rate exceeded")
      (get_health_of_instances (fun _ => "There is no ACTIVE Load Balancer named")
         (VStr "awseb-e-x") VNone) tt tt
  = (Raised (UnboundLocalError "result"), tt, tt,
     [existT (MakeApiCall "elb" "describe-instance-health"
                [("load_balancer_name", VStr "awseb-e-x"); ("region", VNone)])
             (inl (ServiceError "Throttling: Rate exceeded"))]).
Proof.
  apply (get_health_of_instances_unbound_result unit
           (failing_service "Throttling: Rate exceeded") tt tt
           (fun _ => "There is no ACTIVE Load Balancer named")
           (VStr "awseb-e-x") VNone "Throttling: Rate exceeded");
    reflexivity.
Defined.

End ElbFacts.

(** ** Operation dispatch *)

Module DispatchFacts.
Import Hooks Client.

(** What the transport answered, read off a record of calls. *)
Definition transport_answers (t : list (entry external R)) : list (http_response * obj) :=
  omap (fun e : entry external R =>
          match e with
          | existT c r =>
              match c return exn + R c -> option (http_response * obj) with
              | MakeRequest _ _ _ =>
                  fun r => match r with inr a => Some a | inl _ => None end
              | _ => fun _ => None
              end r
          end) t.

(** Destructs what the environment answers to the next call. *)
Ltac next_answer h :=
  match goal with
  | |- context [h ?c ?w] =>
      let r := fresh "r" in
      let w' := fresh "w" in
      destruct (h c w) as [r w'] eqn:?; destruct r; simpl
  end.

(** C1. The dispatch function returns only what the transport answered with a
    status below 300; when the transport answers with a status of 300 or more
    it never returns, and it raises the ClientError made of the parsed
    response and the operation name; below 300 it returns the parsed response
    itself. *)
Theorem api_call_status_check :
  forall (S W : Type) (h : env external R W) (s s' : S) (w w' : W)
         (operation_name : string) (service_model : ServiceModel)
         (self : BaseClient) (kwargs : obj)
         (o : outcome obj) (t : list (entry external R)),
    run h (_api_call operation_name service_model self kwargs) s w = (o, s', w', t) ->
    (forall http parsed,
        In (http, parsed) (transport_answers t) -> (300 <= status_code http)%Z ->
        forall v, o <> Returned v)
    /\ (forall http parsed,
        transport_answers t = [(http, parsed)] -> raised t = [] ->
        ((300 <= status_code http)%Z -> o = Raised (ClientError parsed operation_name))
        /\ ((status_code http < 300)%Z -> o = Returned parsed))
    /\ (forall v, o = Returned v ->
        exists http, transport_answers t = [(http, v)] /\ (status_code http < 300)%Z).
Proof.
  intros S W h s s' w w' op sm self kwargs o t.
  unfold _api_call, emit, lift.
  destruct (operation_model sm op) as [x|om]; simpl.
  { intros [= <- <- <- <-]; simpl. repeat split; try easy. }
  destruct (events (meta self)) as [em|]; simpl.
  2:{ intros [= <- <- <- <-]; simpl. repeat split; try easy. }
  next_answer h.
  { intros [= <- <- <- <-]; simpl. repeat split; try easy. }
  next_answer h.
  { intros [= <- <- <- <-]; simpl. repeat split; try easy. }
  next_answer h.
  { intros [= <- <- <- <-]; simpl. repeat split; try easy. }
  destruct (h (MakeRequest _ _ _) _) as [[x|[http parsed]] w4] eqn:?; simpl.
  { intros [= <- <- <- <-]; simpl. repeat split; try easy. }
  next_answer h.
  { intros [= <- <- <- <-]; simpl.
    split; [intros ? ? _ _ v; discriminate|].
    split; [intros ? ? _ Hr; discriminate|].
    intros v; discriminate. }
  destruct (status_code http >=? 300)%Z eqn:Hst; simpl;
    intros [= <- <- <- <-]; simpl.
  - apply Z.geb_le in Hst.
    split; [intros ? ? _ _ v; discriminate|].
    split; [|intros v; discriminate].
    intros http' parsed' [= <- <-] _. split; [reflexivity|lia].
  - assert (status_code http < 300)%Z.
    { destruct (Z.geb_spec (status_code http) 300); [discriminate|lia]. }
    split; [intros http' parsed' [[= <- <-]|[]] Hge; lia|].
    split.
    + intros http' parsed' [= <- <-] _. split; [lia|reflexivity].
    + intros v [= <-]. exists http. split; [reflexivity|assumption].
Qed.

(** A service with one operation, a client of it, and collaborators that
    answer every call, the transport with the given status. *)
Definition widgets_model : ServiceModel :=
  {| service_name := "widgets";
     api_version := "2014-01-01";
     endpoint_prefix := "wdg";
     signing_name := "widgets";
     signature_version := VStr "v4";
     metadata := {[ "protocol" := VStr "query" ]};
     operation_names := ["DescribeWidgets"];
     operation_model := fun name =>
       if String.eqb name "DescribeWidgets" then inr 20%positive
       else inl (KeyError name) |}.

Definition widgets_client : BaseClient :=
  {| _serializer := 11%positive;
     _endpoint := 12%positive;
     _response_parser := 13%positive;
     _request_signer := 14%positive;
     _cache := ∅;
     meta := {| events := Some 1%positive |} |}.

Definition answering (status : Z) : env external R unit :=
  fun c w =>
    (match c return exn + R c with
     | LoadServiceModel _ _ => inr VNone
     | NewServiceModel _ _ => inr widgets_model
     | LoadData _ path => inl (DataNotFoundError path)
     | BuildRetryConfig _ _ _ _ => inr 30%positive
     | CreateRetryHandler _ _ _ => inr 31%positive
     | ConstructEndpoint _ _ _ _ => inr (VDict ∅)
     | CreateSerializer _ _ => inr 11%positive
     | NewEndpointCreator _ _ _ _ => inr 32%positive
     | CreateEndpoint _ _ region _ _ _ _ =>
         inr {| endpoint_obj := 12%positive; endpoint_region_name := region |}
     | CreateParser _ => inr 13%positive
     | NewRequestSigner _ _ _ _ _ _ => inr 14%positive
     | Emit _ _ _ => inr tt
     | SerializeToRequest _ _ _ => inr 21%positive
     | MakeRequest _ _ _ =>
         inr ({| http_obj := 22%positive; status_code := status |}, 23%positive)
     | NewWaiterModel _ => inr {| waiter_model_obj := 33%positive; waiter_names := [] |}
     | CreateWaiterWithClient _ _ _ => inr 34%positive
     end, w).

Lemma api_call_status_check_witness :
  fst (fst (fst (run (answering 503)
                   (_api_call "DescribeWidgets" widgets_model widgets_client 5%positive)
                   tt tt)))
  = Raised (ClientError 23%positive "DescribeWidgets").
Proof.
  edestruct (api_call_status_check unit unit (answering 503) tt tt tt tt
               "DescribeWidgets" widgets_model widgets_client 5%positive)
    as (_ & H & _); [reflexivity|].
  apply (H {| http_obj := 22%positive; status_code := 503 |} 23%positive);
    [reflexivity | reflexivity | simpl; lia].
Defined.

(** What the serializer answered, read off a record of calls. *)
Definition serializer_answers (t : list (entry external R)) : list obj :=
  omap (fun e : entry external R =>
          match e with
          | existT c r =>
              match c return exn + R c -> option obj with
              | SerializeToRequest _ _ _ =>
                  fun r => match r with inr a => Some a | inl _ => None end
              | _ => fun _ => None
              end r
          end) t.

(** The calls of one operation call, in order, given what the serializer and
    the transport answer. *)
Definition lifecycle (operation_name : string) (service_model : ServiceModel)
    (self : BaseClient) (em : loc) (kwargs operation_model request_dict : obj)
    (http : http_response) (parsed : obj) : list external :=
  let name stage :=
    stage +:+ "." +:+ endpoint_prefix service_model +:+ "." +:+ operation_name in
  [ Emit em (name "before-parameter-build")
      [("params", kwargs); ("model", operation_model)];
    SerializeToRequest (_serializer self) kwargs operation_model;
    Emit em (name "before-call")
      [("model", operation_model); ("params", request_dict);
       ("request_signer", _request_signer self)];
    MakeRequest (_endpoint self) operation_model request_dict;
    Emit em (name "after-call")
      [("http_response", http_obj http); ("parsed", parsed);
       ("model", operation_model)] ].

(** C2. The calls of an operation call are, in this order: the
    before-parameter-build event with the caller's parameters and the
    operation model, the serialization, the before-call event with the request
    dict and the signer, the request over the endpoint, the after-call event
    with the http response and the parsed result; the status check comes
    last.  Whatever the collaborators answer, the calls made are an initial
    part of this sequence; when none of them raises they are the whole of it,
    and the outcome is the status check's. *)
Theorem api_call_lifecycle :
  forall (S W : Type) (h : env external R W) (s s' : S) (w w' : W)
         (operation_name : string) (service_model : ServiceModel)
         (self : BaseClient) (kwargs : obj) (em : loc) (om : obj)
         (o : outcome obj) (t : list (entry external R)),
    operation_model service_model operation_name = inr om ->
    events (meta self) = Some em ->
    run h (_api_call operation_name service_model self kwargs) s w = (o, s', w', t) ->
    exists request_dict http parsed,
      calls t `prefix_of`
        lifecycle operation_name service_model self em kwargs om request_dict http parsed
      /\ (raised t = [] ->
          calls t
          = lifecycle operation_name service_model self em kwargs om request_dict http parsed
          /\ serializer_answers t = [request_dict]
          /\ transport_answers t = [(http, parsed)]
          /\ o = if (300 <=? status_code http)%Z
                 then Raised (ClientError parsed operation_name)
                 else Returned parsed).
Proof.
  intros S W h s s' w w' op sm self kwargs em om o t Hom Hem.
  unfold _api_call, emit, lift. rewrite Hom, Hem. simpl.
  pose (http0 := {| http_obj := 1%positive; status_code := 0 |}).
  destruct (h (Emit _ _ _) _) as [[x|[]] w1] eqn:?; simpl.
  { intros [= <- <- <- <-]. exists 1%positive, http0, 1%positive.
    split; [eexists; reflexivity | discriminate]. }
  destruct (h (SerializeToRequest _ _ _) _) as [[x|request_dict] w2] eqn:?; simpl.
  { intros [= <- <- <- <-]. exists 1%positive, http0, 1%positive.
    split; [eexists; reflexivity | discriminate]. }
  destruct (h (Emit _ _ _) w2) as [[x|[]] w3] eqn:?; simpl.
  { intros [= <- <- <- <-]. exists request_dict, http0, 1%positive.
    split; [eexists; reflexivity | discriminate]. }
  destruct (h (MakeRequest _ _ _) _) as [[x|[http parsed]] w4] eqn:?; simpl.
  { intros [= <- <- <- <-]. exists request_dict, http0, 1%positive.
    split; [eexists; reflexivity | discriminate]. }
  destruct (h (Emit _ _ _) w4) as [[x|[]] w5] eqn:?; simpl.
  { intros [= <- <- <- <-]. exists request_dict, http, parsed.
    split; [eexists; reflexivity | discriminate]. }
  replace (status_code http >=? 300)%Z with (300 <=? status_code http)%Z
    by (rewrite Z.geb_leb; reflexivity).
  destruct (300 <=? status_code http)%Z eqn:Hst; simpl;
    intros [= <- <- <- <-]; exists request_dict, http, parsed;
    (split; [exists []; reflexivity | intros _; rewrite ?Hst; repeat split]).
Qed.

Lemma api_call_lifecycle_witness :
  calls (snd (run (answering 200)
                (_api_call "DescribeWidgets" widgets_model widgets_client 5%positive)
                tt tt))
  = [ Emit 1%positive "before-parameter-build.wdg.DescribeWidgets"
        [("params", 5%positive); ("model", 20%positive)];
      SerializeToRequest 11%positive 5%positive 20%positive;
      Emit 1%positive "before-call.wdg.DescribeWidgets"
        [("model", 20%positive); ("params", 21%positive);
         ("request_signer", 14%positive)];
      MakeRequest 12%positive 20%positive 21%positive;
      Emit 1%positive "after-call.wdg.DescribeWidgets"
        [("http_response", 22%positive); ("parsed", 23%positive);
         ("model", 20%positive)] ].
Proof.
  destruct (api_call_lifecycle unit unit (answering 200) tt tt tt tt
              "DescribeWidgets" widgets_model widgets_client 5%positive
              1%positive 20%positive _ _ eq_refl eq_refl eq_refl)
    as (request_dict & http & parsed & _ & H).
  destruct (H eq_refl) as (Hcalls & [= <-] & [= <- <-] & _).
  exact Hcalls.
Defined.

End DispatchFacts.

(** ** wait_for_success_events *)

Module CommonopsFacts.
Import Commonops PyFacts.

(** A service that never has an event for the request, under a clock that
    only sleeping advances (the world is the time, in microseconds). *)
Definition silent_service : env external R Z :=
  fun c clock =>
    match c return (exn + R c) * Z with
    | Now => (inr clock, clock)
    | Sleep seconds => (inr tt, clock + timedelta_seconds seconds)
    | GetEventStreamer => (inr 1%positive, clock)
    | AppendPrompt _ _ => (inr tt, clock)
    | GetNewEvents _ _ _ _ => (inr [], clock)
    | StreamEvent _ _ => (inr tt, clock)
    | EndStream _ => (inr tt, clock)
    end.

Definition is_now (c : external) : bool :=
  match c with
  | Now => true
  | _ => false
  end.

Section FirstLoop.
Variables (responses prompts : string -> string) (request_id : option string)
          (sleep_time : Z) (stream_events : bool) (streamer : obj).

(** The first loop against the silent service: every turn asks for events
    and sleeps, and no turn reads the clock. *)
Lemma first_events_silent (fuel : nat) (clock : Z) :
  exists t,
    run silent_service
      (first_events responses prompts request_id sleep_time stream_events
         streamer fuel) tt clock
    = (OutOfFuel, tt, clock + Z.of_nat fuel * timedelta_seconds sleep_time, t)
    /\ List.filter is_now (calls t) = [].
Proof.
  revert clock. induction fuel as [|fuel IH]; intros clock.
  - exists []. split; [|reflexivity]. simpl. do 3 f_equal.
    rewrite Z.mul_0_l, Z.add_0_r. reflexivity.
  - destruct (IH (clock + timedelta_seconds sleep_time)) as (t & Hrun & Hnow).
    exists (existT (GetNewEvents None None request_id None) (inr [])
            :: existT (Sleep sleep_time) (inr tt) :: t).
    cbn [first_events]. simpl. rewrite Hrun. split; [|exact Hnow].
    replace (clock + Z.of_nat (S fuel) * timedelta_seconds sleep_time)
      with (clock + timedelta_seconds sleep_time
            + Z.of_nat fuel * timedelta_seconds sleep_time); [reflexivity|].
    rewrite Nat2Z.inj_succ, Z.mul_succ_l. lia.
Qed.
End FirstLoop.

(** C8 (where the code departs from it).  Against a service that never has an
    event for the request, the function neither returns nor raises, however
    many turns its loop is given: the time spent sleeping grows past any
    deadline, and the clock is read once, for [start], and never again. *)
Theorem wait_for_success_events_never_times_out_without_events :
  forall (responses strings prompts : string -> string) (fuel : nat)
         (request_id : option string) (timeout_in_minutes : option Z)
         (sleep_time : Z) (stream_events can_abort : bool) (clock : Z),
    timeout_in_minutes <> Some 0%Z ->
    exists t,
      run silent_service
        (wait_for_success_events responses strings prompts fuel request_id
           timeout_in_minutes sleep_time stream_events can_abort) tt clock
      = (OutOfFuel, tt, clock + Z.of_nat fuel * timedelta_seconds sleep_time, t)
      /\ List.filter is_now (calls t) = [Now].
Proof.
  intros responses strings prompts fuel rid timeout sleep stream abort clock Hnz.
  unfold wait_for_success_events.
  rewrite bool_decide_eq_false_2 by assumption.
  destruct (first_events_silent responses prompts rid sleep stream 1%positive
              fuel clock) as (t & Hrun & Hnow).
  destruct abort; simpl; rewrite run_bind, run_try_finally, run_bind, Hrun; simpl;
    eexists; (split; [reflexivity | simpl; rewrite Hnow; reflexivity]).
Qed.

Lemma wait_for_success_events_never_times_out_without_events_witness :
  exists t,
    run silent_service
      (wait_for_success_events (fun k => k) (fun k => k) (fun k => k) 1000
         (Some "req-1") (Some 1%Z) 5 true true) tt 0
    = (OutOfFuel, tt, 0 + Z.of_nat 1000 * timedelta_seconds 5, t)
    /\ List.filter is_now (calls t) = [Now].
Proof.
  apply (wait_for_success_events_never_times_out_without_events
           (fun k => k) (fun k => k) (fun k => k) 1000 (Some "req-1")
           (Some 1%Z) 5 true true 0).
  discriminate.
Defined.

End CommonopsFacts.

(** ** Pagination *)

Module PaginationFacts.
Import Hooks Client PyFacts.

Section Pagination.
Context {W : Type}.
Variables (h : env external R W) (loader : obj) (service_model : ServiceModel)
          (name_mapping : gmap string string).

(** With the page config in the cache, nothing is loaded. *)
Lemma can_paginate_cached (self : BaseClient) (w : W) (operation_name actual : string)
    (page_config : gmap string pyval) :
  name_mapping !! operation_name = Some actual ->
  _cache self !! "page_config" = Some (VDict page_config) ->
  run h (can_paginate loader service_model name_mapping operation_name) self w
  = (Returned (bool_decide (is_Some (page_config !! actual))), self, w, []).
Proof.
  intros Hname Hcache. unfold can_paginate, dict_getitem. simpl.
  rewrite Hcache. simpl. rewrite Hname. simpl. rewrite Hcache. reflexivity.
Qed.

(** First use, the paginators file exists. *)
Lemma can_paginate_first_use (self : BaseClient) (w w' : W)
    (operation_name actual : string) (data page_config : gmap string pyval) :
  name_mapping !! operation_name = Some actual ->
  _cache self !! "page_config" = None ->
  h (LoadData loader (paginators_path service_model)) w = (inr (VDict data), w') ->
  data !! "pagination" = Some (VDict page_config) ->
  run h (can_paginate loader service_model name_mapping operation_name) self w
  = (Returned (bool_decide (is_Some (page_config !! actual))),
     set_cache "page_config" (VDict page_config) self, w',
     [existT (LoadData loader (paginators_path service_model)) (inr (VDict data))]).
Proof.
  intros Hname Hcache Hload Hdata. unfold can_paginate, dict_getitem. simpl.
  rewrite Hcache. simpl. rewrite Hload. simpl. rewrite Hdata. simpl.
  rewrite Hname. simpl. rewrite lookup_insert_eq. reflexivity.
Qed.

(** First use, no paginators file. *)
Lemma can_paginate_no_file (self : BaseClient) (w w' : W)
    (operation_name actual path : string) :
  name_mapping !! operation_name = Some actual ->
  _cache self !! "page_config" = None ->
  h (LoadData loader (paginators_path service_model)) w
  = (inl (DataNotFoundError path), w') ->
  run h (can_paginate loader service_model name_mapping operation_name) self w
  = (Returned false, set_cache "page_config" (VDict ∅) self, w',
     [existT (LoadData loader (paginators_path service_model))
        (inl (DataNotFoundError path))]).
Proof.
  intros Hname Hcache Hload. unfold can_paginate, dict_getitem. simpl.
  rewrite Hcache. simpl. rewrite Hload. simpl.
  rewrite Hname. simpl. rewrite lookup_insert_eq. reflexivity.
Qed.

(** What [get_paginator] does after [can_paginate] has answered. *)
Definition paginator_for (operation_name actual : string)
    (page_config : gmap string pyval) : outcome Paginator :=
  match page_config !! actual with
  | Some cfg => Returned {| _method := operation_name; _pagination_cfg := cfg |}
  | None => Raised (OperationNotPageableError operation_name)
  end.

Lemma get_paginator_after (self self' : BaseClient) (w w' : W)
    (operation_name actual : string) (page_config : gmap string pyval) t :
  name_mapping !! operation_name = Some actual ->
  _cache self' !! "page_config" = Some (VDict page_config) ->
  run h (can_paginate loader service_model name_mapping operation_name) self w
  = (Returned (bool_decide (is_Some (page_config !! actual))), self', w', t) ->
  run h (get_paginator loader service_model name_mapping operation_name) self w
  = (paginator_for operation_name actual page_config, self', w', t).
Proof.
  intros Hname Hcache Hcan. unfold get_paginator, paginator_for.
  rewrite run_bind, Hcan. simpl.
  destruct (page_config !! actual) as [cfg|] eqn:Hcfg; simpl.
  - unfold dict_getitem. rewrite Hname. simpl. rewrite Hcache. simpl.
    rewrite Hcfg. simpl. rewrite app_nil_r. reflexivity.
  - rewrite app_nil_r. reflexivity.
Qed.
End Pagination.

(** C3. For a client and the name of one of its operations: [can_paginate]
    returns true iff the page config has an entry for the operation, where
    the page config is the cached one, or on first use the ['pagination'] part
    of the paginators file, which is then cached, or the empty mapping, cached
    as such, when there is no paginators file; [get_paginator] raises
    OperationNotPageableError exactly when [can_paginate] is false and
    otherwise returns the paginator of the method with the operation's entry
    of the page config. *)
Theorem can_paginate_iff_page_config_entry :
  forall (W : Type) (h : env external R W) (loader : obj)
         (service_model : ServiceModel) (name_mapping : gmap string string)
         (self : BaseClient) (w : W) (operation_name actual : string),
    name_mapping !! operation_name = Some actual ->
    let load := LoadData loader (paginators_path service_model) in
    let can := can_paginate loader service_model name_mapping operation_name in
    let getp := get_paginator loader service_model name_mapping operation_name in
    (forall page_config : gmap string pyval,
        _cache self !! "page_config" = Some (VDict page_config) ->
        run h can self w
        = (Returned (bool_decide (is_Some (page_config !! actual))), self, w, [])
        /\ run h getp self w
           = (paginator_for operation_name actual page_config, self, w, []))
    /\ (forall (data page_config : gmap string pyval) (w' : W),
        _cache self !! "page_config" = None ->
        h load w = (inr (VDict data), w') ->
        data !! "pagination" = Some (VDict page_config) ->
        let self' := set_cache "page_config" (VDict page_config) self in
        run h can self w
        = (Returned (bool_decide (is_Some (page_config !! actual))), self', w',
           [existT load (inr (VDict data))])
        /\ run h getp self w
           = (paginator_for operation_name actual page_config, self', w',
              [existT load (inr (VDict data))]))
    /\ (forall (path : string) (w' : W),
        _cache self !! "page_config" = None ->
        h load w = (inl (DataNotFoundError path), w') ->
        let self' := set_cache "page_config" (VDict ∅) self in
        run h can self w
        = (Returned false, self', w', [existT load (inl (DataNotFoundError path))])
        /\ run h getp self w
           = (Raised (OperationNotPageableError operation_name), self', w',
              [existT load (inl (DataNotFoundError path))])).
Proof.
  intros W h loader sm name_mapping self w op actual Hname load can getp.
  subst load can getp. repeat split.
  - apply can_paginate_cached; assumption.
  - apply get_paginator_after; [assumption..|].
    apply can_paginate_cached; assumption.
  - apply can_paginate_first_use; assumption.
  - apply get_paginator_after; [assumption|apply lookup_insert_eq|].
    apply can_paginate_first_use; assumption.
  - eapply can_paginate_no_file; eassumption.
  - rewrite (get_paginator_after h loader sm name_mapping self
               (set_cache "page_config" (VDict ∅) self) w w' op actual ∅
               [existT (LoadData loader (paginators_path sm))
                  (inl (DataNotFoundError path))]).
    + reflexivity.
    + assumption.
    + apply lookup_insert_eq.
    + rewrite lookup_empty. eapply can_paginate_no_file; eassumption.
Qed.

(** A loader whose paginators file makes DescribeWidgets pageable. *)
Definition widgets_page_entry : pyval :=
  VDict {[ "input_token" := VStr "NextToken"; "output_token" := VStr "NextToken";
           "result_key" := VStr "Widgets" ]}.

Definition widgets_paginators : gmap string pyval :=
  {[ "pagination" := VDict {[ "DescribeWidgets" := widgets_page_entry ]} ]}.

Definition with_paginators : env external R unit :=
  fun c w =>
    match c return (exn + R c) * unit with
    | LoadData _ _ => (inr (VDict widgets_paginators), w)
    | c => DispatchFacts.answering 200 c w
    end.

Lemma can_paginate_iff_page_config_entry_witness :
  run with_paginators
    (get_paginator 40%positive DispatchFacts.widgets_model
       {[ "describe_widgets" := "DescribeWidgets" ]} "describe_widgets")
    DispatchFacts.widgets_client tt
  = (Returned {| _method := "describe_widgets"; _pagination_cfg := widgets_page_entry |},
     set_cache "page_config" (VDict {[ "DescribeWidgets" := widgets_page_entry ]})
       DispatchFacts.widgets_client,
     tt,
     [existT (LoadData 40%positive (paginators_path DispatchFacts.widgets_model))
        (inr (VDict widgets_paginators))]).
Proof.
  destruct (can_paginate_iff_page_config_entry unit with_paginators 40%positive
              DispatchFacts.widgets_model {[ "describe_widgets" := "DescribeWidgets" ]}
              DispatchFacts.widgets_client tt "describe_widgets" "DescribeWidgets")
    as (_ & H & _); [apply lookup_singleton_eq|].
  destruct (H widgets_paginators {[ "DescribeWidgets" := widgets_page_entry ]} tt)
    as [_ Hget]; [apply lookup_empty | reflexivity | apply lookup_singleton_eq |].
  rewrite Hget. unfold paginator_for. rewrite lookup_singleton_eq. reflexivity.
Defined.

End PaginationFacts.

(** ** Waiters *)

Module WaiterFacts.
Import Hooks Client PyFacts.

(** The mapping built by the loop over the waiter names. *)
Lemma name_loop_lookup (f : string -> string) (names : list string)
    (m : gmap string string) (k a : string) :
  foldl (fun mapping name => <[f name := name]> mapping) m names !! k = Some a ->
  (a ∈ names /\ f a = k) \/ m !! k = Some a.
Proof.
  revert m. induction names as [|n names IH]; intros m; simpl.
  - intros H. right. exact H.
  - intros H. destruct (IH _ H) as [[Hin Hf]|Hm].
    + left. split; [right; exact Hin | exact Hf].
    + destruct (decide (f n = k)) as [Heq|Hne].
      * rewrite Heq, lookup_insert_eq in Hm. injection Hm as <-.
        left. split; [left | exact Heq].
      * rewrite lookup_insert_ne in Hm by exact Hne. right. exact Hm.
Qed.

Lemma name_loop_is_Some (f : string -> string) (names : list string)
    (m : gmap string string) (k : string) :
  is_Some (foldl (fun mapping name => <[f name := name]> mapping) m names !! k)
  <-> k ∈ f <$> names \/ is_Some (m !! k).
Proof.
  revert m. induction names as [|n names IH]; intros m.
  - simpl. split; [intros H; right; exact H | intros [H|H]; [inversion H | exact H]].
  - cbn [foldl]. rewrite IH, fmap_cons, elem_of_cons. split.
    + intros [H|H]; [left; right; exact H|].
      destruct (decide (f n = k)) as [Heq|Hne].
      * left. left. symmetry. exact Heq.
      * rewrite lookup_insert_ne in H by exact Hne. right. exact H.
    + intros [[->|H]|H].
      * right. rewrite lookup_insert_eq. eexists. reflexivity.
      * left. exact H.
      * right. destruct (decide (f n = k)) as [Heq|Hne].
        -- rewrite Heq, lookup_insert_eq. eexists. reflexivity.
        -- rewrite lookup_insert_ne by exact Hne. exact H.
Qed.

Section Waiters.
Context {W : Type}.
Variables (h : env external R W) (loader : obj) (service_model : ServiceModel)
          (xform_name : string -> string).

Lemma waiter_mapping_lookup (model : WaiterModel) (k a : string) :
  waiter_mapping xform_name model !! k = Some a ->
  a ∈ waiter_names model /\ xform_name a = k.
Proof.
  intros H. apply name_loop_lookup in H as [H|H]; [exact H|].
  rewrite lookup_empty in H. discriminate.
Qed.

Lemma waiter_mapping_is_Some (model : WaiterModel) (k : string) :
  is_Some (waiter_mapping xform_name model !! k)
  <-> k ∈ xform_name <$> waiter_names model.
Proof.
  unfold waiter_mapping. rewrite name_loop_is_Some, lookup_empty. split.
  - intros [H|[x H]]; [exact H | discriminate].
  - intros H. left. exact H.
Qed.
End Waiters.

(** C7. The waiter config is loaded on first use and cached, as the empty
    mapping when there is no waiters file.  [get_waiter] raises ValueError
    when that config is empty, and when the name is not the normalized form
    ([xform_name]) of a waiter name of the config's model; when it is, the
    result is the waiter that [create_waiter_with_client] builds for a waiter
    name of the model whose normalized form is the name, the model and the
    client. *)
Theorem get_waiter_by_normalized_name :
  forall (W : Type) (h : env external R W) (loader : obj)
         (service_model : ServiceModel) (xform_name : string -> string)
         (self : BaseClient) (w : W) (waiter_name : string),
    let load := LoadData loader (waiters_path service_model) in
    let getc := _get_waiter_config loader service_model in
    let getw := get_waiter loader service_model xform_name waiter_name in
    let missing := ValueError ("Waiter does not exist: " +:+ waiter_name) in
    ((forall config, _cache self !! "waiter_config" = Some config ->
        run h getc self w = (Returned config, self, w, []))
     /\ (forall config w', _cache self !! "waiter_config" = None ->
        h load w = (inr config, w') ->
        run h getc self w
        = (Returned config, set_cache "waiter_config" config self, w',
           [existT load (inr config)]))
     /\ (forall path w', _cache self !! "waiter_config" = None ->
        h load w = (inl (DataNotFoundError path), w') ->
        run h getc self w
        = (Returned (VDict ∅), set_cache "waiter_config" (VDict ∅) self, w',
           [existT load (inl (DataNotFoundError path))])))
    /\ (forall config self1 w1 t1,
        run h getc self w = (Returned config, self1, w1, t1) ->
        (py_truthy config = false ->
         run h getw self w = (Raised missing, self1, w1, t1))
        /\ (forall model w2,
            py_truthy config = true ->
            h (NewWaiterModel config) w1 = (inr model, w2) ->
            let built := existT (NewWaiterModel config) (inr model) in
            (waiter_name ∉ xform_name <$> waiter_names model ->
             run h getw self w = (Raised missing, self1, w2, (t1 ++ [built])%list))
            /\ (waiter_name ∈ xform_name <$> waiter_names model ->
                exists actual,
                  actual ∈ waiter_names model
                  /\ xform_name actual = waiter_name
                  /\ forall r w3,
                      let create := CreateWaiterWithClient actual model self1 in
                      h create w2 = (r, w3) ->
                      run h getw self w
                      = (match r with inr waiter => Returned waiter | inl x => Raised x end,
                         self1, w3, (t1 ++ [built; existT create r])%list)))).
Proof.
  intros W h loader sm xform_name self w name load getc getw missing.
  split; [repeat split|].
  - intros config Hc. subst getc. unfold _get_waiter_config, dict_getitem. simpl.
    rewrite Hc. simpl. rewrite Hc. reflexivity.
  - intros config w' Hc Hload. subst getc load.
    unfold _get_waiter_config, dict_getitem. simpl.
    rewrite Hc. simpl. rewrite Hload. simpl. rewrite lookup_insert_eq. reflexivity.
  - intros path w' Hc Hload. subst getc load.
    unfold _get_waiter_config, dict_getitem. simpl.
    rewrite Hc. simpl. rewrite Hload. simpl. rewrite lookup_insert_eq. reflexivity.
  - intros config self1 w1 t1 Hcfg. subst getw. unfold get_waiter. split.
    + intros Hfalse. rewrite run_bind. fold getc. rewrite Hcfg. simpl.
      rewrite Hfalse. simpl. rewrite app_nil_r. reflexivity.
    + intros model w2 Htrue Hmodel. split.
      * intros Hnot. rewrite run_bind. fold getc. rewrite Hcfg. simpl.
        rewrite Htrue. simpl. rewrite Hmodel. simpl.
        rewrite bool_decide_eq_false_2; [reflexivity|].
        rewrite waiter_mapping_is_Some. exact Hnot.
      * intros Hin. apply waiter_mapping_is_Some in Hin as Hsome.
        destruct Hsome as [actual Hactual].
        exists actual. destruct (waiter_mapping_lookup _ _ _ _ Hactual) as [Hmem Hx].
        split; [exact Hmem|]. split; [exact Hx|].
        intros r w3 Hcreate. rewrite run_bind. fold getc. rewrite Hcfg. simpl.
        rewrite Htrue. simpl. rewrite Hmodel. simpl.
        rewrite bool_decide_eq_true_2 by (eexists; exact Hactual). simpl.
        unfold dict_getitem. rewrite Hactual. simpl.
        rewrite Hcreate. destruct r; reflexivity.
Qed.

(** A loader with a waiters file of one waiter, and a normalization that
    knows its name. *)
Definition widgets_waiters : pyval :=
  VDict {[ "version" := VInt 2;
           "waiters" := VDict {[ "WidgetReady" := VDict ∅ ]} ]}.

Definition widget_waiter_model : WaiterModel :=
  {| waiter_model_obj := 33%positive; waiter_names := ["WidgetReady"] |}.

Definition with_waiters : env external R unit :=
  fun c w =>
    match c return (exn + R c) * unit with
    | LoadData _ _ => (inr widgets_waiters, w)
    | NewWaiterModel _ => (inr widget_waiter_model, w)
    | c => DispatchFacts.answering 200 c w
    end.

Definition snake (name : string) : string :=
  if String.eqb name "WidgetReady" then "widget_ready" else name.

Lemma get_waiter_by_normalized_name_witness :
  run with_waiters
    (get_waiter 40%positive DispatchFacts.widgets_model snake "widget_ready")
    DispatchFacts.widgets_client tt
  = (Returned 34%positive,
     set_cache "waiter_config" widgets_waiters DispatchFacts.widgets_client, tt,
     [existT (LoadData 40%positive (waiters_path DispatchFacts.widgets_model))
        (inr widgets_waiters);
      existT (NewWaiterModel widgets_waiters) (inr widget_waiter_model);
      existT (CreateWaiterWithClient "WidgetReady" widget_waiter_model
                (set_cache "waiter_config" widgets_waiters DispatchFacts.widgets_client))
        (inr 34%positive)]).
Proof.
  destruct (get_waiter_by_normalized_name unit with_waiters 40%positive
              DispatchFacts.widgets_model snake DispatchFacts.widgets_client tt
              "widget_ready") as [(_ & Hload & _) Hget].
  specialize (Hload widgets_waiters tt (lookup_empty _) eq_refl).
  destruct (Hget _ _ _ _ Hload) as [_ Hmodel].
  destruct (Hmodel widget_waiter_model tt) as [_ Hfound];
    [vm_compute; reflexivity | reflexivity |].
  destruct Hfound as (actual & Hmem & _ & Hrun); [left|].
  apply list_elem_of_singleton in Hmem. subst actual.
  exact (Hrun (inr 34%positive) tt eq_refl).
Defined.

End WaiterFacts.

(** ** Signature version *)

Module SignatureFacts.
Import Hooks Client PyFacts.

(** What the endpoint resolver answered, and the signature version each
    request signer was constructed with, read off a record of calls. *)
Definition endpoint_configs (t : list (entry external R)) : list pyval :=
  omap (fun e : entry external R =>
          match e with
          | existT c r =>
              match c return exn + R c -> option pyval with
              | ConstructEndpoint _ _ _ _ =>
                  fun r => match r with inr a => Some a | inl _ => None end
              | _ => fun _ => None
              end r
          end) t.

Definition signer_versions (t : list (entry external R)) : list pyval :=
  omap (fun c => match c with
                 | NewRequestSigner _ _ _ version _ _ => Some version
                 | _ => None
                 end) (calls t).

(** The four sources of a signature version. *)
Definition explicit_override (client_config : option Config) : option pyval :=
  match client_config with
  | Some cfg =>
      match config_signature_version cfg with
      | VNone => None
      | v => Some v
      end
  | None => None
  end.

Definition endpoint_override (endpoint_config : pyval) : option pyval :=
  match endpoint_config with
  | VDict ec =>
      match ec !! "properties" with
      | Some (VDict properties) => properties !! "signatureVersion"
      | _ => None
      end
  | _ => None
  end.

Definition config_file_override (scoped_config : pyval) (prefix : string) : option pyval :=
  match scoped_config with
  | VDict sc =>
      match sc !! prefix with
      | Some (VDict section) =>
          match section !! "signature_version" with
          | Some v => if py_truthy v then Some v else None
          | None => None
          end
      | _ => None
      end
  | _ => None
  end.

(** The first of the given sources that has a version, else the default. *)
Definition first_of (sources : list (option pyval)) (dflt : pyval) : pyval :=
  default dflt (head (omap id sources)).

(** The precedence the code implements: explicit, configuration file,
    endpoint, service model. *)
Definition chosen_signature_version (client_config : option Config)
    (scoped_config endpoint_config : pyval) (service_model : ServiceModel) : pyval :=
  first_of [explicit_override client_config;
            config_file_override scoped_config (endpoint_prefix service_model);
            endpoint_override endpoint_config]
           (signature_version service_model).

(** The precedence as the specification words it: explicit, endpoint,
    configuration file, service model. *)
Definition specified_signature_version (client_config : option Config)
    (scoped_config endpoint_config : pyval) (service_model : ServiceModel) : pyval :=
  first_of [explicit_override client_config;
            endpoint_override endpoint_config;
            config_file_override scoped_config (endpoint_prefix service_model)]
           (signature_version service_model).

Lemma signer_versions_app (t1 t2 : list (entry external R)) :
  signer_versions (t1 ++ t2) = (signer_versions t1 ++ signer_versions t2)%list.
Proof.
  unfold signer_versions, calls. rewrite map_app, omap_app. reflexivity.
Qed.

Lemma endpoint_configs_app (t1 t2 : list (entry external R)) :
  endpoint_configs (t1 ++ t2) = (endpoint_configs t1 ++ endpoint_configs t2)%list.
Proof.
  unfold endpoint_configs. rewrite omap_app. reflexivity.
Qed.

(** A call that is not a signer's construction, or not an answer of the
    resolver, does not count. *)
Lemma signer_versions_skip (e : entry external R) (t : list (entry external R)) :
  signer_versions [e] = [] -> signer_versions (e :: t) = signer_versions t.
Proof.
  intros H. change (e :: t) with ([e] ++ t)%list.
  rewrite signer_versions_app, H. reflexivity.
Qed.

Lemma endpoint_configs_skip (e : entry external R) (t : list (entry external R)) :
  endpoint_configs [e] = [] -> endpoint_configs (e :: t) = endpoint_configs t.
Proof.
  intros H. change (e :: t) with ([e] ++ t)%list.
  rewrite endpoint_configs_app, H. reflexivity.
Qed.

(** Closes a case of the signature version's computation once it has run. *)
Ltac sig_done :=
  intros [= <- <- <- <-];
  (split; [reflexivity|]); (split; [reflexivity|]);
  intros v r Hv; try discriminate Hv; injection Hv as <- <-;
  (split; [reflexivity|]); eexists; (split; [reflexivity|]);
  unfold first_of, config_file_override, endpoint_override; simpl;
  repeat match goal with
         | H : ?x = _ |- context [?x] => rewrite H; simpl
         end;
  reflexivity.

Section Signature.
Context {W : Type}.
Variables (h : env external R W) (self : ClientCreator) (service_model : ServiceModel).

Lemma get_signature_version_and_region_run (region_name : pyval) (is_secure : bool)
    (scoped_config : pyval) heap w o heap' w' t :
  run h (_get_signature_version_and_region self service_model region_name
           is_secure scoped_config) heap w = (o, heap', w', t) ->
  heap' = heap /\ signer_versions t = []
  /\ forall v r, o = Returned (v, r) ->
       r = region_name
       /\ exists ec, endpoint_configs t = [ec]
          /\ v = first_of [config_file_override scoped_config (endpoint_prefix service_model);
                           endpoint_override ec]
                          (signature_version service_model).
Proof.
  unfold _get_signature_version_and_region, lift. simpl.
  destruct (h (ConstructEndpoint _ _ _ _) w) as [[x|ec] w1]; simpl.
  { intros [= <- <- <- <-]. repeat split; discriminate. }
  destruct ec as [| | | | |d]; simpl; try sig_done.
  destruct (d !! "properties") as [props|] eqn:Hprops; simpl;
    [ destruct props as [| | |s|l|pd]; simpl; try sig_done;
      [ destruct (str_contains _ s) eqn:?; simpl; try sig_done
      | destruct (existsb _ l) eqn:?; simpl; try sig_done
      | destruct (pd !! "signatureVersion") eqn:Hsv; simpl ]
    | rewrite lookup_empty; simpl ];
    (destruct scoped_config as [| | | | |sc]; simpl; try sig_done;
     destruct (sc !! endpoint_prefix service_model) as [[| | | | |section]|] eqn:Hsec;
     simpl; try sig_done;
     destruct (section !! "signature_version") as [ov|] eqn:Hov; simpl; try sig_done;
     destruct (py_truthy ov) eqn:Htruthy; simpl; try sig_done).
Qed.
End Signature.

(** C5 (as the code has it).  The signature version a client's RequestSigner
    is constructed with is chosen by this precedence, highest first: the
    [signature_version] of the [client_config] passed at construction, when
    it is not None; the [signature_version] entry, when it is truthy, of the
    scoped configuration's section for the endpoint prefix; the
    [signatureVersion] property of the resolved endpoint; the service model's
    default.  A client's arguments are returned only with one signer
    constructed. *)
Theorem signature_version_precedence :
  forall (W : Type) (h : env external R W) (self : ClientCreator)
         (service_model : ServiceModel) (region_name : pyval) (is_secure : bool)
         (endpoint_url verify : pyval) (credentials : option obj)
         (scoped_config : pyval) (client_config : option Config)
         (heap heap' : gmap loc registry) (w w' : W)
         (o : outcome client_args) (t : list (entry external R)),
    run h (_get_client_args self service_model region_name is_secure endpoint_url
             verify credentials scoped_config client_config) heap w
    = (o, heap', w', t) ->
    (forall v, In v (signer_versions t) ->
       exists ec,
         endpoint_configs t = [ec]
         /\ v = chosen_signature_version client_config scoped_config ec service_model)
    /\ (forall args, o = Returned args -> exists v, signer_versions t = [v]).
Proof.
  intros W h self sm region is_secure url verify creds scoped cc heap heap' w w' o t.
  unfold _get_client_args, lift, py_getitem, copy_emitter, copy.
  destruct (metadata sm !! "protocol") as [protocol|];
    cbn -[_get_signature_version_and_region].
  2:{ intros [= <- <- <- <-]. split; [intros v []|discriminate]. }
  destruct (h (CreateSerializer _ _) _) as [[x|serializer] w1];
    cbn -[_get_signature_version_and_region].
  { intros [= <- <- <- <-]. split; [intros v []|discriminate]. }
  destruct (h (NewEndpointCreator _ _ _ _) _) as [[x|creator] w2];
    cbn -[_get_signature_version_and_region].
  { intros [= <- <- <- <-]. split; [intros v []|discriminate]. }
  destruct (h (CreateEndpoint _ _ _ _ _ _ _) _) as [[x|endpoint] w3];
    cbn -[_get_signature_version_and_region].
  { intros [= <- <- <- <-]. split; [intros v []|discriminate]. }
  destruct (h (CreateParser _) _) as [[x|parser] w4];
    cbn -[_get_signature_version_and_region].
  { intros [= <- <- <- <-]. split; [intros v []|discriminate]. }
  rewrite run_bind.
  destruct (run h (_get_signature_version_and_region _ _ _ _ _) _ w4)
    as [[[o1 h1] w5] t1] eqn:Hsig.
  apply get_signature_version_and_region_run in Hsig as (-> & Hnone & Hret).
  destruct o1 as [[sv r]|x|]; simpl.
  - destruct (Hret sv r eq_refl) as (-> & ec & Hec & Hsv).
    destruct (h (NewRequestSigner _ _ _ _ _ _) w5) as [[x|signer] w6]; simpl;
      intros [= <- <- <- <-];
      (split;
       [ intros v;
         rewrite !signer_versions_skip, !endpoint_configs_skip by reflexivity;
         rewrite signer_versions_app, endpoint_configs_app, Hnone, Hec;
         simpl; intros [<-|[]]; exists ec; split; [reflexivity|];
         rewrite Hsv; unfold chosen_signature_version, first_of, explicit_override; simpl;
         destruct cc as [cfg|]; [destruct (config_signature_version cfg)|];
         reflexivity
       | ]).
    + discriminate.
    + intros args _. rewrite !signer_versions_skip by reflexivity.
      rewrite signer_versions_app, Hnone. simpl. eexists. reflexivity.
  - intros [= <- <- <- <-]. rewrite !signer_versions_skip by reflexivity.
    rewrite Hnone. split; [intros v []|discriminate].
  - intros [= <- <- <- <-]. rewrite !signer_versions_skip by reflexivity.
    rewrite Hnone. split; [intros v []|discriminate].
Qed.

(** A creator, an endpoint whose properties name signature version v4, and a
    configuration file whose section for the service names s3. *)
Definition widgets_creator : ClientCreator :=
  {| _loader := 40%positive;
     _endpoint_resolver := 41%positive;
     _user_agent := "eb-cli";
     _event_emitter := 1%positive;
     _retry_handler_factory := 42%positive;
     _retry_config_translator := 43%positive;
     _response_parser_factory := None |}.

Definition v4_endpoint : pyval :=
  VDict {[ "uri" := VStr "https://wdg.us-east-1.amazonaws.com";
           "properties" := VDict {[ "signatureVersion" := VStr "v4" ]} ]}.

Definition s3_scoped_config : pyval :=
  VDict {[ "region" := VStr "us-east-1";
           "wdg" := VDict {[ "signature_version" := VStr "s3" ]} ]}.

Definition with_v4_endpoint : env external R unit :=
  fun c w =>
    match c return (exn + R c) * unit with
    | ConstructEndpoint _ _ _ _ => (inr v4_endpoint, w)
    | c => DispatchFacts.answering 200 c w
    end.

Definition v4_s3_run : outcome client_args * gmap loc registry * unit * list (entry external R) :=
  run with_v4_endpoint
    (_get_client_args widgets_creator DispatchFacts.widgets_model (VStr "us-east-1")
       true VNone VNone None s3_scoped_config None)
    {[ 1%positive := [] ]} tt.

(** C5 as stated fails: with no explicit override, an endpoint property v4 and
    a configuration-file entry s3, the signer is constructed with s3, where the
    stated precedence gives v4. *)
Lemma specified_precedence_fails :
  signer_versions (snd v4_s3_run) = [VStr "s3"]
  /\ signer_versions (snd v4_s3_run)
     <> [specified_signature_version None s3_scoped_config v4_endpoint
           DispatchFacts.widgets_model].
Proof.
  split; [vm_compute; reflexivity|].
  intros H. vm_compute in H. discriminate H.
Qed.

Lemma signature_version_precedence_witness :
  exists ec,
    endpoint_configs (snd v4_s3_run) = [ec]
    /\ VStr "s3"
       = chosen_signature_version None s3_scoped_config ec DispatchFacts.widgets_model.
Proof.
  assert (E : v4_s3_run
              = (fst (fst (fst v4_s3_run)), snd (fst (fst v4_s3_run)),
                 snd (fst v4_s3_run), snd v4_s3_run))
    by (destruct v4_s3_run as [[[? ?] ?] ?]; reflexivity).
  apply (proj1 (signature_version_precedence unit with_v4_endpoint widgets_creator
                  DispatchFacts.widgets_model (VStr "us-east-1") true VNone VNone
                  None s3_scoped_config None _ _ _ _ _ _ E) (VStr "s3")).
  vm_compute. left. reflexivity.
Defined.

End SignatureFacts.

(** ** The emitter's registry *)

Module HooksFacts.
Import Hooks.




Section Count.
Context (Q : registration -> Prop) {Qdec : forall r, Decision (Q r)}.




End Count.









End HooksFacts.

(** ** Retry registration *)

Module RetryFacts.
Import Hooks Client PyFacts HooksFacts.









Section Loads.
Context {W : Type}.
Variables (h : env external R W) (self : ClientCreator).



End Loads.







End RetryFacts.

(** ** Cloning a client *)

Module CloneFacts.
Import Hooks Client PyFacts.

(** C6. [clone_client] without overrides returns a new client with the
    serializer, endpoint, response parser and request signer of the original
    (the same objects) and with an emitter of its own, a new object that
    starts with the registrations the original's emitter has at that moment.
    A handler registered afterwards on the clone's emitter changes nothing in
    what the original's emitter invokes for any event, and the other way
    round. *)
Theorem clone_client_independent_events :
  forall (W : Type) (h : env external R W) (heap : gmap loc registry) (w : W)
         (self : BaseClient) (em : loc),
    events (meta self) = Some em ->
    em ∈ dom heap ->
    exists (clone : BaseClient) (em' : loc),
      let heap' := <[em' := heap !!! em]> heap in
      run h (clone_client self None None None None) heap w
      = (Returned clone, heap', w, [])
      /\ _serializer clone = _serializer self
      /\ _endpoint clone = _endpoint self
      /\ _response_parser clone = _response_parser self
      /\ _request_signer clone = _request_signer self
      /\ events (meta clone) = Some em'
      /\ em' <> em
      /\ (em' ∉ dom heap)
      /\ heap' !!! em' = heap !!! em
      /\ heap' !!! em = heap !!! em
      /\ forall (event_pattern : string) (hd : handler) (uid : option string)
                (event_name : string),
           handlers_to_call (register_at em' event_pattern hd uid heap' !!! em) event_name
           = handlers_to_call (heap' !!! em) event_name
           /\ handlers_to_call (register_at em event_pattern hd uid heap' !!! em') event_name
              = handlers_to_call (heap' !!! em') event_name.
Proof.
  intros W h heap w self em Hev Hlive.
  pose proof (is_fresh (dom heap)) as Hfresh.
  assert (Hne : fresh (dom heap) <> em) by (intros Heq; rewrite Heq in Hfresh; contradiction).
  exists {| _serializer := _serializer self;
            _endpoint := _endpoint self;
            _response_parser := _response_parser self;
            _request_signer := _request_signer self;
            _cache := ∅;
            meta := {| events := Some (fresh (dom heap)) |} |},
         (fresh (dom heap)).
  cbv zeta. split.
  { unfold clone_client, BaseClient__init__, ClientMeta__copy__, copy_emitter, copy.
    simpl. rewrite Hev. reflexivity. }
  repeat (split; [reflexivity || assumption|]).
  split; [apply lookup_total_insert_eq|].
  split; [apply lookup_total_insert_ne; exact Hne|].
  intros event_pattern hd uid event_name. unfold register_at. split.
  - rewrite lookup_total_insert_ne by exact Hne. reflexivity.
  - rewrite lookup_total_insert_ne by (intros Heq; apply Hne; symmetry; exact Heq).
    reflexivity.
Qed.

(** A client whose emitter holds its own signing handler. *)
Definition widgets_emitters : gmap loc registry :=
  {[ 1%positive := [Registration "request-created" None (SignRequest 14%positive)] ]}.

Lemma clone_client_independent_events_witness :
  exists (clone : BaseClient) (em' : loc),
    let heap' := <[em' := widgets_emitters !!! 1%positive]> widgets_emitters in
    run (DispatchFacts.answering 200)
      (clone_client DispatchFacts.widgets_client None None None None)
      widgets_emitters tt
    = (Returned clone, heap', tt, [])
    /\ _serializer clone = 11%positive
    /\ _endpoint clone = 12%positive
    /\ _response_parser clone = 13%positive
    /\ _request_signer clone = 14%positive
    /\ events (meta clone) = Some em'
    /\ em' <> 1%positive
    /\ (em' ∉ dom widgets_emitters)
    /\ heap' !!! em' = widgets_emitters !!! 1%positive
    /\ heap' !!! 1%positive = widgets_emitters !!! 1%positive
    /\ forall (event_pattern : string) (hd : handler) (uid : option string)
              (event_name : string),
         handlers_to_call (register_at em' event_pattern hd uid heap' !!! 1%positive)
           event_name
         = handlers_to_call (heap' !!! 1%positive) event_name
         /\ handlers_to_call (register_at 1%positive event_pattern hd uid heap' !!! em')
              event_name
            = handlers_to_call (heap' !!! em') event_name.
Proof.
  apply (clone_client_independent_events unit (DispatchFacts.answering 200)
           widgets_emitters tt DispatchFacts.widgets_client 1%positive eq_refl).
  unfold widgets_emitters. rewrite dom_singleton_L. apply elem_of_singleton_2.
  reflexivity.
Defined.

End CloneFacts.

(** ** The poll loop of wait_for_success_events *)

Module PollFacts.
Import Commonops PyFacts.

(** A service that has [first] for the request and [later] afterwards, under
    a clock that only sleeping advances. *)
Definition advancing (first : list Event) (later : Z -> option Z -> list Event)
    : env external R Z :=
  fun c clock =>
    match c return (exn + R c) * Z with
    | Now => (inr clock, clock)
    | Sleep seconds => (inr tt, clock + timedelta_seconds seconds)
    | GetEventStreamer => (inr 1%positive, clock)
    | AppendPrompt _ _ => (inr tt, clock)
    | GetNewEvents app _ _ last_event_time =>
        (inr match app with
             | None => first
             | Some _ => later clock last_event_time
             end, clock)
    | StreamEvent _ _ => (inr tt, clock)
    | EndStream _ => (inr tt, clock)
    end.

Section Poll.
Variables (responses strings prompts : string -> string).
Variables (first : list Event) (later : Z -> option Z -> list Event).
Variables (sleep_time : Z) (stream_events : bool) (streamer : obj).

(** No message is a success or a failure string. *)
Definition no_match (events : list Event) : Prop :=
  Forall (fun e => _is_success_string responses prompts (message e) = inr false) events.

Lemma for_events_no_match (events : list Event) (last_time : option Z) (clock : Z) :
  no_match events ->
  exists last_time' t,
    run (advancing first later)
      (for_events responses prompts stream_events streamer events last_time) tt clock
    = (Returned (inr last_time'), tt, clock, t).
Proof.
  revert last_time. induction events as [|e events IH]; intros last_time Hno.
  - exists last_time, []. reflexivity.
  - apply Forall_cons in Hno as [He Hno]. cbn [for_events].
    destruct stream_events; simpl; rewrite He; simpl.
    + destruct (IH (Some (event_date e)) Hno) as (l & t & ->).
      eexists _, _. reflexivity.
    + destruct (IH last_time Hno) as (l & t & ->).
      eexists _, _. reflexivity.
Qed.

(** With turns enough for the time left, the poll loop ends on its deadline
    check. *)
Lemma poll_reaches_deadline (start timediff : Z) (app env : string) :
  (forall clock last_time, no_match (later clock last_time)) ->
  forall (fuel : nat) (clock : Z) (last_time : option Z),
    (0 < fuel)%nat ->
    (timediff - (clock - start)
     <= (Z.of_nat fuel - 1) * timedelta_seconds sleep_time)%Z ->
    exists clock' t,
      run (advancing first later)
        (poll responses prompts sleep_time stream_events streamer start timediff
           fuel app env last_time) tt clock
      = (Returned false, tt, clock', t)
      /\ (timediff <= clock' - start)%Z.
Proof.
  intros Hlater. induction fuel as [|fuel IH]; intros clock last_time Hpos Hfuel;
    [lia|].
  set (s := timedelta_seconds sleep_time) in *.
  replace ((Z.of_nat (S fuel) - 1) * s)%Z with (Z.of_nat fuel * s)%Z in Hfuel
    by (rewrite Nat2Z.inj_succ; ring).
  cbn [poll]. simpl.
  destruct (Z.ltb_spec (clock - start) timediff) as [Hlt|Hge].
  - simpl. rewrite run_bind.
    pose proof (Hlater (clock + s)%Z last_time) as Hno.
    apply Forall_rev in Hno.
    destruct (for_events_no_match _ last_time (clock + s)%Z Hno)
      as (last_time' & t1 & Hfor).
    fold s. rewrite Hfor. cbn [and_then].
    assert (Hfuel' : (0 < fuel)%nat).
    { destruct fuel; [simpl in Hfuel; lia | lia]. }
    destruct (IH (clock + s)%Z last_time' Hfuel') as (clock' & t2 & Hrun & Hdone).
    { replace ((Z.of_nat fuel - 1) * s)%Z with (Z.of_nat fuel * s - s)%Z by ring.
      lia. }
    rewrite Hrun. eexists _, _. split; [reflexivity|exact Hdone].
  - eexists _, _. split; [reflexivity|lia].
Qed.
End Poll.

(** Once the request has a first event, and as long as no message is a
    success or a failure string, the function ends by raising TimeoutError:
    the second loop reads the clock at every turn and stops when the budget
    is used up. *)
Theorem wait_for_success_events_times_out_after_first_event :
  forall (responses strings prompts : string -> string)
         (first : list Event) (later : Z -> option Z -> list Event)
         (fuel : nat) (request_id : option string) (timeout_in_minutes : option Z)
         (sleep_time : Z) (stream_events can_abort : bool) (clock : Z),
    timeout_in_minutes <> Some 0%Z ->
    first <> [] ->
    no_match responses prompts first ->
    (forall c l, no_match responses prompts (later c l)) ->
    (timedelta_seconds (default 10 timeout_in_minutes * 60)
     <= Z.of_nat fuel * timedelta_seconds sleep_time)%Z ->
    exists clock' t,
      run (advancing first later)
        (wait_for_success_events responses strings prompts (S fuel) request_id
           timeout_in_minutes sleep_time stream_events can_abort) tt clock
      = (Raised (TimeoutError "Timed out while waiting for command to Complete"),
         tt, clock', t)
      /\ (timedelta_seconds (default 10 timeout_in_minutes * 60) <= clock' - clock)%Z.
Proof.
  intros responses strings prompts first later fuel rid timeout sleep stream abort
    clock Hnz Hfirst Hno Hlater Hfuel.
  unfold wait_for_success_events.
  rewrite bool_decide_eq_false_2 by assumption.
  destruct (last first) as [e|] eqn:Hlast; [|apply last_None in Hlast; contradiction].
  assert (He : _is_success_string responses prompts (message e) = inr false).
  { apply last_Some in Hlast as [l ->]. apply Forall_app in Hno as [_ Hno].
    apply Forall_cons in Hno as [He _]. exact He. }
  destruct (poll_reaches_deadline responses prompts first later sleep stream
              1%positive clock (timedelta_seconds (default 10 timeout * 60))
              (app_name e) (environment_name e) Hlater (S fuel) clock
              (Some (event_date e))) as (clock' & t & Hpoll & Hdone); [lia| |].
  { replace (Z.of_nat (S fuel) - 1)%Z with (Z.of_nat fuel) by lia. lia. }
  destruct abort, stream; cbn -[poll]; rewrite Hlast; cbn -[poll]; rewrite He;
    cbn -[poll]; rewrite run_bind, run_try_finally, Hpoll; cbn;
    eexists _, _; (split; [reflexivity|lia]).
Qed.

Lemma wait_for_success_events_times_out_after_first_event_witness :
  exists clock' t,
    run (advancing
           [{| message := "createEnvironment is starting."; severity := "INFO";
               event_date := 0; app_name := "app"; environment_name := "env" |}]
           (fun _ _ => []))
      (wait_for_success_events (fun k => k) (fun k => k) (fun k => k) (S 12)
         (Some "req-1") (Some 1%Z) 5 true true) tt 0
    = (Raised (TimeoutError "Timed out while waiting for command to Complete"),
       tt, clock', t)
    /\ (timedelta_seconds (default 10 (Some 1%Z) * 60) <= clock' - 0)%Z.
Proof.
  apply (wait_for_success_events_times_out_after_first_event
           (fun k => k) (fun k => k) (fun k => k)
           [{| message := "createEnvironment is starting."; severity := "INFO";
               event_date := 0; app_name := "app"; environment_name := "env" |}]
           (fun _ _ => []) 12 (Some "req-1") (Some 1%Z) 5 true true 0).
  - discriminate.
  - discriminate.
  - repeat constructor.
  - intros c l. constructor.
  - vm_compute. discriminate.
Defined.

End PollFacts.

(** ** The budget of wait_for_success_events *)

Module BudgetFacts.
Import Commonops PyFacts PollFacts.

(** A reading of the clock, as a run records it. *)
Definition reading (now : Z) : entry external R := existT Now (inr now).

(** What a recorded call read from the clock. *)
Definition clock_read (e : entry external R) : option Z :=
  match e with
  | existT c r =>
      match c return exn + R c -> option Z with
      | Now => fun r => match r with inr now => Some now | inl _ => None end
      | _ => fun _ => None
      end r
  end.

Lemma reading_head (e : entry external R) (now : Z) (t t' : list (entry external R)) :
  e :: t = reading now :: t' -> clock_read e = Some now /\ t = t'.
Proof.
  intros H. split.
  - exact (f_equal (fun l => match l with e :: _ => clock_read e | [] => None end) H).
  - exact (f_equal tail H).
Qed.

Ltac same_reading H :=
  let H' := fresh in
  apply reading_head in H as [H' <-]; simpl in H'; injection H' as <-.

(** A recorded call that is not a reading of the clock. *)
Definition no_reading (e : entry external R) : Prop := projT1 e <> Now.

Lemma reading_after (ta tb t1 t2 : list (entry external R)) (now : Z) :
  Forall no_reading ta ->
  (ta ++ tb)%list = (t1 ++ reading now :: t2)%list ->
  exists t1', tb = (t1' ++ reading now :: t2)%list.
Proof.
  revert t1. induction ta as [|a ta IH]; intros t1 Hta H.
  - exists t1. exact H.
  - apply Forall_cons in Hta as [Ha Hta].
    destruct t1 as [|e t1]; simpl in H; injection H as -> Hrest.
    + contradiction Ha. reflexivity.
    + exact (IH t1 Hta Hrest).
Qed.

Lemma reading_before (ta tb t1 t2 : list (entry external R)) (now : Z) :
  Forall no_reading tb ->
  (ta ++ tb)%list = (t1 ++ reading now :: t2)%list ->
  exists t2', ta = (t1 ++ reading now :: t2')%list /\ t2 = (t2' ++ tb)%list.
Proof.
  revert t1. induction ta as [|a ta IH]; intros t1 Htb H.
  - simpl in H. subst tb. apply Forall_app in Htb as [_ Htb].
    apply Forall_cons in Htb as [Hnow _]. contradiction Hnow. reflexivity.
  - destruct t1 as [|e t1]; simpl in H; injection H as -> Hrest.
    + exists ta. split; [reflexivity|]. symmetry. exact Hrest.
    + destruct (IH t1 Htb Hrest) as (t2' & -> & ->). exists t2'.
      split; reflexivity.
Qed.

Section Budget.
Context {W : Type}.
Variables (responses prompts : string -> string) (h : env external R W).
Variables (request_id : option string) (sleep_time : Z) (stream_events : bool)
          (streamer : obj).

(** Neither the loop over the events nor the loop that gets the first events
    reads the clock. *)
Lemma for_events_no_reading (events : list Event) :
  forall (last_time : option Z) (w : W) o s' w' t,
    run h (for_events responses prompts stream_events streamer events last_time)
      tt w = (o, s', w', t) ->
    Forall no_reading t.
Proof.
  induction events as [|event rest IH]; intros last_time w o s' w' t.
  { simpl. intros [= <- <- <- <-]. constructor. }
  cbn [for_events]. destruct stream_events; simpl.
  - destruct (h (StreamEvent _ _) w) as [[x|[]] w1]; simpl.
    { intros [= <- <- <- <-]. repeat constructor. discriminate. }
    destruct (_is_success_string responses prompts (message event)) as [x|[]];
      simpl.
    + intros [= <- <- <- <-]. repeat constructor. discriminate.
    + intros [= <- <- <- <-]. repeat constructor. discriminate.
    + destruct (run h (for_events _ _ _ _ rest _) tt w1) as [[[o1 s1] w2] t1] eqn:Hrest.
      intros [= <- <- <- <-]. constructor; [discriminate|].
      exact (IH _ _ _ _ _ _ Hrest).
  - destruct (_is_success_string responses prompts (message event)) as [x|[]];
      simpl.
    + intros [= <- <- <- <-]. constructor.
    + intros [= <- <- <- <-]. constructor.
    + apply IH.
Qed.

Lemma first_events_no_reading (fuel : nat) :
  forall (w : W) o s' w' t,
    run h (first_events responses prompts request_id sleep_time stream_events
             streamer fuel) tt w = (o, s', w', t) ->
    Forall no_reading t.
Proof.
  induction fuel as [|fuel IH]; intros w o s' w' t.
  { simpl. intros [= <- <- <- <-]. constructor. }
  cbn [first_events]. simpl.
  destruct (h (GetNewEvents None None request_id None) w) as [[x|events] w1]; simpl.
  { intros [= <- <- <- <-]. repeat constructor. discriminate. }
  destruct (last events) as [event|].
  - destruct stream_events; simpl.
    + destruct (h (StreamEvent _ _) w1) as [[x|[]] w2]; simpl.
      { intros [= <- <- <- <-]. repeat constructor; discriminate. }
      destruct (_is_success_string responses prompts (message event)) as [x|[]];
        simpl; intros [= <- <- <- <-]; repeat constructor; discriminate.
    + destruct (_is_success_string responses prompts (message event)) as [x|[]];
        simpl; intros [= <- <- <- <-]; repeat constructor; discriminate.
  - simpl. destruct (h (Sleep sleep_time) w1) as [[x|[]] w2]; simpl.
    { intros [= <- <- <- <-]. repeat constructor; discriminate. }
    destruct (run h (first_events _ _ _ _ _ _ fuel) tt w2) as [[[o1 s1] w3] t1] eqn:Hrest.
    intros [= <- <- <- <-]. repeat (constructor; [discriminate|]).
    exact (IH _ _ _ _ _ Hrest).
Qed.

(** The second loop, in any environment: after each reading of the clock it
    sleeps when the time since [start] is less than [timediff], and has
    ended on its condition otherwise. *)
Lemma poll_budget (start timediff : Z) (fuel : nat) :
  forall (app env : string) (last_time : option Z) (w : W) o s' w' t t1 now t2,
    run h (poll responses prompts sleep_time stream_events streamer start timediff
             fuel app env last_time) tt w = (o, s', w', t) ->
    t = (t1 ++ reading now :: t2)%list ->
    if (now - start <? timediff)%Z
    then exists r t3, t2 = existT (Sleep sleep_time) r :: t3
    else t2 = [] /\ o = Returned false.
Proof.
  induction fuel as [|fuel IH]; intros app env last_time w o s' w' t t1 now t2.
  { simpl. intros [= <- <- <- <-] H. destruct t1; discriminate. }
  cbn [poll]. simpl.
  destruct (h Now w) as [[x|now0] w1]; simpl.
  { intros [= <- <- <- <-] H. destruct t1 as [|e [|e' t1]]; discriminate. }
  destruct (Z.ltb_spec (now0 - start) timediff) as [Hlt|Hge]; simpl.
  - destruct (h (Sleep sleep_time) w1) as [[x|[]] w2]; simpl.
    { intros [= <- <- <- <-] H. destruct t1 as [|e t1]; simpl in H.
      - same_reading H. rewrite (proj2 (Z.ltb_lt _ _) Hlt). eauto.
      - injection H as _ H. destruct t1 as [|e' [|e'' t1]]; discriminate. }
    destruct (h (GetNewEvents _ _ _ _) w2) as [[x|events] w3]; simpl.
    { intros [= <- <- <- <-] H. destruct t1 as [|e t1]; simpl in H.
      - same_reading H. rewrite (proj2 (Z.ltb_lt _ _) Hlt). eauto.
      - injection H as _ H. destruct t1 as [|e' [|e'' [|e3 t1]]]; discriminate. }
    rewrite run_bind.
    destruct (run h (for_events _ _ _ _ (rev events) last_time) tt w3)
      as [[[o1 s1] w4] tf] eqn:Hfor.
    pose proof (for_events_no_reading _ _ _ _ _ _ _ Hfor) as Hno.
    assert (Hs1 : s1 = tt) by (destruct s1; reflexivity). subst s1.
    assert (Hhead : forall o2 s2 w5 tp,
               (forall t1' , tp = (t1' ++ reading now :: t2)%list ->
                  if (now - start <? timediff)%Z
                  then exists r t3, t2 = existT (Sleep sleep_time) r :: t3
                  else t2 = [] /\ o2 = Returned false) ->
               (o2, s2, w5,
                existT Now (inr now0) :: existT (Sleep sleep_time) (inr tt)
                :: existT (GetNewEvents (Some app) (Some env) None last_time)
                     (inr events) :: (tf ++ tp)%list)
               = (o, s', w', t) ->
               t = (t1 ++ reading now :: t2)%list ->
               if (now - start <? timediff)%Z
               then exists r t3, t2 = existT (Sleep sleep_time) r :: t3
               else t2 = [] /\ o = Returned false).
    { intros o2 s2 w5 tp Htp [= <- <- <- <-] H. destruct t1 as [|e t1]; simpl in H.
      - same_reading H. rewrite (proj2 (Z.ltb_lt _ _) Hlt). eauto.
      - injection H as _ H.
        destruct t1 as [|e' t1]; simpl in H; [discriminate|]. injection H as _ H.
        destruct t1 as [|e'' t1]; simpl in H; [discriminate|]. injection H as _ H.
        destruct (reading_after _ _ _ _ _ Hno H) as (t1' & Htp').
        exact (Htp t1' Htp'). }
    destruct o1 as [[[]|last_time']|x|]; simpl.
    + intros Hrun. apply (Hhead (Returned true) tt w4 []).
      * intros [|? ?]; discriminate.
      * exact Hrun.
    + destruct (run h (poll _ _ _ _ _ _ _ fuel app env last_time') tt w4)
        as [[[o2 s2] w5] tp] eqn:Hpoll.
      intros Hrun. apply (Hhead o2 s2 w5 tp); [|exact Hrun].
      intros t1' Htp. exact (IH _ _ _ _ _ _ _ _ _ _ _ Hpoll Htp).
    + intros Hrun. apply (Hhead (Raised x) tt w4 []).
      * intros [|? ?]; discriminate.
      * rewrite app_nil_r. exact Hrun.
    + intros Hrun. apply (Hhead OutOfFuel tt w4 []).
      * intros [|? ?]; discriminate.
      * rewrite app_nil_r. exact Hrun.
  - intros [= <- <- <- <-] H. destruct t1 as [|e t1]; simpl in H.
    + same_reading H. rewrite (proj2 (Z.ltb_ge _ _) Hge). auto.
    + injection H as _ H. destruct t1; discriminate.
Qed.
End Budget.


Section Deadline.
Variables (responses prompts : string -> string).
Variables (first : list Event) (later : Z -> option Z -> list Event).
Variables (sleep_time : Z) (stream_events : bool) (streamer : obj).

(** Under a clock that only sleeping advances, the second loop ends on its
    condition at the first turn at which [timediff] has passed: not before,
    and less than one sleep after. *)
Lemma poll_stops_within_one_sleep (start timediff : Z) (app env : string) :
  (forall clock last_time, no_match responses prompts (later clock last_time)) ->
  (0 < timedelta_seconds sleep_time)%Z ->
  forall (fuel : nat) (clock : Z) (last_time : option Z),
    (0 < fuel)%nat ->
    (clock - start < timediff + timedelta_seconds sleep_time)%Z ->
    (timediff - (clock - start)
     <= (Z.of_nat fuel - 1) * timedelta_seconds sleep_time)%Z ->
    exists clock' t,
      run (advancing first later)
        (poll responses prompts sleep_time stream_events streamer start timediff
           fuel app env last_time) tt clock
      = (Returned false, tt, clock', t)
      /\ (timediff <= clock' - start < timediff + timedelta_seconds sleep_time)%Z.
Proof.
  intros Hlater Hsleep. induction fuel as [|fuel IH];
    intros clock last_time Hpos Hclock Hfuel; [lia|].
  set (s := timedelta_seconds sleep_time) in *.
  replace ((Z.of_nat (S fuel) - 1) * s)%Z with (Z.of_nat fuel * s)%Z in Hfuel
    by (rewrite Nat2Z.inj_succ; ring).
  cbn [poll]. simpl.
  destruct (Z.ltb_spec (clock - start) timediff) as [Hlt|Hge].
  - simpl. rewrite run_bind.
    pose proof (Hlater (clock + s)%Z last_time) as Hno.
    apply Forall_rev in Hno.
    destruct (for_events_no_match responses prompts first later stream_events
                streamer _ last_time (clock + s)%Z Hno)
      as (last_time' & t1 & Hfor).
    fold s. rewrite Hfor. cbn [and_then].
    assert (Hfuel' : (0 < fuel)%nat).
    { destruct fuel; [simpl in Hfuel; lia | lia]. }
    destruct (IH (clock + s)%Z last_time' Hfuel') as (clock' & t2 & Hrun & Hdone).
    { lia. }
    { replace ((Z.of_nat fuel - 1) * s)%Z with (Z.of_nat fuel * s - s)%Z by ring.
      lia. }
    rewrite Hrun. eexists _, _. split; [reflexivity|exact Hdone].
  - eexists _, _. split; [reflexivity|lia].
Qed.
End Deadline.

Lemma no_reading_inside (ta t1 t2 : list (entry external R)) (now : Z) :
  Forall no_reading ta -> ta <> (t1 ++ reading now :: t2)%list.
Proof.
  intros Hta H.
  destruct (reading_after ta [] t1 t2 now Hta) as ([|? ?] & H');
    [rewrite app_nil_r; exact H | discriminate H' | discriminate H'].
Qed.

Section Try.
Context {W : Type}.
Variables (responses prompts : string -> string) (h : env external R W).
Variables (request_id : option string) (sleep_time : Z) (stream_events : bool)
          (streamer : obj) (start timediff : Z) (fuel : nat).

(** The [try] statement and what follows it, in any environment. *)
Lemma try_budget (w : W) o s' w' t t1 now t2 :
  run h
    (let* returned :=
       try_finally
         (let* first :=
            first_events responses prompts request_id sleep_time stream_events
              streamer fuel in
          match first with
          | FirstReturn => Ret true
          | FirstDone app env last_time =>
              poll responses prompts sleep_time stream_events streamer start
                timediff fuel app env last_time
          end)
         (call (EndStream streamer)) in
     if returned : bool then Ret tt
     else Raise (TimeoutError "Timed out while waiting for command to Complete"))
    tt w = (o, s', w', t) ->
  t = (t1 ++ reading now :: t2)%list ->
  if (now - start <? timediff)%Z
  then exists r t3, t2 = existT (Sleep sleep_time) r :: t3
  else exists r : exn + unit,
         t2 = [existT (EndStream streamer) r]
         /\ o = Raised
                  match r with
                  | inl x => x
                  | inr _ =>
                      TimeoutError "Timed out while waiting for command to Complete"
                  end.
Proof.
  rewrite run_bind, run_try_finally, run_bind.
  destruct (run h (first_events _ _ _ _ _ _ fuel) tt w) as [[[o1 s1] w1] tf] eqn:Hfirst.
  pose proof (first_events_no_reading _ _ _ _ _ _ _ _ _ _ _ _ _ Hfirst) as Hno.
  destruct o1 as [[|app env last_time]|x|]; cbn -[poll].
  - destruct (h (EndStream streamer) w1) as [[x|[]] w2]; cbn;
      intros [= <- <- <- <-] H; exfalso; revert H; apply no_reading_inside;
      rewrite ?app_nil_r; apply Forall_app; split; try exact Hno;
      repeat constructor; discriminate.
  - destruct s1.
    destruct (run h (poll _ _ _ _ _ _ _ fuel app env last_time) tt w1)
      as [[[o2 s2] w2] tp] eqn:Hpoll.
    assert (Hin : forall tend,
               Forall no_reading tend ->
               ((tf ++ tp) ++ tend)%list = (t1 ++ reading now :: t2)%list ->
               exists t1' t2',
                 tp = (t1' ++ reading now :: t2')%list /\ t2 = (t2' ++ tend)%list).
    { intros tend Hend H. rewrite <- app_assoc in H.
      destruct (reading_after _ _ _ _ _ Hno H) as (t1' & H').
      destruct (reading_before _ _ _ _ _ Hend H') as (t2' & -> & ->). eauto. }
    assert (Hend : forall r : exn + unit,
               Forall no_reading [existT (EndStream streamer) r : entry external R]).
    { intros r. repeat constructor. discriminate. }
    destruct o2 as [returned|x|]; cbn.
    + destruct (h (EndStream streamer) w2) as [[x|[]] w3]; cbn.
      * intros [= <- <- <- <-] H.
        destruct (Hin _ (Hend _) H) as (t1' & t2' & Htp & ->).
        pose proof (poll_budget _ _ _ _ _ _ _ _ _ _ _ _ _ _ _ _ _ _ _ _ Hpoll Htp)
          as Hb.
        destruct (now - start <? timediff)%Z.
        -- destruct Hb as (r & t3 & ->). eexists r, _. reflexivity.
        -- destruct Hb as [-> _]. eexists. split; reflexivity.
      * destruct returned; cbn; intros [= <- <- <- <-] H;
          rewrite ?app_nil_r in H;
          destruct (Hin _ (Hend _) H) as (t1' & t2' & Htp & ->);
          pose proof (poll_budget _ _ _ _ _ _ _ _ _ _ _ _ _ _ _ _ _ _ _ _ Hpoll Htp)
            as Hb;
          destruct (now - start <? timediff)%Z;
          try (destruct Hb as (r & t3 & ->); eexists r, _; reflexivity);
          destruct Hb as [-> Ho]; try discriminate Ho;
          eexists; split; reflexivity.
    + destruct (h (EndStream streamer) w2) as [[y|[]] w3]; cbn;
        intros [= <- <- <- <-] H;
        destruct (Hin _ (Hend _) H) as (t1' & t2' & Htp & ->);
        pose proof (poll_budget _ _ _ _ _ _ _ _ _ _ _ _ _ _ _ _ _ _ _ _ Hpoll Htp)
          as Hb;
        destruct (now - start <? timediff)%Z;
        try (destruct Hb as (r & t3 & ->); eexists r, _; reflexivity);
        destruct Hb as [_ Ho]; discriminate Ho.
    + intros [= <- <- <- <-] H.
      destruct (Hin [] ltac:(constructor) ltac:(rewrite app_nil_r; exact H))
        as (t1' & t2' & Htp & ->).
      pose proof (poll_budget _ _ _ _ _ _ _ _ _ _ _ _ _ _ _ _ _ _ _ _ Hpoll Htp)
        as Hb.
      destruct (now - start <? timediff)%Z.
      * destruct Hb as (r & t3 & ->). eexists r, _. reflexivity.
      * destruct Hb as [_ Ho]. discriminate Ho.
  - destruct (h (EndStream streamer) w1) as [[y|[]] w2]; cbn;
      intros [= <- <- <- <-] H; exfalso; revert H; apply no_reading_inside;
      rewrite ?app_nil_r; apply Forall_app; split; try exact Hno;
      repeat constructor; discriminate.
  - intros [= <- <- <- <-] H. exfalso. revert H. apply no_reading_inside.
    exact Hno.
Qed.
End Try.

(** C10. With [timeout_in_minutes] equal to 0 the function returns at once:
    whatever the environment, it makes no call at all and does not raise.
    With [timeout_in_minutes] None it runs as with 10, on a budget of 10
    minutes of 60 seconds, counted from its first reading of the clock.  In
    every environment, each later reading decides on that budget: with less
    than the 10 minutes gone the next call is the sleep of another turn, and
    otherwise the next call ends the stream, is the last one, and the
    function raises TimeoutError (or what ending the stream raised).  And
    under a clock that only sleeping advances, once the request has a first
    event and as long as no message is a success or a failure string, the
    function does raise TimeoutError, after no less than the 10 minutes and
    less than one sleep more. *)
Theorem wait_for_success_events_zero_and_default :
  forall (responses strings prompts : string -> string) (fuel : nat)
         (request_id : option string) (sleep_time : Z)
         (stream_events can_abort : bool),
    (forall (W : Type) (h : env external R W) (w : W),
        run h (wait_for_success_events responses strings prompts fuel request_id
                 (Some 0%Z) sleep_time stream_events can_abort) tt w
        = (Returned tt, tt, w, []))
    /\ wait_for_success_events responses strings prompts fuel request_id
         None sleep_time stream_events can_abort
       = wait_for_success_events responses strings prompts fuel request_id
           (Some 10%Z) sleep_time stream_events can_abort
    /\ (forall (W : Type) (h : env external R W) (w w' : W) (o : outcome unit)
               (s' : unit) (t t1 t2 : list (entry external R)) (start now : Z),
          run h (wait_for_success_events responses strings prompts fuel request_id
                   None sleep_time stream_events can_abort) tt w
          = (o, s', w', t) ->
          t = reading start :: (t1 ++ reading now :: t2)%list ->
          if (now - start <? timedelta_seconds (10 * 60))%Z
          then exists r t3, t2 = existT (Sleep sleep_time) r :: t3
          else exists streamer (r : exn + unit),
                 t2 = [existT (EndStream streamer) r]
                 /\ o = Raised
                          match r with
                          | inl x => x
                          | inr _ =>
                              TimeoutError
                                "Timed out while waiting for command to Complete"
                          end)
    /\ (forall (first : list Event) (later : Z -> option Z -> list Event)
               (clock : Z),
          first <> [] ->
          no_match responses prompts first ->
          (forall c l, no_match responses prompts (later c l)) ->
          (0 < sleep_time)%Z ->
          (timedelta_seconds (10 * 60)
           <= Z.of_nat fuel * timedelta_seconds sleep_time)%Z ->
          exists clock' t,
            run (advancing first later)
              (wait_for_success_events responses strings prompts (S fuel)
                 request_id None sleep_time stream_events can_abort) tt clock
            = (Raised
                 (TimeoutError "Timed out while waiting for command to Complete"),
               tt, clock', t)
            /\ (timedelta_seconds (10 * 60) <= clock' - clock
                < timedelta_seconds (10 * 60) + timedelta_seconds sleep_time)%Z).
Proof.
  intros responses strings prompts fuel rid sleep stream abort.
  split; [intros; reflexivity|]. split; [reflexivity|]. split.
  - intros W h w w' o s' t t1 t2 start now Hrun Ht.
    unfold wait_for_success_events in Hrun.
    rewrite bool_decide_eq_false_2 in Hrun by discriminate.
    cbn [default] in Hrun. cbn -[poll first_events Z.mul] in Hrun.
    destruct (h Now w) as [[x|start0] w1]; cbn -[poll first_events Z.mul] in Hrun.
    { injection Hrun as <- <- <- <-. apply (f_equal tail) in Ht. simpl in Ht.
      destruct t1; discriminate. }
    destruct (h GetEventStreamer w1) as [[x|streamer] w2];
      cbn -[poll first_events Z.mul] in Hrun.
    { injection Hrun as <- <- <- <-. apply reading_head in Ht as [_ Ht].
      destruct t1 as [|? [|? ?]]; discriminate. }
    rewrite run_bind in Hrun.
    assert (Hrest : forall (w3 : W) (pre : list (entry external R)) o3 s3 w4 tr,
               Forall no_reading pre ->
               run h
                 (let* returned :=
                    try_finally
                      (let* first :=
                         first_events responses prompts rid sleep stream streamer
                           fuel in
                       match first with
                       | FirstReturn => Ret true
                       | FirstDone app env last_time =>
                           poll responses prompts sleep stream streamer start0
                             (timedelta_seconds (10 * 60)) fuel app env last_time
                       end)
                      (call (EndStream streamer)) in
                  if returned : bool then Ret tt
                  else Raise (TimeoutError
                                "Timed out while waiting for command to Complete"))
                 tt w3 = (o3, s3, w4, tr) ->
               (o3, s3, w4, existT Now (inr start0) :: (pre ++ tr)%list)
               = (o, s', w', t) ->
               if (now - start <? timedelta_seconds (10 * 60))%Z
               then exists r t3, t2 = existT (Sleep sleep) r :: t3
               else exists streamer (r : exn + unit),
                      t2 = [existT (EndStream streamer) r]
                      /\ o = Raised
                               match r with
                               | inl x => x
                               | inr _ =>
                                   TimeoutError
                                     "Timed out while waiting for command to Complete"
                               end).
    { intros w3 pre o3 s3 w4 tr Hpre Htry [= <- <- <- <-].
      apply reading_head in Ht as [Hstart Ht]. simpl in Hstart.
      injection Hstart as <-.
      destruct (reading_after _ _ _ _ _ Hpre Ht) as (t1' & Htr).
      pose proof (try_budget _ _ _ _ _ _ _ _ _ _ _ _ _ _ _ _ _ _ Htry Htr) as Hb.
      destruct (now - start0 <? timedelta_seconds (10 * 60))%Z.
      - exact Hb.
      - exists streamer. exact Hb. }
    destruct abort; cbn -[poll first_events Z.mul] in Hrun.
    + destruct (h (AppendPrompt _ _) w2) as [[x|[]] w3];
        cbn -[poll first_events Z.mul] in Hrun.
      { injection Hrun as <- <- <- <-. apply reading_head in Ht as [_ Ht].
        destruct t1 as [|? [|? [|? ?]]]; discriminate. }
      match type of Hrun with
      | context [run h ?p tt w3] =>
          destruct (run h p tt w3) as [[[o3 s3] w4] tr] eqn:Htry
      end.
      apply (Hrest w3 [existT GetEventStreamer (inr streamer);
                       existT (AppendPrompt streamer (strings "events.abortmessage"))
                         (inr tt)] o3 s3 w4 tr);
        [repeat constructor; discriminate | exact Htry | exact Hrun].
    + match type of Hrun with
      | context [run h ?p tt w2] =>
          destruct (run h p tt w2) as [[[o3 s3] w4] tr] eqn:Htry
      end.
      apply (Hrest w2 [existT GetEventStreamer (inr streamer)] o3 s3 w4 tr);
        [repeat constructor; discriminate | exact Htry | exact Hrun].
  - intros first later clock Hfirst Hno Hlater Hsleep Hfuel.
    unfold wait_for_success_events.
    rewrite bool_decide_eq_false_2 by discriminate.
    destruct (last first) as [e|] eqn:Hlast; [|apply last_None in Hlast; contradiction].
    assert (He : _is_success_string responses prompts (message e) = inr false).
    { apply last_Some in Hlast as [l ->]. apply Forall_app in Hno as [_ Hno].
      apply Forall_cons in Hno as [He _]. exact He. }
    destruct (poll_stops_within_one_sleep responses prompts first later sleep stream
                1%positive clock (timedelta_seconds (10 * 60))
                (app_name e) (environment_name e) Hlater
                ltac:(unfold timedelta_seconds; lia) (S fuel) clock
                (Some (event_date e))) as (clock' & t & Hpoll & Hdone); [lia| | |].
    { unfold timedelta_seconds in *. lia. }
    { replace (Z.of_nat (S fuel) - 1)%Z with (Z.of_nat fuel) by lia. lia. }
    destruct abort, stream; cbn -[poll]; rewrite Hlast; cbn -[poll]; rewrite He;
      cbn -[poll]; rewrite run_bind, run_try_finally, Hpoll; cbn;
      eexists _, _; (split; [reflexivity|unfold timedelta_seconds in *; lia]).
Qed.

(** A request whose first event is there at once and that has no other. *)
Definition starting : Event :=
  {| message := "createEnvironment is starting."; severity := "INFO";
     event_date := 0; app_name := "app"; environment_name := "env" |}.

Definition quiet : env external R Z := advancing [starting] (fun _ _ => []).

Lemma run_record {A B C D : Type} (r : A * B * C * D) :
  r = (r.1.1.1, r.1.1.2, r.1.2, r.2).
Proof. destruct r as [[[a b] c] d]. reflexivity. Qed.

Lemma wait_for_success_events_zero_and_default_witness :
  (exists clock' t,
     run quiet
       (wait_for_success_events (fun k => k) (fun k => k) (fun k => k) 3
          (Some "req-1") None 300 true false) tt 0
     = (Raised (TimeoutError "Timed out while waiting for command to Complete"),
        tt, clock', t)
     /\ (timedelta_seconds (10 * 60) <= clock' - 0
         < timedelta_seconds (10 * 60) + timedelta_seconds 300)%Z)
  /\ (let r := run quiet
                 (wait_for_success_events (fun k => k) (fun k => k) (fun k => k) 2
                    (Some "req-1") None 300 true false) tt 0 in
      if (300000000 - 0 <? timedelta_seconds (10 * 60))%Z
      then exists a t3, skipn 8 r.2 = existT (Sleep 300) a :: t3
      else exists streamer (a : exn + unit),
             skipn 8 r.2 = [existT (EndStream streamer) a]
             /\ r.1.1.1
                = Raised
                    match a with
                    | inl x => x
                    | inr _ =>
                        TimeoutError "Timed out while waiting for command to Complete"
                    end).
Proof.
  pose proof (wait_for_success_events_zero_and_default
                (fun k => k) (fun k => k) (fun k => k) 2 (Some "req-1") 300 true
                false) as (_ & _ & Hbudget & Hdeadline).
  split.
  - apply Hdeadline.
    + discriminate.
    + repeat constructor.
    + intros c l. constructor.
    + lia.
    + vm_compute. discriminate.
  - refine (Hbudget Z quiet 0 _ _ _ _
              [existT GetEventStreamer (inr 1%positive);
               existT (GetNewEvents None None (Some "req-1") None) (inr [starting]);
               existT (StreamEvent 1%positive "INFO: createEnvironment is starting.")
                 (inr tt);
               reading 0;
               existT (Sleep 300) (inr tt);
               existT (GetNewEvents (Some "app") (Some "env") None (Some 0%Z)) (inr [])]
              _ 0%Z 300000000%Z (run_record _) _).
    vm_compute. reflexivity.
Defined.

End BudgetFacts.

(** ** Facts on compose.py *)

Module ComposeFacts.
Import Compose.

Lemma for_each_inr {A B : Type} (f : A -> exn + B) (l : list A) (ys : list B) :
  for_each f l = inr ys <-> Forall2 (fun x y => f x = inr y) l ys.
Proof.
  revert ys. induction l as [|x l IH]; intros ys; simpl.
  - split.
    + intros [= <-]. constructor.
    + intros H. inversion H. reflexivity.
  - destruct (f x) as [e|y] eqn:Hx; simpl.
    + split; [discriminate|]. intros H. inversion H; subst. congruence.
    + destruct (for_each f l) as [e|ys'] eqn:Hl; simpl.
      * split; [discriminate|]. intros H. inversion H as [|? ? ? ys'' ? Hrest]; subst.
        apply IH in Hrest. discriminate.
      * split.
        -- intros [= <-]. constructor; [exact Hx | apply IH; reflexivity].
        -- intros H. inversion H as [|? y' ? ys'' Hy Hrest]; subst.
           apply IH in Hrest. injection Hrest as <-. congruence.
Qed.

Lemma for_each_inl {A B : Type} (f : A -> exn + B) (l : list A) (x : A) (e : exn) :
  x ∈ l -> f x = inl e -> exists e', for_each f l = inl e'.
Proof.
  induction l as [|a l IH]; [intros H; inversion H|].
  intros [->|Hin]%elem_of_cons Hx; simpl.
  - rewrite Hx. eexists. reflexivity.
  - destruct (f a); simpl; [eexists; reflexivity|].
    destruct (IH Hin Hx) as [e' ->]. eexists. reflexivity.
Qed.

(** *** Strings *)

Lemma str_remove_absent (c : ascii) (s : string) :
  ~ In c (list_ascii_of_string (str_remove c s)).
Proof.
  induction s as [|a s IH]; simpl; [tauto|].
  destruct (Ascii.eqb_spec a c) as [->|Hne]; [exact IH|].
  simpl. intros [H|H]; [contradiction | exact (IH H)].
Qed.

Lemma str_remove_unchanged (c : ascii) (s : string) :
  ~ In c (list_ascii_of_string s) -> str_remove c s = s.
Proof.
  induction s as [|a s IH]; simpl; [reflexivity|].
  intros H. destruct (Ascii.eqb_spec a c) as [->|Hne]; [tauto|].
  rewrite IH by tauto. reflexivity.
Qed.

Lemma str_remove_app (c : ascii) (s1 s2 : string) :
  str_remove c (s1 +:+ s2) = str_remove c s1 +:+ str_remove c s2.
Proof.
  induction s1 as [|a s1 IH]; simpl; [reflexivity|].
  destruct (Ascii.eqb a c); simpl; rewrite IH; reflexivity.
Qed.

Lemma startswith_split (s p : string) :
  startswith s p = true -> s = p +:+ str_drop (String.length p) s.
Proof.
  unfold startswith. revert s. induction p as [|a p IH]; intros s.
  - destruct s; reflexivity.
  - destruct s as [|b s]; simpl; [intros H; discriminate H|].
    destruct (Ascii.ascii_dec a b) as [->|]; [|intros H; discriminate H].
    intros H. change (String b s = String b (p +:+ str_drop (String.length p) s)).
    f_equal. apply IH. exact H.
Qed.

(** X2. A container's service name has no dash, is the container name when
    that has none, and is the same for names that differ only in dashes. *)
Theorem fakename_removes_dashes :
  forall (realname : pyval) (alias : string),
    _fakename realname = inr alias ->
    ~ In "-"%char (list_ascii_of_string alias)
    /\ _fakename (VStr alias) = inr alias
    /\ (forall s, realname = VStr s -> ~ In "-"%char (list_ascii_of_string s) -> alias = s)
    /\ (forall a b, realname = VStr (a +:+ "-" +:+ b) ->
          _fakename (VStr (a +:+ b)) = inr alias).
Proof.
  intros realname alias H. destruct realname as [| | |s| |]; try discriminate H.
  injection H as <-. repeat split.
  - apply str_remove_absent.
  - simpl. rewrite str_remove_unchanged by apply str_remove_absent. reflexivity.
  - intros s' [= <-] Hs. apply str_remove_unchanged. exact Hs.
  - intros a b [= ->]. simpl. rewrite !str_remove_app. reflexivity.
Qed.

Lemma fakename_removes_dashes_witness :
  ~ In "-"%char (list_ascii_of_string "webapp1")
  /\ _fakename (VStr "webapp1") = inr "webapp1"
  /\ (forall s, VStr "web-app-1" = VStr s ->
        ~ In "-"%char (list_ascii_of_string s) -> "webapp1" = s)
  /\ (forall a b, VStr "web-app-1" = VStr (a +:+ "-" +:+ b) ->
        _fakename (VStr (a +:+ b)) = inr "webapp1").
Proof.
  apply (fakename_removes_dashes (VStr "web-app-1") "webapp1"). reflexivity.
Defined.

(** X3. [_get_port_maps] of a list returns, in order, one
    ["hostPort:containerPort"] string for each mapping, and it returns only
    when every mapping has both keys. *)
Theorem get_port_maps_one_per_mapping :
  forall (str_of : pyval -> string) (dict_keys : gmap string pyval -> list string)
         (mappings : list pyval) (ports : list string),
    _get_port_maps str_of dict_keys (VList mappings) = inr ports
    <-> Forall2 (fun m p =>
                   exists hostport containerport,
                     py_getitem m CONTAINER_DEF_HOSTPORT_KEY = inr hostport
                     /\ py_getitem m CONTAINER_DEF_CONTAINERPORT_KEY = inr containerport
                     /\ p = str_of hostport +:+ ":" +:+ str_of containerport)
                mappings ports.
Proof.
  intros str_of dict_keys mappings ports. unfold _get_port_maps. simpl.
  rewrite for_each_inr. split; intros H.
  - eapply Forall2_impl; [exact H|]. intros m p Hm. simpl in Hm.
    destruct (py_getitem m CONTAINER_DEF_HOSTPORT_KEY) as [e|hp]; [discriminate|].
    destruct (py_getitem m CONTAINER_DEF_CONTAINERPORT_KEY) as [e|cp]; [discriminate|].
    simpl in Hm. injection Hm as <-. exists hp, cp. repeat split.
  - eapply Forall2_impl; [exact H|]. intros m p (hp & cp & -> & -> & ->). reflexivity.
Qed.

Section VolumeMap.
Variable path_join : string -> string -> string.

(** A volume the map takes: hashable name [k], source path [rel] under
    /var/app/current/. *)
Definition app_volume (volume : pyval) (k : key) (rel : string) : Prop :=
  exists name host,
    py_getitem volume VOLUMES_NAME_KEY = inr name
    /\ py_key name = inr k
    /\ py_getitem volume VOLUMES_HOST_KEY = inr host
    /\ py_getitem host VOLUMES_SOURCE_PATH_KEY = inr (VStr (VAR_APP_CURRENT +:+ rel)).

Lemma app_volume_under (volume host : pyval) (src : string) (k : key) (rel : string) :
  py_getitem volume VOLUMES_HOST_KEY = inr host ->
  py_getitem host VOLUMES_SOURCE_PATH_KEY = inr (VStr src) ->
  app_volume volume k rel ->
  startswith src VAR_APP_CURRENT = true
  /\ rel = str_drop (String.length VAR_APP_CURRENT) src.
Proof.
  intros Hhost Hsrc (name' & host' & _ & _ & Hh & Hs).
  rewrite Hhost in Hh. injection Hh as <-. rewrite Hsrc in Hs. injection Hs as ->.
  split.
  - unfold startswith. clear. induction VAR_APP_CURRENT as [|a p IHp]; simpl.
    + destruct rel; reflexivity.
    + destruct (Ascii.ascii_dec a a); [exact IHp | contradiction].
  - reflexivity.
Qed.

(** One turn of the loop: the volumes still to come continue from a map in
    which a volume under /var/app/current/ has its local path. *)
Lemma volume_map_loop_step (proj : string) (volume : pyval) (rest : list pyval)
    (acc vmap : list (key * string)) :
  volume_map_loop path_join proj (volume :: rest) acc = inr vmap ->
  exists acc',
    volume_map_loop path_join proj rest acc' = inr vmap
    /\ (forall k rel, app_volume volume k rel ->
          assoc_get acc' k = Some (path_join proj rel))
    /\ (forall k, (forall rel, ~ app_volume volume k rel) ->
          assoc_get acc' k = assoc_get acc k)
    /\ (forall k, (forall rel, ~ app_volume volume k rel)
                  \/ exists rel, app_volume volume k rel).
Proof.
  simpl.
  destruct (py_getitem volume VOLUMES_NAME_KEY) as [e|name] eqn:Hname;
    [discriminate|]. simpl.
  destruct (py_getitem volume VOLUMES_HOST_KEY) as [e|host] eqn:Hhost;
    [discriminate|]. simpl.
  destruct (py_getitem host VOLUMES_SOURCE_PATH_KEY) as [e|source] eqn:Hsrc;
    [discriminate|]. simpl.
  destruct source as [| | |src| |]; simpl; try discriminate.
  destruct (startswith src VAR_APP_CURRENT) eqn:Hunder.
  - destruct (py_key name) as [e|k'] eqn:Hkey; [discriminate|]. simpl.
    intros Hloop. eexists. split; [exact Hloop|].
    assert (Happ : app_volume volume k'
                     (str_drop (String.length VAR_APP_CURRENT) src)).
    { exists name, host. rewrite <- (startswith_split _ _ Hunder). auto. }
    split; [|split].
    + intros k rel Hv.
      destruct (app_volume_under _ _ _ _ _ Hhost Hsrc Hv) as [_ ->].
      destruct Hv as (name' & _ & Hn & Hk & _).
      rewrite Hname in Hn. injection Hn as <-. rewrite Hkey in Hk. injection Hk as <-.
      simpl. rewrite decide_True by reflexivity. reflexivity.
    + intros k Hnot. simpl. destruct (decide (k' = k)) as [<-|Hne]; [|reflexivity].
      contradiction (Hnot _ Happ).
    + intros k. destruct (decide (k' = k)) as [<-|Hne].
      * right. eexists. exact Happ.
      * left. intros rel (name' & _ & Hn & Hk & _).
        rewrite Hname in Hn. injection Hn as <-. congruence.
  - intros Hloop. exists acc. split; [exact Hloop|]. split; [|split].
    + intros k rel Hv.
      destruct (app_volume_under _ _ _ _ _ Hhost Hsrc Hv) as [Hyes _]. congruence.
    + reflexivity.
    + intros k. left. intros rel Hv.
      destruct (app_volume_under _ _ _ _ _ Hhost Hsrc Hv) as [Hyes _]. congruence.
Qed.

(** The loop leaves a name alone that no volume still to come has. *)
Lemma volume_map_loop_others (proj : string) (volumes : list pyval) (k : key) :
  forall acc vmap,
    volume_map_loop path_join proj volumes acc = inr vmap ->
    (forall v rel, v ∈ volumes -> ~ app_volume v k rel) ->
    assoc_get vmap k = assoc_get acc k.
Proof.
  induction volumes as [|volume rest IH]; intros acc vmap Hloop Hnone.
  - injection Hloop as <-. reflexivity.
  - destruct (volume_map_loop_step _ _ _ _ _ Hloop) as (acc' & Hrest & _ & Hkeep & _).
    rewrite (IH acc' vmap Hrest).
    + apply Hkeep. intros rel. apply Hnone. left.
    + intros v rel Hin. apply Hnone. right. exact Hin.
Qed.

(** The last volume of a name under /var/app/current/ gives the name its
    path. *)
Lemma volume_map_loop_last (proj : string) (before : list pyval) (volume : pyval)
    (after : list pyval) (k : key) (rel : string) :
  forall acc vmap,
    volume_map_loop path_join proj (before ++ volume :: after) acc = inr vmap ->
    app_volume volume k rel ->
    (forall v rel', v ∈ after -> ~ app_volume v k rel') ->
    assoc_get vmap k = Some (path_join proj rel).
Proof.
  induction before as [|v0 before IH]; intros acc vmap Hloop Hv Hafter.
  - destruct (volume_map_loop_step _ _ _ _ _ Hloop) as (acc' & Hrest & Hset & _).
    rewrite (volume_map_loop_others _ _ _ _ _ Hrest Hafter). exact (Hset k rel Hv).
  - destruct (volume_map_loop_step _ _ _ _ _ Hloop) as (acc' & Hrest & _).
    exact (IH acc' vmap Hrest Hv Hafter).
Qed.

(** A name of the map is the name of a volume under /var/app/current/, and
    has the path of the last one. *)
Lemma volume_map_loop_sound (proj : string) (volumes : list pyval) (k : key) :
  forall acc vmap,
    volume_map_loop path_join proj volumes acc = inr vmap ->
    (assoc_get vmap k = assoc_get acc k
     /\ forall v rel, v ∈ volumes -> ~ app_volume v k rel)
    \/ exists before volume after rel,
         volumes = (before ++ volume :: after)%list
         /\ app_volume volume k rel
         /\ (forall v rel', v ∈ after -> ~ app_volume v k rel')
         /\ assoc_get vmap k = Some (path_join proj rel).
Proof.
  induction volumes as [|volume rest IH]; intros acc vmap Hloop.
  - injection Hloop as <-. left. split; [reflexivity|]. intros v rel Hin.
    inversion Hin.
  - destruct (volume_map_loop_step _ _ _ _ _ Hloop)
      as (acc' & Hrest & Hset & Hkeep & Hcase).
    destruct (IH acc' vmap Hrest) as [[Hsame Hnone]|(b & v & a & rel & -> & Hv & Ha & Hget)].
    + destruct (Hcase k) as [Hno|[rel Hv]].
      * left. split; [rewrite Hsame; exact (Hkeep k Hno)|].
        intros v rel [->|Hin]%elem_of_cons; [exact (Hno rel)|exact (Hnone v rel Hin)].
      * right. exists [], volume, rest, rel. split; [reflexivity|].
        split; [exact Hv|]. split; [exact Hnone|].
        rewrite Hsame. exact (Hset k rel Hv).
    + right. exists (volume :: b), v, a, rel. split; [reflexivity|].
      split; [exact Hv|]. split; [exact Ha|exact Hget].
Qed.
End VolumeMap.

(** X4. The volume map built from a list of volumes has exactly the names of
    the volumes whose source path lies under /var/app/current/ (a volume
    elsewhere adds nothing), and the last volume of a name wins: the name is
    mapped to the path of the last such volume of that name, relative to
    /var/app/current/ and joined to the project directory. *)
Theorem get_volume_map_app_volumes :
  forall (dict_keys : gmap string pyval -> list string)
         (path_join : string -> string -> string)
         (volumes : list pyval) (docker_proj_path : string)
         (vmap : list (key * string)),
    _get_volume_map dict_keys path_join (VList volumes) docker_proj_path = inr vmap ->
    (forall k p,
        assoc_get vmap k = Some p ->
        exists before volume after rel,
          volumes = (before ++ volume :: after)%list
          /\ app_volume volume k rel
          /\ (forall v rel', v ∈ after -> ~ app_volume v k rel')
          /\ p = path_join docker_proj_path rel)
    /\ (forall before volume after k rel,
          volumes = (before ++ volume :: after)%list ->
          app_volume volume k rel ->
          (forall v rel', v ∈ after -> ~ app_volume v k rel') ->
          assoc_get vmap k = Some (path_join docker_proj_path rel))
    /\ (forall volume k rel,
          volume ∈ volumes -> app_volume volume k rel -> is_Some (assoc_get vmap k)).
Proof.
  intros dict_keys path_join volumes proj vmap H. unfold _get_volume_map in H.
  simpl in H. split; [|split].
  - intros k p Hget.
    destruct (volume_map_loop_sound path_join proj volumes k [] vmap H)
      as [[Hsame _]|(b & v & a & rel & Hv & Happ & Hafter & Hlast)].
    + rewrite Hsame in Hget. discriminate Hget.
    + exists b, v, a, rel. split; [exact Hv|]. split; [exact Happ|].
      split; [exact Hafter|]. congruence.
  - intros before volume after k rel -> Happ Hafter.
    exact (volume_map_loop_last path_join proj before volume after k rel [] vmap H
             Happ Hafter).
  - intros volume k rel Hin Happ.
    destruct (volume_map_loop_sound path_join proj volumes k [] vmap H)
      as [[_ Hnone]|(b & v & a & rel' & _ & _ & _ & Hlast)].
    + contradiction (Hnone volume rel Hin Happ).
    + rewrite Hlast. eexists. reflexivity.
Qed.

(** Two volumes of one name, and one that is not under /var/app/current/. *)
Definition static_volumes : list pyval :=
  [VDict {[ "name" := VStr "static";
            "host" := VDict {[ "sourcePath" := VStr "/var/app/current/first" ]} ]};
   VDict {[ "name" := VStr "static";
            "host" := VDict {[ "sourcePath" := VStr "/var/app/current/second" ]} ]};
   VDict {[ "name" := VStr "docker-sock";
            "host" := VDict {[ "sourcePath" := VStr "/var/run/docker.sock" ]} ]}].

Lemma get_volume_map_app_volumes_witness :
  let vmap := [(KStr "static", "/proj/second"); (KStr "static", "/proj/first")] in
  (forall k p,
      assoc_get vmap k = Some p ->
      exists before volume after rel,
        static_volumes = (before ++ volume :: after)%list
        /\ app_volume volume k rel
        /\ (forall v rel', v ∈ after -> ~ app_volume v k rel')
        /\ p = (fun a b => a +:+ "/" +:+ b) "/proj" rel)
  /\ (forall before volume after k rel,
        static_volumes = (before ++ volume :: after)%list ->
        app_volume volume k rel ->
        (forall v rel', v ∈ after -> ~ app_volume v k rel') ->
        assoc_get vmap k = Some ((fun a b => a +:+ "/" +:+ b) "/proj" rel))
  /\ (forall volume k rel,
        volume ∈ static_volumes -> app_volume volume k rel ->
        is_Some (assoc_get vmap k)).
Proof.
  apply (get_volume_map_app_volumes (fun _ => []) (fun a b => a +:+ "/" +:+ b)
           static_volumes "/proj"
           [(KStr "static", "/proj/second"); (KStr "static", "/proj/first")]).
  vm_compute. reflexivity.
Defined.

(** *** Services *)

(** A key of a service that is set only when there is something to set. *)
Definition put_if (k : string) (ov : option pyval) (m : gmap string pyval)
    : gmap string pyval :=
  match ov with
  | Some v => <[k := v]> m
  | None => m
  end.

Lemma lookup_put_if_eq (k : string) (ov : option pyval) (m : gmap string pyval) :
  put_if k ov m !! k = match ov with Some v => Some v | None => m !! k end.
Proof. destruct ov; simpl; [apply lookup_insert_eq|reflexivity]. Qed.

Lemma lookup_put_if_ne (k k' : string) (ov : option pyval) (m : gmap string pyval) :
  k <> k' -> put_if k ov m !! k' = m !! k'.
Proof. intros Hne. destruct ov; simpl; [apply lookup_insert_ne; exact Hne|reflexivity]. Qed.

(** What a mount point gives a service: nothing, a volume of the project, or
    a volume for logs, whose directory is created. *)
Inductive mount : Type :=
| NoVolume
| ProjectVolume (volume : string)
| LogVolume (directory volume : string).

Definition volume_of (m : mount) : option string :=
  match m with
  | NoVolume => None
  | ProjectVolume volume => Some volume
  | LogVolume _ volume => Some volume
  end.

Definition directory_of (m : mount) : option string :=
  match m with
  | LogVolume directory _ => Some directory
  | _ => None
  end.

Section Services.
Import PyFacts.
Context {W : Type}.
Variables (str_of : pyval -> string)
          (dict_keys : gmap string pyval -> list string)
          (path_join : string -> string -> string).
Variables (h : env external R W) (host_log : string).
Variables (volume_map : list (key * string)) (envvars_map : pyval).

(** The entry of a mount point among the volumes of a service:
    [src_path:container_path], with [:ro] when the mount point is read
    only. *)
Definition volume_entry (src_path : string) (container_path read_only : pyval)
    : string :=
  let volume := src_path +:+ ":" +:+ str_of container_path in
  if py_truthy read_only then volume +:+ READ_ONLY_VOLUME else volume.

(** The mount of a mount point.  A source volume that is a name of the volume
    map is mounted from its local path; any other one whose name starts with
    awseb-logs- is mounted from [os.path.join(host_log, rest of the name)];
    the others are not mounted. *)
Definition mount_of (mp : pyval) (m : mount) : Prop :=
  exists src_vol container_path read_only k,
    py_getitem mp SOURCE_VOLUME_KEY = inr src_vol
    /\ py_getitem mp CONTAINER_PATH_KEY = inr container_path
    /\ py_get mp READ_ONLY_KEY VNone = inr read_only
    /\ py_key src_vol = inr k
    /\ match assoc_get volume_map k with
       | Some src_path =>
           m = ProjectVolume (volume_entry src_path container_path read_only)
       | None =>
           exists logs,
             py_startswith src_vol AWSEB_LOGS = inr logs
             /\ m = if logs : bool
                    then
                      let directory :=
                        path_join host_log
                          (py_str_drop (String.length AWSEB_LOGS) src_vol) in
                      LogVolume directory
                        (volume_entry directory container_path read_only)
                    else NoVolume
       end.

Lemma mount_of_functional (mp : pyval) (m m' : mount) :
  mount_of mp m -> mount_of mp m' -> m = m'.
Proof.
  intros (sv & cp & ro & k & Hsv & Hcp & Hro & Hk & Hm)
         (sv' & cp' & ro' & k' & Hsv' & Hcp' & Hro' & Hk' & Hm').
  rewrite Hsv in Hsv'. injection Hsv' as <-.
  rewrite Hcp in Hcp'. injection Hcp' as <-.
  rewrite Hro in Hro'. injection Hro' as <-.
  rewrite Hk in Hk'. injection Hk' as <-.
  destruct (assoc_get volume_map k) as [src_path|]; [congruence|].
  destruct Hm as (logs & Hl & ->). destruct Hm' as (logs' & Hl' & ->).
  rewrite Hl in Hl'. injection Hl' as <-. reflexivity.
Qed.

(** A mount point for logs: its source volume is no name of the volume map
    and is awseb-logs- followed by [dirname]; [path] is
    [os.path.join(host_log, dirname)]. *)
Definition log_mount (mp : pyval) (path : string) : Prop :=
  exists dirname,
    py_getitem mp SOURCE_VOLUME_KEY = inr (VStr (AWSEB_LOGS +:+ dirname))
    /\ assoc_get volume_map (KStr (AWSEB_LOGS +:+ dirname)) = None
    /\ path = path_join host_log dirname.

Lemma log_volume_mount (mp : pyval) (path volume : string) :
  mount_of mp (LogVolume path volume) -> log_mount mp path.
Proof.
  intros (sv & cp & ro & k & Hsv & _ & _ & Hk & Hm).
  destruct (assoc_get volume_map k) as [src_path|] eqn:Hmap; [discriminate Hm|].
  destruct Hm as (logs & Hl & Hm). destruct sv as [| | |name| |]; try discriminate Hl.
  injection Hl as <-. injection Hk as <-.
  destruct (startswith name AWSEB_LOGS) eqn:Hstart; [|discriminate Hm].
  injection Hm as -> _. exists (str_drop (String.length AWSEB_LOGS) name).
  rewrite <- (startswith_split _ _ Hstart). auto.
Qed.

Lemma log_mount_volume (mp : pyval) (path : string) (m : mount) :
  log_mount mp path -> mount_of mp m -> directory_of m = Some path.
Proof.
  intros (dirname & Hsrc & Hmap & ->) (sv & cp & ro & k & Hsv & _ & _ & Hk & Hm).
  rewrite Hsrc in Hsv. injection Hsv as <-. injection Hk as <-.
  rewrite Hmap in Hm. destruct Hm as (logs & Hl & ->). injection Hl as <-.
  cbn. destruct dirname; reflexivity.
Qed.

(** The loop over the mount points leaves the services alone, creates the
    directories of the mounts for logs, in order, and returns the volumes of
    the mounts. *)
Lemma mount_loop_run (mountpoints : list pyval) :
  forall (volumes : list string) (s : gmap string pyval) (w : W) o s' w' t,
    run h (mount_loop str_of path_join volume_map host_log mountpoints volumes) s w
    = (o, s', w', t) ->
    s' = s
    /\ exists done rest mounts,
         mountpoints = (done ++ rest)%list
         /\ Forall2 mount_of done mounts
         /\ calls t = Makedirs <$> omap directory_of mounts
         /\ forall volumes',
              o = Returned volumes' ->
              rest = [] /\ volumes' = (volumes ++ omap volume_of mounts)%list.
Proof.
  induction mountpoints as [|mp rest IH]; intros volumes s w o s' w' t.
  { simpl. intros [= <- <- <- <-]. split; [reflexivity|]. exists [], [], [].
    split; [reflexivity|]. split; [constructor|]. split; [reflexivity|].
    intros volumes' [= <-]. rewrite app_nil_r. auto. }
  assert (Hfail : forall x w1,
             (Raised x : outcome (list string), s, w1, @nil (entry external R))
             = (o, s', w', t) ->
             s' = s
             /\ exists done rest0 mounts,
                  mp :: rest = (done ++ rest0)%list
                  /\ Forall2 mount_of done mounts
                  /\ calls t = Makedirs <$> omap directory_of mounts
                  /\ forall volumes',
                       o = Returned volumes' ->
                       rest0 = [] /\ volumes' = (volumes ++ omap volume_of mounts)%list).
  { intros x w1 [= <- <- <- <-]. split; [reflexivity|]. exists [], (mp :: rest), [].
    split; [reflexivity|]. split; [constructor|]. split; [reflexivity|].
    discriminate. }
  cbn [mount_loop]. unfold lift.
  destruct (py_getitem mp SOURCE_VOLUME_KEY) as [e|src_vol] eqn:Hsv; simpl;
    [apply Hfail|].
  destruct (py_getitem mp CONTAINER_PATH_KEY) as [e|container_path] eqn:Hcp; simpl;
    [apply Hfail|].
  destruct (py_get mp READ_ONLY_KEY VNone) as [e|read_only] eqn:Hro; simpl;
    [apply Hfail|].
  destruct (py_key src_vol) as [e|k] eqn:Hk; simpl; [apply Hfail|].
  assert (Hnext : forall (m : mount) (volumes1 : list string) w1 tc o1 s1 w2 t1,
             mount_of mp m ->
             volumes1 = (volumes ++ match volume_of m with
                                    | Some v => [v]
                                    | None => []
                                    end)%list ->
             calls tc = Makedirs <$> match directory_of m with
                                     | Some d => [d]
                                     | None => []
                                     end ->
             run h (mount_loop str_of path_join volume_map host_log rest volumes1) s w1
             = (o1, s1, w2, t1) ->
             (o1, s1, w2, (tc ++ t1)%list) = (o, s', w', t) ->
             s' = s
             /\ exists done rest0 mounts,
                  mp :: rest = (done ++ rest0)%list
                  /\ Forall2 mount_of done mounts
                  /\ calls t = Makedirs <$> omap directory_of mounts
                  /\ forall volumes',
                       o = Returned volumes' ->
                       rest0 = [] /\ volumes' = (volumes ++ omap volume_of mounts)%list).
  { intros m volumes1 w1 tc o1 s1 w2 t1 Hm -> Htc Hrest [= <- <- <- <-].
    destruct (IH _ _ _ _ _ _ _ Hrest) as (-> & done & rest0 & mounts & -> & Hdone & Hcalls & Hret).
    split; [reflexivity|]. exists (mp :: done), rest0, (m :: mounts).
    split; [reflexivity|]. split; [constructor; assumption|]. split.
    - assert (Happ : calls (tc ++ t1) = (calls tc ++ calls t1)%list)
        by apply map_app.
      rewrite Happ, Htc, Hcalls. destruct m; reflexivity.
    - intros volumes' Ho. destruct (Hret volumes' Ho) as [-> ->].
      split; [reflexivity|]. rewrite <- app_assoc. destruct m; reflexivity. }
  destruct (assoc_get volume_map k) as [src_path|] eqn:Hmap; simpl.
  { destruct (run h (mount_loop _ _ _ _ rest _) s w) as [[[o1 s1] w2] t1] eqn:Hrest.
    intros Hrun.
    eapply (Hnext (ProjectVolume (volume_entry src_path container_path read_only))
             _ w [] o1 s1 w2 t1); [|reflexivity|reflexivity|exact Hrest|exact Hrun].
    exists src_vol, container_path, read_only, k. rewrite Hmap. auto. }
  destruct (py_startswith src_vol AWSEB_LOGS) as [e|logs] eqn:Hlogs; simpl;
    [apply Hfail|].
  destruct logs; simpl.
  - set (directory := path_join host_log (py_str_drop _ src_vol)).
    assert (Hm : mount_of mp
                   (LogVolume directory
                      (volume_entry directory container_path read_only))).
    { exists src_vol, container_path, read_only, k. rewrite Hmap.
      repeat (split; [assumption|]). exists true. split; [assumption|reflexivity]. }
    destruct (h (Makedirs directory) w) as [[x|[]] w1]; simpl.
    + intros [= <- <- <- <-]. split; [reflexivity|].
      exists [mp], rest, [LogVolume directory
                            (volume_entry directory container_path read_only)].
      split; [reflexivity|]. split; [repeat constructor; exact Hm|].
      split; [reflexivity|]. discriminate.
    + destruct (run h (mount_loop _ _ _ _ rest _) s w1) as [[[o1 s1] w2] t1] eqn:Hrest.
      intros Hrun.
      eapply (Hnext _ _ w1 [existT (Makedirs directory) (inr tt)] o1 s1 w2 t1 Hm);
        [reflexivity|reflexivity|exact Hrest|exact Hrun].
  - destruct (run h (mount_loop _ _ _ _ rest _) s w) as [[[o1 s1] w2] t1] eqn:Hrest.
    intros Hrun.
    eapply (Hnext NoVolume _ w [] o1 s1 w2 t1);
      [|symmetry; apply app_nil_r|reflexivity|exact Hrest|exact Hrun].
    exists src_vol, container_path, read_only, k. rewrite Hmap.
    repeat (split; [assumption|]). exists false. auto.
Qed.

(** The service of a container definition, key by key: the image; the
    command, the ports, the links, the environment and the volumes, each
    only when there is something to set; and no other key.  [alias] is the
    name of the definition without its dashes. *)
Definition service_of (definition : pyval) (alias : string)
    (service : gmap string pyval) : Prop :=
  exists realname img links command mappings ports mps mountpoints mounts,
    py_getitem definition CONTAINER_DEF_NAME_KEY = inr realname
    /\ _fakename realname = inr alias
    /\ py_getitem definition CONTAINER_DEF_IMG_KEY = inr img
    /\ py_get definition CONTAINER_DEF_LINKS_KEY (VList []) = inr links
    /\ py_get definition CONTAINER_DEF_CMD_KEY (VList []) = inr command
    /\ py_get definition CONTAINER_DEF_PORT_MAPPINGS_KEY (VList []) = inr mappings
    /\ _get_port_maps str_of dict_keys mappings = inr ports
    /\ py_get definition MOUNT_POINTS (VList []) = inr mps
    /\ py_iter dict_keys mps = inr mountpoints
    /\ Forall2 mount_of mountpoints mounts
    /\ service !! COMPOSE_IMG_KEY = Some img
    /\ service !! COMPOSE_CMD_KEY
       = (if py_truthy command then Some command else None)
    /\ service !! COMPOSE_PORTS_KEY
       = match ports with
         | [] => None
         | _ => Some (str_list ports)
         end
    /\ (if py_truthy links
        then exists names aliased,
               py_iter dict_keys links = inr names
               /\ Forall2 (fun n a => exists fake,
                                        _fakename n = inr fake
                                        /\ a = fake +:+ ":" +:+ str_of n)
                    names aliased
               /\ service !! COMPOSE_LINKS_KEY = Some (str_list aliased)
        else service !! COMPOSE_LINKS_KEY = None)
    /\ service !! COMPOSE_ENV_KEY
       = (if py_truthy envvars_map then Some envvars_map else None)
    /\ service !! COMPOSE_VOLUMES_KEY
       = match omap volume_of mounts with
         | [] => None
         | volumes => Some (str_list volumes)
         end
    /\ forall k,
         k ∉ [COMPOSE_IMG_KEY; COMPOSE_CMD_KEY; COMPOSE_PORTS_KEY;
              COMPOSE_LINKS_KEY; COMPOSE_ENV_KEY; COMPOSE_VOLUMES_KEY] ->
         service !! k = None.

(** A directory for logs that a definition asks for. *)
Definition log_directory_of (definition : pyval) (path : string) : Prop :=
  exists mps mountpoints mp,
    py_get definition MOUNT_POINTS (VList []) = inr mps
    /\ py_iter dict_keys mps = inr mountpoints
    /\ mp ∈ mountpoints
    /\ log_mount mp path.

(** A definition named [alias] once its dashes are removed. *)
Definition named (definition : pyval) (alias : string) : Prop :=
  exists realname,
    py_getitem definition CONTAINER_DEF_NAME_KEY = inr realname
    /\ _fakename realname = inr alias.

Lemma service_lookups (img : pyval) (oc op ol oe ov : option pyval) :
  let service :=
    put_if COMPOSE_VOLUMES_KEY ov
      (put_if COMPOSE_ENV_KEY oe
         (put_if COMPOSE_LINKS_KEY ol
            (put_if COMPOSE_PORTS_KEY op
               (put_if COMPOSE_CMD_KEY oc {[ COMPOSE_IMG_KEY := img ]})))) in
  service !! COMPOSE_IMG_KEY = Some img
  /\ service !! COMPOSE_CMD_KEY = oc
  /\ service !! COMPOSE_PORTS_KEY = op
  /\ service !! COMPOSE_LINKS_KEY = ol
  /\ service !! COMPOSE_ENV_KEY = oe
  /\ service !! COMPOSE_VOLUMES_KEY = ov
  /\ forall k,
       k ∉ [COMPOSE_IMG_KEY; COMPOSE_CMD_KEY; COMPOSE_PORTS_KEY;
            COMPOSE_LINKS_KEY; COMPOSE_ENV_KEY; COMPOSE_VOLUMES_KEY] ->
       service !! k = None.
Proof.
  intros service. subst service. repeat split.
  - rewrite !lookup_put_if_ne by discriminate. apply lookup_singleton_eq.
  - rewrite !lookup_put_if_ne by discriminate. rewrite lookup_put_if_eq.
    destruct oc; [reflexivity|]. apply lookup_singleton_ne. discriminate.
  - rewrite !lookup_put_if_ne by discriminate. rewrite lookup_put_if_eq.
    destruct op; [reflexivity|]. rewrite lookup_put_if_ne by discriminate.
    apply lookup_singleton_ne. discriminate.
  - rewrite !lookup_put_if_ne by discriminate. rewrite lookup_put_if_eq.
    destruct ol; [reflexivity|]. rewrite !lookup_put_if_ne by discriminate.
    apply lookup_singleton_ne. discriminate.
  - rewrite !lookup_put_if_ne by discriminate. rewrite lookup_put_if_eq.
    destruct oe; [reflexivity|]. rewrite !lookup_put_if_ne by discriminate.
    apply lookup_singleton_ne. discriminate.
  - rewrite lookup_put_if_eq.
    destruct ov; [reflexivity|]. rewrite !lookup_put_if_ne by discriminate.
    apply lookup_singleton_ne. discriminate.
  - intros k Hk. repeat (apply not_elem_of_cons in Hk as [? Hk]).
    rewrite !lookup_put_if_ne by congruence. apply lookup_singleton_ne. congruence.
Qed.

Lemma created_log_directory (done : list pyval) (mounts : list mount)
    (path : string) :
  Forall2 mount_of done mounts ->
  Makedirs path ∈ Makedirs <$> omap directory_of mounts ->
  exists mp, mp ∈ done /\ log_mount mp path.
Proof.
  intros Hdone Hin. apply list_elem_of_fmap in Hin as (path' & [= <-] & Hin).
  apply list_elem_of_omap in Hin as (m & Hm & Hdir).
  apply list_elem_of_lookup in Hm as [i Hi].
  destruct (Forall2_lookup_r _ _ _ _ _ Hdone Hi) as (mp & Hmp & Hmount).
  destruct m as [|volume|directory volume]; try discriminate Hdir.
  injection Hdir as ->. exists mp. split.
  - apply list_elem_of_lookup. exists i. exact Hmp.
  - exact (log_volume_mount _ _ _ Hmount).
Qed.

Lemma log_directory_created (done : list pyval) (mounts : list mount)
    (mp : pyval) (path : string) :
  Forall2 mount_of done mounts ->
  mp ∈ done -> log_mount mp path ->
  Makedirs path ∈ Makedirs <$> omap directory_of mounts.
Proof.
  intros Hdone Hin Hlog. apply list_elem_of_lookup in Hin as [i Hi].
  destruct (Forall2_lookup_l _ _ _ _ _ Hdone Hi) as (m & Hm & Hmount).
  apply list_elem_of_fmap. exists path. split; [reflexivity|].
  apply list_elem_of_omap. exists m. split.
  - apply list_elem_of_lookup. exists i. exact Hm.
  - exact (log_mount_volume _ _ _ Hlog Hmount).
Qed.

(** The end of [_add_service], from the loop over the mount points on. *)
Lemma add_service_tail (definition realname mps : pyval)
    (service4 : gmap string pyval) (s : gmap string pyval) (w : W) o s' w' t :
  py_get definition MOUNT_POINTS (VList []) = inr mps ->
  run h
    (let* mountpoints := lift (py_iter dict_keys mps) in
     let* volumes :=
       mount_loop str_of path_join volume_map host_log mountpoints [] in
     let* alias := lift (_fakename realname) in
     let* services := get in
     put (<[alias := VDict
              match volumes with
              | [] => service4
              | _ => <[COMPOSE_VOLUMES_KEY := str_list volumes]> service4
              end]> services)) s w = (o, s', w', t) ->
  (forall path, Makedirs path ∈ calls t -> log_directory_of definition path)
  /\ (o = Returned tt ->
      exists alias mountpoints mounts,
        _fakename realname = inr alias
        /\ py_iter dict_keys mps = inr mountpoints
        /\ Forall2 mount_of mountpoints mounts
        /\ s' = <[alias := VDict
                    (put_if COMPOSE_VOLUMES_KEY
                       match omap volume_of mounts with
                       | [] => None
                       | volumes => Some (str_list volumes)
                       end service4)]> s
        /\ forall path, log_directory_of definition path ->
                        Makedirs path ∈ calls t).
Proof.
  intros Hmps. unfold lift.
  destruct (py_iter dict_keys mps) as [e|mountpoints] eqn:Hiter; simpl.
  { intros [= <- <- <- <-]. split; [|discriminate].
    intros path Hin. inversion Hin. }
  rewrite run_bind.
  destruct (run h (mount_loop _ _ _ _ mountpoints []) s w) as [[[o1 s1] w1] t1] eqn:Hm.
  destruct (mount_loop_run _ _ _ _ _ _ _ _ Hm)
    as (-> & done & rest & mounts & Hsplit & Hdone & Hcalls & Hret).
  assert (Honly : forall path,
             Makedirs path ∈ calls t1 -> log_directory_of definition path).
  { intros path Hin. rewrite Hcalls in Hin.
    destruct (created_log_directory _ _ _ Hdone Hin) as (mp & Hmp & Hlog).
    exists mps, mountpoints, mp. repeat (split; [assumption|]).
    split; [|exact Hlog]. rewrite Hsplit. apply elem_of_app. left. exact Hmp. }
  destruct o1 as [volumes|x|]; simpl.
  - destruct (Hret volumes eq_refl) as [-> ->]. rewrite app_nil_r in Hsplit.
    subst done. simpl.
    destruct (_fakename realname) as [e|alias] eqn:Hfake; simpl;
      intros [= <- <- <- <-]; rewrite app_nil_r; (split; [exact Honly|]);
      [discriminate|].
    intros _. exists alias, mountpoints, mounts.
    split; [reflexivity|]. split; [reflexivity|]. split; [exact Hdone|]. split.
    + destruct (omap volume_of mounts); reflexivity.
    + intros path (mps' & mountpoints' & mp & Hmps' & Hiter' & Hmp & Hlog).
      rewrite Hmps in Hmps'. injection Hmps' as <-.
      rewrite Hiter in Hiter'. injection Hiter' as <-.
      rewrite Hcalls. exact (log_directory_created _ _ _ _ Hdone Hmp Hlog).
  - intros [= <- <- <- <-]. split; [exact Honly|discriminate].
  - intros [= <- <- <- <-]. split; [exact Honly|discriminate].
Qed.

(** One container definition: when [_add_service] returns, the services
    have the service of the definition under its alias. *)
Lemma add_service_run (definition : pyval) (s : gmap string pyval) (w : W)
    o s' w' t :
  run h (_add_service str_of dict_keys path_join definition volume_map host_log
           envvars_map) s w = (o, s', w', t) ->
  (forall path, Makedirs path ∈ calls t -> log_directory_of definition path)
  /\ (o = Returned tt ->
      (exists alias service,
         service_of definition alias service
         /\ s' = <[alias := VDict service]> s)
      /\ forall path, log_directory_of definition path -> Makedirs path ∈ calls t).
Proof.
  assert (Hfail : forall x,
             (Raised x : outcome unit, s, w, @nil (entry external R))
             = (o, s', w', t) ->
             (forall path, Makedirs path ∈ calls t ->
                           log_directory_of definition path)
             /\ (o = Returned tt ->
                 (exists alias service,
                    service_of definition alias service
                    /\ s' = <[alias := VDict service]> s)
                 /\ forall path, log_directory_of definition path ->
                                 Makedirs path ∈ calls t)).
  { intros x [= <- <- <- <-]. split; [|discriminate]. intros path Hin.
    inversion Hin. }
  unfold _add_service, lift.
  destruct (py_getitem definition CONTAINER_DEF_NAME_KEY) as [e|realname] eqn:Hname;
    simpl; [apply Hfail|].
  destruct (py_getitem definition CONTAINER_DEF_IMG_KEY) as [e|img] eqn:Himg; simpl;
    [apply Hfail|].
  destruct (py_get definition CONTAINER_DEF_LINKS_KEY (VList [])) as [e|links]
    eqn:Hlinks; simpl; [apply Hfail|].
  destruct (py_get definition CONTAINER_DEF_CMD_KEY (VList [])) as [e|command]
    eqn:Hcmd; simpl; [apply Hfail|].
  destruct (py_get definition CONTAINER_DEF_PORT_MAPPINGS_KEY (VList []))
    as [e|mappings] eqn:Hmappings; simpl; [apply Hfail|].
  destruct (_get_port_maps str_of dict_keys mappings) as [e|ports] eqn:Hports; simpl;
    [apply Hfail|].
  destruct (py_get definition MOUNT_POINTS (VList [])) as [e|mps] eqn:Hmps; simpl;
    [apply Hfail|].
  set (oc := if py_truthy command then Some command else None).
  set (op := match ports with [] => None | _ => Some (str_list ports) end).
  set (oe := if py_truthy envvars_map then Some envvars_map else None).
  assert (Hrest : forall ol : option pyval,
             (if py_truthy links
              then exists names aliased,
                     py_iter dict_keys links = inr names
                     /\ Forall2 (fun n a => exists fake,
                                              _fakename n = inr fake
                                              /\ a = fake +:+ ":" +:+ str_of n)
                          names aliased
                     /\ ol = Some (str_list aliased)
              else ol = None) ->
             run h
               (let* mountpoints := lift (py_iter dict_keys mps) in
                let* volumes :=
                  mount_loop str_of path_join volume_map host_log mountpoints [] in
                let* alias := lift (_fakename realname) in
                let* services := get in
                put (<[alias := VDict
                         match volumes with
                         | [] =>
                             put_if COMPOSE_ENV_KEY oe
                               (put_if COMPOSE_LINKS_KEY ol
                                  (put_if COMPOSE_PORTS_KEY op
                                     (put_if COMPOSE_CMD_KEY oc
                                        {[ COMPOSE_IMG_KEY := img ]})))
                         | _ =>
                             <[COMPOSE_VOLUMES_KEY := str_list volumes]>
                               (put_if COMPOSE_ENV_KEY oe
                                  (put_if COMPOSE_LINKS_KEY ol
                                     (put_if COMPOSE_PORTS_KEY op
                                        (put_if COMPOSE_CMD_KEY oc
                                           {[ COMPOSE_IMG_KEY := img ]}))))
                         end]> services)) s w = (o, s', w', t) ->
             (forall path, Makedirs path ∈ calls t ->
                           log_directory_of definition path)
             /\ (o = Returned tt ->
                 (exists alias service,
                    service_of definition alias service
                    /\ s' = <[alias := VDict service]> s)
                 /\ forall path, log_directory_of definition path ->
                                 Makedirs path ∈ calls t)).
  { intros ol Hol Hrun.
    destruct (add_service_tail definition realname mps _ _ _ _ _ _ _ Hmps Hrun)
      as [Honly Hret].
    split; [exact Honly|]. intros Ho.
    destruct (Hret Ho)
      as (alias & mountpoints & mounts & Hfake & Hiter & Hmounts & -> & Hcomplete).
    split; [|exact Hcomplete]. eexists alias, _. split; [|reflexivity].
    destruct (service_lookups img oc op ol oe
                match omap volume_of mounts with
                | [] => None
                | volumes => Some (str_list volumes)
                end) as (H1 & H2 & H3 & H4 & H5 & H6 & H7).
    exists realname, img, links, command, mappings, ports, mps, mountpoints, mounts.
    repeat (split; [assumption|]). split.
    { destruct (py_truthy links).
      - destruct Hol as (names & aliased & Hnames & Haliased & ->).
        exists names, aliased. auto.
      - subst ol. exact H4. }
    split; [exact H5|]. split; [exact H6|exact H7]. }
  destruct (py_truthy links) eqn:Htruthy; simpl.
  - destruct (py_iter dict_keys links) as [e|names] eqn:Hnames; simpl;
      [apply Hfail|].
    destruct (for_each _ names) as [e|aliased] eqn:Haliased; simpl; [apply Hfail|].
    intros Hrun. apply (Hrest (Some (str_list aliased))).
    + exists names, aliased. split; [reflexivity|]. split; [|reflexivity].
      apply for_each_inr in Haliased. eapply Forall2_impl; [exact Haliased|].
      intros n a Hn. simpl in Hn. destruct (_fakename n) as [e|fake]; [discriminate|].
      simpl in Hn. injection Hn as <-. exists fake. auto.
    + subst oc op oe. revert Hrun.
      destruct (py_truthy command), ports, (py_truthy envvars_map); exact (fun H => H).
  - intros Hrun. apply (Hrest None); [reflexivity|].
    subst oc op oe. revert Hrun.
    destruct (py_truthy command), ports, (py_truthy envvars_map); exact (fun H => H).
Qed.

(** The loop of [compose_dict]: when it returns, every definition has a
    service, a name of the services holds the service of the last definition
    of that name, and the other names are as before. *)
Lemma add_services_run (definitions : list pyval) :
  forall (s : gmap string pyval) (w : W) o s' w' t,
    run h (add_services str_of dict_keys path_join definitions volume_map host_log
             envvars_map) s w = (o, s', w', t) ->
    (forall path, Makedirs path ∈ calls t ->
       exists definition,
         definition ∈ definitions /\ log_directory_of definition path)
    /\ (o = Returned tt ->
        Forall (fun d => exists alias service, service_of d alias service) definitions
        /\ (forall k,
              (s' !! k = s !! k /\ forall d, d ∈ definitions -> ~ named d k)
              \/ exists before d after service,
                   definitions = (before ++ d :: after)%list
                   /\ (forall d', d' ∈ after -> ~ named d' k)
                   /\ service_of d k service
                   /\ s' !! k = Some (VDict service))
        /\ forall d path, d ∈ definitions -> log_directory_of d path ->
                          Makedirs path ∈ calls t).
Proof.
  induction definitions as [|definition rest IH]; intros s w o s' w' t.
  { simpl. intros [= <- <- <- <-]. split.
    - intros path Hin. inversion Hin.
    - intros _. split; [constructor|]. split.
      + intros k. left. split; [reflexivity|]. intros d Hd. inversion Hd.
      + intros d path Hd. inversion Hd. }
  cbn [add_services]. rewrite run_bind.
  destruct (run h (_add_service _ _ _ definition _ _ _) s w) as [[[o1 s1] w1] t1] eqn:Hone.
  destruct (add_service_run _ _ _ _ _ _ _ Hone) as [Honly1 Hret1].
  destruct o1 as [[]|x|]; simpl.
  - destruct (Hret1 eq_refl) as [(alias & service & Hsvc & ->) Hcomplete1].
    destruct (run h (add_services _ _ _ rest _ _ _) _ w1) as [[[o2 s2] w2] t2] eqn:Hrest.
    destruct (IH _ _ _ _ _ _ Hrest) as [Honly2 Hret2].
    assert (Happ : calls (t1 ++ t2) = (calls t1 ++ calls t2)%list) by apply map_app.
    intros [= <- <- <- <-]. rewrite Happ. split.
    + intros path [Hin|Hin]%elem_of_app.
      * exists definition. split; [left|exact (Honly1 path Hin)].
      * destruct (Honly2 path Hin) as (d & Hd & Hlog). exists d.
        split; [right; exact Hd|exact Hlog].
    + intros Ho. destruct (Hret2 Ho) as (Hall & Hkeys & Hcomplete2).
      split; [constructor; [eauto|exact Hall]|]. split.
      * intros k.
        destruct (Hkeys k) as [[Hsame Hnone]|(b & d & a & sv & -> & Ha & Hd & Hget)].
        -- destruct (decide (alias = k)) as [<-|Hne].
           ++ right. exists [], definition, rest, service.
              split; [reflexivity|]. split; [exact Hnone|]. split; [exact Hsvc|].
              rewrite Hsame. apply lookup_insert_eq.
           ++ left. split; [rewrite Hsame; apply lookup_insert_ne; exact Hne|].
              intros d [->|Hin]%elem_of_cons; [|exact (Hnone d Hin)].
              intros (realname & Hn & Hf).
              destruct Hsvc as (realname' & ? & ? & ? & ? & ? & ? & ? & ? & Hn' & Hf' & _).
              rewrite Hn in Hn'. injection Hn' as <-. congruence.
        -- right. exists (definition :: b), d, a, sv.
           split; [reflexivity|]. split; [exact Ha|]. split; [exact Hd|exact Hget].
      * intros d path [->|Hin]%elem_of_cons Hlog; apply elem_of_app.
        -- left. exact (Hcomplete1 path Hlog).
        -- right. exact (Hcomplete2 d path Hin Hlog).
  - intros [= <- <- <- <-]. split; [|discriminate].
    intros path Hin. exists definition. split; [left|exact (Honly1 path Hin)].
  - intros [= <- <- <- <-]. split; [|discriminate].
    intros path Hin. exists definition. split; [left|exact (Honly1 path Hin)].
Qed.
End Services.

(** What [compose_dict] reads from the Dockerrun before its loop: the
    container definitions and the volume map. *)
Definition dockerrun_parts (dict_keys : gmap string pyval -> list string)
    (path_join : string -> string -> string) (dockerrun : pyval)
    (docker_proj_path : string) (definitions : list pyval)
    (volume_map : list (key * string)) : Prop :=
  exists containers volumes,
    _get_container_definitions dockerrun = inr containers
    /\ py_iter dict_keys containers = inr definitions
    /\ py_get dockerrun VOLUMES_KEY (VList []) = inr volumes
    /\ _get_volume_map dict_keys path_join volumes docker_proj_path = inr volume_map.

Lemma dockerrun_parts_functional dict_keys path_join dockerrun docker_proj_path
    definitions volume_map definitions' volume_map' :
  dockerrun_parts dict_keys path_join dockerrun docker_proj_path definitions
    volume_map ->
  dockerrun_parts dict_keys path_join dockerrun docker_proj_path definitions'
    volume_map' ->
  definitions' = definitions /\ volume_map' = volume_map.
Proof.
  intros (c & v & Hc & Hd & Hv & Hm) (c' & v' & Hc' & Hd' & Hv' & Hm').
  rewrite Hc in Hc'. injection Hc' as <-. rewrite Hd in Hd'. injection Hd' as <-.
  rewrite Hv in Hv'. injection Hv' as <-. rewrite Hm in Hm'. injection Hm' as <-.
  split; reflexivity.
Qed.

(** [compose_dict] is its loop over the definitions, from no service at
    all. *)
Lemma compose_dict_run {W : Type} (str_of : pyval -> string)
    (dict_keys : gmap string pyval -> list string)
    (path_join : string -> string -> string) (h : env external R W)
    (dockerrun : pyval) (docker_proj_path host_log : string) (envvars_map : pyval)
    (s : gmap string pyval) (w : W) o s' w' t :
  run h (compose_dict str_of dict_keys path_join dockerrun docker_proj_path host_log
           envvars_map) s w = (o, s', w', t) ->
  (t = [] /\ forall services, o <> Returned services)
  \/ exists definitions volume_map o1,
       dockerrun_parts dict_keys path_join dockerrun docker_proj_path definitions
         volume_map
       /\ run h
            (add_services str_of dict_keys path_join definitions volume_map host_log
               envvars_map) ∅ w = (o1, s', w', t)
       /\ forall services, o = Returned services <-> o1 = Returned tt /\ services = s'.
Proof.
  unfold compose_dict, lift. simpl.
  destruct (_get_container_definitions dockerrun) as [e|containers] eqn:Hc; simpl.
  { intros [= <- <- <- <-]. left. split; [reflexivity|discriminate]. }
  destruct (py_get dockerrun VOLUMES_KEY (VList [])) as [e|volumes] eqn:Hv; simpl.
  { intros [= <- <- <- <-]. left. split; [reflexivity|discriminate]. }
  destruct (_get_volume_map dict_keys path_join volumes docker_proj_path)
    as [e|volume_map] eqn:Hm; simpl.
  { intros [= <- <- <- <-]. left. split; [reflexivity|discriminate]. }
  destruct (py_iter dict_keys containers) as [e|definitions] eqn:Hiter; simpl.
  { intros [= <- <- <- <-]. left. split; [reflexivity|discriminate]. }
  rewrite PyFacts.run_bind.
  destruct (run h (add_services _ _ _ definitions _ _ _) ∅ w) as [[[o1 s1] w1] t1] eqn:Hadd.
  intros Hrun. right. exists definitions, volume_map, o1.
  split; [exists containers, volumes; auto|].
  destruct o1 as [[]|x|]; simpl in Hrun; injection Hrun as <- <- <- <-;
    rewrite ?app_nil_r; (split; [exact Hadd|]); intros services; split;
    try (intros [H _]; discriminate H); try discriminate.
  - intros [= <-]. auto.
  - intros [_ ->]. reflexivity.
Qed.

(** X5. When [compose_dict] returns, the services are those of the container
    definitions of the Dockerrun.  Every definition has a service under its
    alias, its name without the dashes.  Every name of the result is such an
    alias (so it has no dash) and holds the service of the last definition
    of that alias, which is pinned key by key: the image of the definition;
    its command, its ports as [hostPort:containerPort] strings, its links
    as [alias:name] strings, the environment variables and the volumes of
    its mount points, each present exactly when not empty; and no other
    key. *)
Theorem compose_dict_services :
  forall (W : Type) (str_of : pyval -> string)
         (dict_keys : gmap string pyval -> list string)
         (path_join : string -> string -> string)
         (h : env external R W) (dockerrun : pyval)
         (docker_proj_path host_log : string) (envvars_map : pyval)
         (s s' services : gmap string pyval) (w w' : W) (t : list (entry external R)),
    run h (compose_dict str_of dict_keys path_join dockerrun docker_proj_path host_log
             envvars_map) s w = (Returned services, s', w', t) ->
    exists definitions volume_map,
      dockerrun_parts dict_keys path_join dockerrun docker_proj_path definitions
        volume_map
      /\ (forall k v, services !! k = Some v ->
            ~ In "-"%char (list_ascii_of_string k)
            /\ exists before definition after service,
                 definitions = (before ++ definition :: after)%list
                 /\ (forall d, d ∈ after -> ~ named d k)
                 /\ service_of str_of dict_keys path_join host_log volume_map
                      envvars_map definition k service
                 /\ v = VDict service)
      /\ (forall definition, definition ∈ definitions ->
            exists alias service,
              service_of str_of dict_keys path_join host_log volume_map envvars_map
                definition alias service
              /\ is_Some (services !! alias)).
Proof.
  intros W str_of dict_keys path_join h dockerrun proj host_log envvars s s' services
    w w' t Hrun.
  destruct (compose_dict_run _ _ _ _ _ _ _ _ _ _ _ _ _ _ Hrun)
    as [[_ Hno]|(definitions & volume_map & o1 & Hparts & Hadd & Ho)].
  { contradiction (Hno services). reflexivity. }
  destruct (proj1 (Ho services) eq_refl) as [-> ->].
  destruct (add_services_run _ _ _ _ _ _ _ _ _ _ _ _ _ _ Hadd) as [_ Hret].
  destruct (Hret eq_refl) as (Hall & Hkeys & _).
  exists definitions, volume_map. split; [exact Hparts|]. split.
  - intros k v Hk.
    destruct (Hkeys k) as [[Hsame _]|(b & d & a & sv & Hsplit & Ha & Hd & Hget)].
    { rewrite Hsame, lookup_empty in Hk. discriminate Hk. }
    split.
    + destruct Hd as (realname & ? & ? & ? & ? & ? & ? & ? & ? & _ & Hfake & _).
      destruct realname as [| | |name| |]; try discriminate Hfake.
      injection Hfake as <-. apply str_remove_absent.
    + exists b, d, a, sv. rewrite Hget in Hk. injection Hk as <-. auto.
  - intros definition Hin.
    destruct (proj1 (Forall_forall _ _) Hall definition Hin) as (alias & service & Hsvc).
    exists alias, service. split; [exact Hsvc|].
    destruct (Hkeys alias) as [[_ Hnone]|(b & d & a & sv & _ & _ & _ & Hget)].
    + contradiction (Hnone definition Hin).
      destruct Hsvc as (realname & ? & ? & ? & ? & ? & ? & ? & ? & Hname & Hfake & _).
      exists realname. auto.
    + rewrite Hget. eexists. reflexivity.
Qed.

(** A directory for logs that the Dockerrun asks for: [path] is
    [os.path.join(host_log, dirname)] for a mount point of a container
    definition whose source volume is awseb-logs- followed by [dirname] and
    is no name of the volume map.  Where the join puts the directory is left
    to [os.path.join]: joined to an absolute [dirname], Python's gives
    [dirname] itself, which need not lie under [host_log]. *)
Definition log_directory (dict_keys : gmap string pyval -> list string)
    (path_join : string -> string -> string) (dockerrun : pyval)
    (docker_proj_path host_log : string) (path : string) : Prop :=
  exists definitions volume_map definition,
    dockerrun_parts dict_keys path_join dockerrun docker_proj_path definitions
      volume_map
    /\ definition ∈ definitions
    /\ log_directory_of dict_keys path_join host_log volume_map definition path.

(** X6. Whatever the Dockerrun and however [compose_dict] ends, it creates
    directories only for the mount points for logs: every directory created
    is [os.path.join(host_log, dirname)] for a mount point of a container
    definition whose source volume is awseb-logs- followed by [dirname] and
    is no name of the volume map.  When [compose_dict] returns, each of
    these directories has been created. *)
Theorem compose_dict_creates_only_log_directories :
  forall (W : Type) (str_of : pyval -> string)
         (dict_keys : gmap string pyval -> list string)
         (path_join : string -> string -> string)
         (h : env external R W) (dockerrun : pyval)
         (docker_proj_path host_log : string) (envvars_map : pyval)
         (s s' : gmap string pyval) (w w' : W)
         (o : outcome (gmap string pyval)) (t : list (entry external R)),
    run h (compose_dict str_of dict_keys path_join dockerrun docker_proj_path host_log
             envvars_map) s w = (o, s', w', t) ->
    (forall path,
        Makedirs path ∈ calls t ->
        log_directory dict_keys path_join dockerrun docker_proj_path host_log path)
    /\ (forall services path,
          o = Returned services ->
          log_directory dict_keys path_join dockerrun docker_proj_path host_log path ->
          Makedirs path ∈ calls t).
Proof.
  intros W str_of dict_keys path_join h dockerrun proj host_log envvars s s' w w' o t
    Hrun.
  destruct (compose_dict_run _ _ _ _ _ _ _ _ _ _ _ _ _ _ Hrun)
    as [[-> Hno]|(definitions & volume_map & o1 & Hparts & Hadd & Ho)].
  { split.
    - intros path Hin. inversion Hin.
    - intros services path ->. contradiction (Hno services). reflexivity. }
  destruct (add_services_run _ _ _ _ _ _ _ _ _ _ _ _ _ _ Hadd) as [Honly Hret].
  split.
  - intros path Hin. destruct (Honly path Hin) as (d & Hd & Hlog).
    exists definitions, volume_map, d. auto.
  - intros services path Hs (definitions' & volume_map' & d & Hparts' & Hd & Hlog).
    destruct (dockerrun_parts_functional _ _ _ _ _ _ _ _ Hparts Hparts') as [-> ->].
    destruct (proj1 (Ho services) Hs) as [-> _].
    destruct (Hret eq_refl) as (_ & _ & Hcomplete).
    exact (Hcomplete d path Hd Hlog).
Qed.

(** A Dockerrun with one container, a project volume and a log volume. *)
Definition nginx_dockerrun : pyval :=
  VDict {[ "AWSEBDockerrunVersion" := VInt 2;
           "volumes" :=
             VList [VDict {[ "name" := VStr "static";
                             "host" := VDict {[ "sourcePath" := VStr "/var/app/current/html" ]} ]}];
           "containerDefinitions" :=
             VList [VDict {[ "name" := VStr "web-app";
                             "image" := VStr "nginx";
                             "mountPoints" :=
                               VList [VDict {[ "sourceVolume" := VStr "static";
                                               "containerPath" := VStr "/usr/share/nginx/html";
                                               "readOnly" := VBool true ]};
                                      VDict {[ "sourceVolume" := VStr "awseb-logs-web-app";
                                               "containerPath" := VStr "/var/log/nginx" ]}] ]}] ]}.

Definition show (v : pyval) : string :=
  match v with
  | VStr s => s
  | _ => "?"
  end.

Definition slash_join (a b : string) : string := a +:+ "/" +:+ b.

Definition nginx_run
    : outcome (gmap string pyval) * gmap string pyval * unit * list (entry external R) :=
  run (fun c w => (inr tt, w))
    (compose_dict show (fun _ => []) slash_join nginx_dockerrun "/proj" "/logs" VNone)
    ∅ tt.

Definition nginx_services : gmap string pyval :=
  {[ "webapp" :=
       VDict {[ "image" := VStr "nginx";
                "volumes" := VList [VStr "/proj/html:/usr/share/nginx/html:ro";
                                    VStr "/logs/web-app:/var/log/nginx"] ]} ]}.

Lemma nginx_run_returns :
  nginx_run
  = (Returned nginx_services, nginx_services, tt,
     [existT (Makedirs "/logs/web-app") (inr tt)]).
Proof. vm_compute. reflexivity. Qed.

Lemma compose_dict_services_witness :
  exists definitions volume_map,
    dockerrun_parts (fun _ => []) slash_join nginx_dockerrun "/proj" definitions
      volume_map
    /\ (forall k v, nginx_services !! k = Some v ->
          ~ In "-"%char (list_ascii_of_string k)
          /\ exists before definition after service,
               definitions = (before ++ definition :: after)%list
               /\ (forall d, d ∈ after -> ~ named d k)
               /\ service_of show (fun _ => []) slash_join "/logs" volume_map VNone
                    definition k service
               /\ v = VDict service)
    /\ (forall definition, definition ∈ definitions ->
          exists alias service,
            service_of show (fun _ => []) slash_join "/logs" volume_map VNone
              definition alias service
            /\ is_Some (nginx_services !! alias)).
Proof.
  exact (compose_dict_services unit show (fun _ => []) slash_join
           (fun c w => (inr tt, w)) nginx_dockerrun "/proj" "/logs" VNone
           ∅ nginx_services nginx_services tt tt _ nginx_run_returns).
Defined.

Lemma compose_dict_creates_only_log_directories_witness :
  (forall path,
      Makedirs path ∈ [Makedirs "/logs/web-app"] ->
      log_directory (fun _ => []) slash_join nginx_dockerrun "/proj" "/logs" path)
  /\ (forall services path,
        Returned nginx_services = Returned services ->
        log_directory (fun _ => []) slash_join nginx_dockerrun "/proj" "/logs" path ->
        Makedirs path ∈ [Makedirs "/logs/web-app"]).
Proof.
  exact (compose_dict_creates_only_log_directories unit show (fun _ => []) slash_join
           (fun c w => (inr tt, w)) nginx_dockerrun "/proj" "/logs" VNone
           ∅ nginx_services tt tt (Returned nginx_services)
           [existT (Makedirs "/logs/web-app") (inr tt)] nginx_run_returns).
Defined.

End ComposeFacts.

(** ** Running programs that raise the EB CLI's exceptions *)

Module EbFacts.
Import Eb.

Section Run.
Context {S E : Type} {R : E -> Type} {W : Type}.
Variable h : env E R W.

Definition and_then {A B : Type} (r : outcome A * S * W * list (entry E R))
    (k : A -> S -> W -> outcome B * S * W * list (entry E R))
    : outcome B * S * W * list (entry E R) :=
  match r with
  | (Returned a, s, w, t) =>
      let '(o, s', w', t') := k a s w in (o, s', w', (t ++ t')%list)
  | (Raised x, s, w, t) => (Raised x, s, w, t)
  | (OutOfFuel, s, w, t) => (OutOfFuel, s, w, t)
  end.

Lemma run_let {A B : Type} (p : prog S E R A) (f : A -> prog S E R B) s w :
  run h (bind p f) s w = and_then (run h p s w) (fun a => run h (f a)).
Proof.
  revert s w. induction p as [a|x| |k IH|s0 k IH|c k IH]; intros s w; simpl.
  - destruct (run h (f a) s w) as [[[o s'] w'] t]. reflexivity.
  - reflexivity.
  - reflexivity.
  - apply IH.
  - apply IH.
  - destruct (h c w) as [r w1]. rewrite IH.
    destruct (run h (k r) s w1) as [[[o s1] w2] t].
    destruct o as [a|x|]; simpl; try reflexivity.
    destruct (run h (f a) s1 w2) as [[[o' s2] w3] t']. reflexivity.
Qed.

(** The run of [try: p except: handler]. *)
Definition except_then {A : Type} (r : outcome A * S * W * list (entry E R))
    (handler : error -> prog S E R A) : outcome A * S * W * list (entry E R) :=
  match r with
  | (Raised x, s, w, t) =>
      let '(o, s', w', t') := run h (handler x) s w in (o, s', w', (t ++ t')%list)
  | r => r
  end.

Lemma run_except {A : Type} (p : prog S E R A) (handler : error -> prog S E R A) s w :
  run h (try_except p handler) s w = except_then (run h p s w) handler.
Proof.
  revert s w. induction p as [a|x| |k IH|s0 k IH|c k IH]; intros s w; simpl.
  - reflexivity.
  - destruct (run h (handler x) s w) as [[[o s'] w'] t]. reflexivity.
  - reflexivity.
  - apply IH.
  - apply IH.
  - destruct (h c w) as [r w1]. rewrite IH.
    destruct (run h (k r) s w1) as [[[o s1] w2] t].
    destruct o as [a|x|]; simpl; try reflexivity.
    destruct (run h (handler x) s1 w2) as [[[o' s2] w3] t']. reflexivity.
Qed.

(** The run of [try: p finally: f]. *)
Definition finally_then {A : Type} (r : outcome A * S * W * list (entry E R))
    (f : prog S E R unit) : outcome A * S * W * list (entry E R) :=
  match r with
  | (OutOfFuel, s, w, t) => (OutOfFuel, s, w, t)
  | (o, s, w, t) =>
      match run h f s w with
      | (Returned _, s', w', t') => (o, s', w', (t ++ t')%list)
      | (Raised x, s', w', t') => (Raised x, s', w', (t ++ t')%list)
      | (OutOfFuel, s', w', t') => (OutOfFuel, s', w', (t ++ t')%list)
      end
  end.

Lemma run_finally {A : Type} (p : prog S E R A) (f : prog S E R unit) s w :
  run h (try_finally p f) s w = finally_then (run h p s w) f.
Proof.
  revert s w. induction p as [a|x| |k IH|s0 k IH|c k IH]; intros s w; simpl.
  - rewrite run_let. destruct (run h f s w) as [[[o s'] w'] t].
    destruct o; simpl; rewrite ?app_nil_r; reflexivity.
  - rewrite run_let. destruct (run h f s w) as [[[o s'] w'] t].
    destruct o; simpl; rewrite ?app_nil_r; reflexivity.
  - reflexivity.
  - apply IH.
  - apply IH.
  - destruct (h c w) as [r w1]. rewrite IH.
    destruct (run h (k r) s w1) as [[[o s1] w2] t].
    destruct o as [a|x|]; simpl; try reflexivity;
      destruct (run h f s1 w2) as [[[o' s2] w3] t']; destruct o'; reflexivity.
Qed.

Lemma run_let_inv {A B : Type} (p : prog S E R A) (f : A -> prog S E R B)
    s w o s' w' t :
  run h (bind p f) s w = (o, s', w', t) ->
  exists o1 s1 w1 t1,
    run h p s w = (o1, s1, w1, t1) /\
    match o1 with
    | Returned a =>
        exists t2, run h (f a) s1 w1 = (o, s', w', t2) /\ t = (t1 ++ t2)%list
    | Raised x => o = Raised x /\ t = t1
    | OutOfFuel => o = OutOfFuel /\ t = t1
    end.
Proof.
  rewrite run_let. destruct (run h p s w) as [[[o1 s1] w1] t1].
  intros Hrun. exists o1, s1, w1, t1. split; [reflexivity|].
  destruct o1 as [a|x|]; cbn [and_then] in Hrun.
  - destruct (run h (f a) s1 w1) as [[[o2 s2] w2] t2].
    injection Hrun as <- <- <- <-. eauto.
  - injection Hrun as <- <- <- <-. auto.
  - injection Hrun as <- <- <- <-. auto.
Qed.

(** The run of one call. *)
Lemma run_call (c : E) (s : S) w :
  run h (call c) s w
  = (match (h c w).1 with inl x => Raised x | inr a => Returned a end,
     s, (h c w).2, [existT c (h c w).1]).
Proof.
  unfold call. simpl. destruct (h c w) as [[x|a] w1]; reflexivity.
Qed.

Lemma run_lift {A : Type} (r : exn + A) (s : S) w :
  run h (lift r) s w
  = (match r with inl x => Raised (Builtin x) | inr a => Returned a end, s, w, []).
Proof. destruct r; reflexivity. Qed.

End Run.

Section Embed.
Context {S E E' : Type} {R : E -> Type} {R' : E' -> Type} {W : Type}.
Variables (inj : E -> E') (cast : forall c, R' (inj c) -> R c) (h' : env E' R' W).

(** What the larger environment answers to the calls of the part. *)
Definition restrict : env E R W :=
  fun c w =>
    (match (h' (inj c) w).1 with
     | inl x => inl x
     | inr a => inr (cast c a)
     end, (h' (inj c) w).2).

Lemma run_embed {A : Type} (p : prog S E R A) s w :
  exists t',
    run h' (embed inj cast p) s w
    = ((run restrict p s w).1.1.1, (run restrict p s w).1.1.2,
       (run restrict p s w).1.2, t') /\
    calls t' = map inj (calls (run restrict p s w).2).
Proof.
  revert s w. induction p as [a|x| |k IH|s0 k IH|c k IH]; intros s w; cbn [embed run].
  - exists []. split; reflexivity.
  - exists []. split; reflexivity.
  - exists []. split; reflexivity.
  - apply IH.
  - apply IH.
  - assert (Hr : restrict c w
                = (match (h' (inj c) w).1 with
                   | inl x => inl x
                   | inr a => inr (cast c a)
                   end, (h' (inj c) w).2)) by reflexivity.
    rewrite Hr. clear Hr. destruct (h' (inj c) w) as [r w1]. cbv beta iota. cbn [fst snd].
    destruct (IH match r with inl x => inl x | inr a => inr (cast c a) end s w1)
      as (t' & -> & Hcalls).
    destruct (run restrict (k match r with inl x => inl x | inr a => inr (cast c a) end) s w1)
      as [[[o s1] w2] t].
    cbn [fst snd] in Hcalls |- *. eexists. split; [reflexivity|].
    cbn [calls map projT1]. f_equal. exact Hcalls.
Qed.

End Embed.

End EbFacts.

(** ** Project directories and configuration files *)

Module FileoperationsFacts.
Import Eb Fileoperations EbFacts.

(** The calls that move through the directories. *)
Definition navigation (c : external) : Prop :=
  match c with
  | Getcwd | Chdir _ | Isdir _ => True
  | _ => False
  end.

(** The working directory a function saved first. *)
Definition saved_cwd (t : list (entry external R)) : option string :=
  match t with
  | existT Getcwd (inr cwd) :: _ => Some cwd
  | _ => None
  end.

(** The YAML files a run loaded, with what loading them gave. *)
Definition loaded (e : entry external R) : option (string * (error + pyval)) :=
  match e with
  | existT c r =>
      match c return error + R c -> option (string * (error + pyval)) with
      | LoadYaml filename => fun r => Some (filename, r)
      | _ => fun _ => None
      end r
  end.

Definition loads (t : list (entry external R)) : list (string * (error + pyval)) :=
  omap loaded t.

(** The YAML files a run wrote, with the data. *)
Definition dumped (e : entry external R) : option (string * pyval) :=
  match e with
  | existT (DumpYaml filename data) (inr _) => Some (filename, data)
  | _ => None
  end.

Definition dumps (t : list (entry external R)) : list (string * pyval) :=
  omap dumped t.

(** The paths a run asked [os.path.exists] about, with the answers. *)
Definition checked (e : entry external R) : option (string * (error + bool)) :=
  match e with
  | existT c r =>
      match c return error + R c -> option (string * (error + bool)) with
      | Exists path => fun r => Some (path, r)
      | _ => fun _ => None
      end r
  end.

Definition checks (t : list (entry external R)) : list (string * (error + bool)) :=
  omap checked t.

(** The directory change that ends the run succeeded. *)
Definition went_back (t : list (entry external R)) : Prop :=
  match last t with
  | Some (existT (Chdir _) (inr _)) => True
  | _ => False
  end.

Section Facts.
Variables (sep : string) (path_join : string -> string -> string) (windows : bool).

Section Traverse.
Context {W : Type} (h : env external R W).

Lemma traverse_navigates fuel s w o s' w' t :
  run h (_traverse_to_project_root sep fuel) s w = (o, s', w', t) ->
  Forall navigation (calls t).
Proof.
  revert s w o s' w' t. induction fuel as [|fuel IH]; intros s w o s' w' t Hrun.
  - inversion Hrun. constructor.
  - cbn [_traverse_to_project_root] in Hrun.
    rewrite run_let, run_call in Hrun.
    destruct (h Getcwd w) as [[x|cwd] w1]; cbn [and_then fst snd] in Hrun.
    { inversion Hrun. repeat constructor. }
    rewrite run_let, run_call in Hrun.
    destruct (h (Isdir (beanstalk_directory sep)) w1) as [[x|isdir] w2];
      cbn [and_then fst snd] in Hrun.
    { inversion Hrun. repeat constructor. }
    destruct isdir; cbn [negb] in Hrun.
    { inversion Hrun. repeat constructor. }
    rewrite run_let, run_call in Hrun.
    destruct (h (Chdir pardir) w2) as [[x|[]] w3]; cbn [and_then fst snd] in Hrun.
    { inversion Hrun. repeat constructor. }
    rewrite run_let, run_call in Hrun.
    destruct (h Getcwd w3) as [[x|cwd'] w4]; cbn [and_then fst snd] in Hrun.
    { inversion Hrun. repeat constructor. }
    destruct (String.eqb cwd cwd').
    { inversion Hrun. repeat constructor. }
    destruct (run h (_traverse_to_project_root sep fuel) s w4) as [[[o5 s5] w5] t5] eqn:E.
    apply IH in E. inversion Hrun; subst. repeat (constructor; [exact I|]). exact E.
Qed.

End Traverse.

Section Tree.
(** A file system as the traversal sees it: the working directory has a name,
    holds the [.elasticbeanstalk] directory or not, and has a parent. *)
Context {W : Type} (h : env external R W).
Variables (name : W -> string) (project : W -> bool) (parent : W -> W) (depth : W -> nat).
Hypothesis getcwd_name : forall w, h Getcwd w = (inr (name w), w).
Hypothesis isdir_project :
  forall w, h (Isdir (beanstalk_directory sep)) w = (inr (project w), w).
Hypothesis chdir_parent : forall w, h (Chdir pardir) w = (inr tt, parent w).
Hypothesis parent_depth :
  forall w, name (parent w) <> name w -> (depth (parent w) < depth w)%nat.

Lemma traverse_step fuel s w :
  run h (_traverse_to_project_root sep (Datatypes.S fuel)) s w
  = if project w
    then (Returned tt, s, w,
          [existT Getcwd (inr (name w));
           existT (Isdir (beanstalk_directory sep)) (inr true)])
    else
      let up := [existT Getcwd (inr (name w));
                 existT (Isdir (beanstalk_directory sep)) (inr false);
                 existT (Chdir pardir) (inr tt);
                 existT Getcwd (inr (name (parent w)))] in
      if String.eqb (name w) (name (parent w))
      then (Raised (NotInitializedError "EB is not yet initialized"), s, parent w, up)
      else let '(o, s', w', t) :=
             run h (_traverse_to_project_root sep fuel) s (parent w) in
           (o, s', w', (up ++ t)%list).
Proof.
  cbn [_traverse_to_project_root].
  rewrite run_let, run_call, getcwd_name. cbn [and_then fst snd].
  rewrite run_let, run_call, isdir_project. cbn [and_then fst snd].
  destruct (project w); cbn [negb]; [reflexivity|].
  rewrite run_let, run_call, chdir_parent. cbn [and_then fst snd].
  rewrite run_let, run_call, getcwd_name. cbn [and_then fst snd].
  destruct (String.eqb (name w) (name (parent w))); [reflexivity|].
  destruct (run h (_traverse_to_project_root sep fuel) s (parent w)) as [[[o s'] w'] t].
  reflexivity.
Qed.

Lemma traverse_tree fuel s w :
  (depth w < fuel)%nat ->
  exists k t,
    (forall j, (j < k)%nat -> project (Nat.iter j parent w) = false) /\
    let top := Nat.iter k parent w in
    (project top = true /\
     run h (_traverse_to_project_root sep fuel) s w = (Returned tt, s, top, t)) \/
    (project top = false /\ name (parent top) = name top /\
     run h (_traverse_to_project_root sep fuel) s w
     = (Raised (NotInitializedError "EB is not yet initialized"), s, parent top, t)).
Proof.
  revert w. induction fuel as [|fuel IH]; intros w Hfuel; [lia|].
  rewrite traverse_step.
  destruct (project w) eqn:Hproject.
  - exists 0%nat. eexists.
    split; [intros j Hj; lia|]. left. split; [exact Hproject|reflexivity].
  - cbn zeta.
    destruct (String.eqb_spec (name w) (name (parent w))) as [Heq|Hne].
    + exists 0%nat. eexists. split; [intros j Hj; lia|]. right.
      split; [exact Hproject|]. split; [symmetry; exact Heq|reflexivity].
    + destruct (IH (parent w)) as (k & t & Hbelow & Hend).
      { assert (depth (parent w) < depth w)%nat by (apply parent_depth; congruence). lia. }
      exists (Datatypes.S k). eexists. split.
      * intros [|j] Hj; [exact Hproject|]. rewrite Nat.iter_succ_r. apply Hbelow. lia.
      * cbn zeta in Hend |- *. rewrite Nat.iter_succ_r.
        destruct Hend as [[Htop Hrun]|(Htop & Hname & Hrun)]; rewrite Hrun.
        -- left. split; [exact Htop|reflexivity].
        -- right. split; [exact Htop|]. split; [exact Hname|reflexivity].
Qed.

End Tree.

Section Settings.
Context {W : Type} (h : env external R W).

Lemma loads_app t1 t2 : loads (t1 ++ t2) = (loads t1 ++ loads t2)%list.
Proof. apply omap_app. Qed.

Lemma dumps_app t1 t2 : dumps (t1 ++ t2) = (dumps t1 ++ dumps t2)%list.
Proof. apply omap_app. Qed.

Lemma checks_app t1 t2 : checks (t1 ++ t2) = (checks t1 ++ checks t2)%list.
Proof. apply omap_app. Qed.

Lemma loads_cons e t : loads (e :: t) = (loads [e] ++ loads t)%list.
Proof. exact (loads_app [e] t). Qed.

Lemma dumps_cons e t : dumps (e :: t) = (dumps [e] ++ dumps t)%list.
Proof. exact (dumps_app [e] t). Qed.

Lemma checks_cons e t : checks (e :: t) = (checks [e] ++ checks t)%list.
Proof. exact (checks_app [e] t). Qed.

Lemma navigation_loads (t : list (entry external R)) :
  Forall navigation (calls t) -> loads t = [].
Proof.
  induction t as [|[c r] t IH]; intros Hnav; [reflexivity|].
  inversion Hnav as [|? ? Hc Ht]; subst. unfold loads. cbn [omap list_omap].
  destruct c; try contradiction; cbn; apply IH, Ht.
Qed.

Lemma navigation_dumps (t : list (entry external R)) :
  Forall navigation (calls t) -> dumps t = [].
Proof.
  induction t as [|[c r] t IH]; intros Hnav; [reflexivity|].
  inversion Hnav as [|? ? Hc Ht]; subst. unfold dumps. cbn [omap list_omap].
  destruct c; try contradiction; cbn; apply IH, Ht.
Qed.

Lemma navigation_checks (t : list (entry external R)) :
  Forall navigation (calls t) -> checks t = [].
Proof.
  induction t as [|[c r] t IH]; intros Hnav; [reflexivity|].
  inversion Hnav as [|? ? Hc Ht]; subst. unfold checks. cbn [omap list_omap].
  destruct c; try contradiction; cbn; apply IH, Ht.
Qed.

(** Programs that make no call and end. *)
Definition pure {A : Type} (p : file_prog A) : Prop :=
  forall s w, exists o, run h p s w = (o, s, w, []) /\ o <> OutOfFuel.

Lemma pure_ret {A : Type} (a : A) : pure (Ret a).
Proof. intros s w. exists (Returned a). split; [reflexivity|discriminate]. Qed.

Lemma pure_raise {A : Type} (x : error) : pure (@Raise unit external R A x).
Proof. intros s w. exists (Raised x). split; [reflexivity|discriminate]. Qed.

Lemma pure_lift {A : Type} (r : exn + A) : pure (lift r).
Proof. destruct r; [apply pure_raise|apply pure_ret]. Qed.

Lemma pure_bind {A B : Type} (p : file_prog A) (f : A -> file_prog B) :
  pure p -> (forall a, pure (f a)) -> pure (bind p f).
Proof.
  intros Hp Hf s w. rewrite run_let. destruct (Hp s w) as (o & -> & Ho).
  destruct o as [a|x|]; cbn; [|exists (Raised x); split; [reflexivity|discriminate]|congruence].
  destruct (Hf a s w) as (o' & -> & Ho'). exists o'. split; [reflexivity|exact Ho'].
Qed.

Lemma pure_try_except {A : Type} (p : file_prog A) (handler : error -> file_prog A) :
  pure p -> (forall x, pure (handler x)) -> pure (try_except p handler).
Proof.
  intros Hp Hf s w. rewrite run_except. destruct (Hp s w) as (o & -> & Ho).
  destruct o as [a|x|]; cbn; [exists (Returned a); split; [reflexivity|discriminate]| |congruence].
  destruct (Hf x s w) as (o' & -> & Ho'). exists o'. split; [reflexivity|exact Ho'].
Qed.

Lemma except_then_pure {A : Type} (o : outcome A) (s : unit) w t
    (handler : error -> file_prog A) :
  (forall x, pure (handler x)) ->
  exists o', except_then h (o, s, w, t) handler = (o', s, w, t) /\
             (o = OutOfFuel <-> o' = OutOfFuel) /\
             (forall a, o = Returned a -> o' = Returned a).
Proof.
  intros Hpure. destruct o as [a|x|]; cbn.
  - exists (Returned a). repeat split; auto; discriminate.
  - destruct (Hpure x s w) as (o' & -> & Ho'). exists o'. rewrite app_nil_r.
    repeat split; try discriminate; intros; congruence.
  - exists OutOfFuel. repeat split; auto; discriminate.
Qed.

Lemma run_chdir cwd (s : unit) w :
  run h (call (Chdir cwd) : file_prog unit) s w
  = (match (h (Chdir cwd) w).1 with inl x => Raised x | inr a => Returned a end,
     s, (h (Chdir cwd) w).2, [existT (Chdir cwd) (h (Chdir cwd) w).1]).
Proof. exact (run_call h (Chdir cwd) s w). Qed.

Lemma run_dump filename data (s : unit) w :
  run h (call (DumpYaml filename data) : file_prog unit) s w
  = (match (h (DumpYaml filename data) w).1 with inl x => Raised x | inr a => Returned a end,
     s, (h (DumpYaml filename data) w).2,
     [existT (DumpYaml filename data) (h (DumpYaml filename data) w).1]).
Proof. exact (run_call h (DumpYaml filename data) s w). Qed.

(** A run that saved the working directory, did something and went back. *)
Lemma saved_and_back {A : Type} (o1 : outcome A) (s1 : unit) w1 t1 cwd o s' w' t :
  (let '(o, s', w', t') := finally_then h (o1, s1, w1, t1) (call (Chdir cwd)) in
   (o, s', w', ([existT Getcwd (inr cwd)] ++ t')%list)) = (o, s', w', t) ->
  (o1 = OutOfFuel /\ o = OutOfFuel /\ t = existT Getcwd (inr cwd) :: t1) \/
  (o1 <> OutOfFuel /\
   exists r : error + unit,
     t = (existT Getcwd (inr cwd) :: t1 ++ [existT (Chdir cwd) r])%list /\
     o = match r with inl x => Raised x | inr _ => o1 end).
Proof.
  intros Hrun. destruct o1 as [a|x|]; cbn [finally_then] in Hrun.
  - right. split; [discriminate|]. rewrite run_chdir in Hrun.
    destruct (h (Chdir cwd) w1) as [[y|[]] w2]; cbn in Hrun;
      injection Hrun as <- <- <- <-; eexists; split; reflexivity.
  - right. split; [discriminate|]. rewrite run_chdir in Hrun.
    destruct (h (Chdir cwd) w1) as [[y|[]] w2]; cbn in Hrun;
      injection Hrun as <- <- <- <-; eexists; split; reflexivity.
  - left. injection Hrun as <- <- <- <-. auto.
Qed.

Lemma went_back_snoc t cwd (r : error + unit) :
  went_back (t ++ [existT (Chdir cwd) r]) -> exists u, r = inr u.
Proof.
  unfold went_back. rewrite last_snoc. destruct r as [x|u]; [contradiction|eauto].
Qed.

(** What [_get_yaml_dict] makes of the answer of the loader. *)
Definition yaml_dict (r : error + pyval) : option pyval :=
  match r with
  | inr config => Some config
  | inl (IOError _) => Some (VDict ∅)
  | inl _ => None
  end.

Lemma run_get_yaml_dict filename (s : unit) w :
  exists o,
    run h (_get_yaml_dict filename) s w
    = (o, s, (h (LoadYaml filename) w).2,
       [existT (LoadYaml filename) (h (LoadYaml filename) w).1]) /\
    match yaml_dict (h (LoadYaml filename) w).1 with
    | Some config => o = Returned config
    | None => exists x, o = Raised x
    end.
Proof.
  unfold _get_yaml_dict. rewrite run_except, run_call.
  destruct (h (LoadYaml filename) w) as [[x|config] w1]; cbn;
    [|eexists; split; reflexivity].
  destruct x; cbn; eexists; (split; [reflexivity|]); eauto.
Qed.

End Settings.

(** The setting of a key in a section of a configuration, where the
    configuration is a dict and the section is a dict. *)
Definition lookup_setting (config : pyval) (section key_name : string) : option pyval :=
  match config with
  | VDict d =>
      match d !! section with
      | Some (VDict entries) => entries !! key_name
      | _ => None
      end
  | _ => None
  end.

(** The configuration is a dict in which the section, if there, is a dict. *)
Definition section_is_dict (config : pyval) (section : string) : Prop :=
  match config with
  | VDict d =>
      match d !! section with
      | None | Some (VDict _) => True
      | Some _ => False
      end
  | _ => False
  end.

(** The value with the default in place of [None]. *)
Definition or_default (value : pyval) (fallback : option pyval) : pyval :=
  match value, fallback with
  | VNone, Some fallback => fallback
  | _, _ => value
  end.

Lemma setting_found config section key_name value :
  lookup_setting config section key_name = Some value ->
  setting config section key_name = inr value.
Proof.
  unfold lookup_setting, setting. destruct config as [| | | | |d]; try discriminate.
  cbn. destruct (d !! section) as [[| | | | |entries]|]; try discriminate.
  cbn. intros ->. reflexivity.
Qed.

Lemma setting_missing config section key_name :
  section_is_dict config section ->
  lookup_setting config section key_name = None ->
  exists k, setting config section key_name = inl (KeyError k).
Proof.
  unfold lookup_setting, setting, section_is_dict.
  destruct config as [| | | | |d]; try contradiction.
  cbn. destruct (d !! section) as [[| | | | |entries]|]; try contradiction.
  - cbn. intros _ ->. eauto.
  - intros _ _. eauto.
Qed.

Lemma falsy_no_setting config section key_name :
  py_truthy config = false -> lookup_setting config section key_name = None.
Proof.
  destruct config as [| | | | |d]; try reflexivity. cbn.
  intros Hd. apply negb_false_iff, bool_decide_eq_true in Hd. subst d.
  rewrite lookup_empty. reflexivity.
Qed.

Lemma set_setting_spec config section key_name value config' :
  set_setting config section key_name value = inr config' ->
  lookup_setting config' section key_name = Some value /\
  section_is_dict config' section /\
  py_truthy config' = true /\
  forall section' key_name',
    section' <> section \/ key_name' <> key_name ->
    lookup_setting config' section' key_name' = lookup_setting config section' key_name'.
Proof.
  unfold set_setting. destruct config as [| | | | |d]; try discriminate.
  destruct (default (VDict ∅) (d !! section)) as [| | | | |entries] eqn:Hentries;
    try discriminate.
  intros [= <-]. unfold lookup_setting, section_is_dict. cbn [py_truthy].
  rewrite lookup_insert_eq. split; [apply lookup_insert_eq|]. split; [exact I|]. split.
  - apply negb_true_iff, bool_decide_eq_false. apply insert_non_empty.
  - intros section' key_name' Hother.
    destruct (decide (section' = section)) as [->|Hsection].
    + rewrite lookup_insert_eq. destruct Hother as [Hother|Hother]; [congruence|].
      rewrite lookup_insert_ne by congruence.
      destruct (d !! section) as [v|]; cbn in Hentries; [subst; reflexivity|].
      injection Hentries as <-. apply lookup_empty.
    + rewrite lookup_insert_ne by congruence. reflexivity.
Qed.

Section Runs.
Context {W : Type} (h : env external R W).

Ltac wrap_up Hrun Hhandler :=
  cbv beta iota zeta in Hrun;
  match type of Hrun with
  | context [except_then h (?o1, ?s, ?w, ?t) ?handler] =>
      let o3 := fresh "o3" in
      let E3 := fresh "E3" in
      let Hfuel := fresh "Hfuel" in
      let Hret := fresh "Hret" in
      destruct (except_then_pure h o1 s w t handler Hhandler) as (o3 & E3 & Hfuel & Hret);
      rewrite E3 in Hrun; clear E3
  end.

Ltac solve_pure :=
  repeat first
    [ apply pure_ret | apply pure_raise | apply pure_lift
    | apply pure_bind; [|intros ?]
    | apply pure_try_except; [|intros ?]
    | match goal with
      | |- pure _ (if ?b then _ else _) => destruct b
      | |- pure _ (match ?x with _ => _ end) => destruct x
      end ].

Lemma get_config_setting_run fuel section key_name fallback s w o s' w' t rg rl cg cl :
  run h (get_config_setting sep fuel section key_name fallback) s w = (o, s', w', t) ->
  loads t = [(global_config_file sep, rg); (local_config_file sep, rl)] ->
  went_back t ->
  yaml_dict rg = Some cg ->
  yaml_dict rl = Some cl ->
  section_is_dict cg section ->
  py_truthy cl = false \/ section_is_dict cl section ->
  o = Returned
        (or_default
           (match lookup_setting cl section key_name with
            | Some value => value
            | None => default VNone (lookup_setting cg section key_name)
            end) fallback).
Proof.
  intros Hrun Hloads Hback Hg Hl Hcg Hcl.
  unfold get_config_setting in Hrun.
  rewrite run_let, run_call in Hrun.
  destruct (h Getcwd w) as [[x|cwd0] w1]; cbn [and_then fst snd] in Hrun.
  { injection Hrun as <- <- <- <-. discriminate. }
  rewrite run_finally, run_except, run_let in Hrun.
  destruct (run h (_traverse_to_project_root sep fuel) s w1) as [[[o2 s2] w2] t2] eqn:Htraverse.
  apply traverse_navigates, navigation_loads in Htraverse.
  match type of Hrun with
  | context [except_then h _ ?handler] =>
      assert (Hhandler : forall x, pure h (handler x)) by (intros ?; solve_pure)
  end.
  assert (Hshort : forall (o1 : outcome pyval) (s1 : unit) w1 t1,
             (let '(o, s', w', t') :=
                finally_then h (o1, s1, w1, t1) (call (Chdir cwd0)) in
              (o, s', w', ([existT Getcwd (inr cwd0)] ++ t')%list)) = (o, s', w', t) ->
             loads t = loads t1).
  { intros o1 s1 w1' t1 H1.
    apply saved_and_back in H1 as [(_ & _ & ->)|(_ & r & -> & _)].
    - rewrite loads_cons. reflexivity.
    - rewrite loads_cons, loads_app. cbn. apply app_nil_r. }
  destruct o2 as [[]|x|]; cbn [and_then] in Hrun.
  - rewrite run_let in Hrun.
    destruct (run_get_yaml_dict h (global_config_file sep) s2 w2) as (og & Eg & Hog).
    rewrite Eg in Hrun. clear Eg.
    destruct (h (LoadYaml (global_config_file sep)) w2) as [r1 w3]. cbn [fst snd] in Hrun, Hog.
    destruct (yaml_dict r1) as [cg1|] eqn:Hr1; [subst og|destruct Hog as [x ->]];
      cbn [and_then] in Hrun.
    + rewrite run_let in Hrun.
      destruct (run_get_yaml_dict h (local_config_file sep) s2 w3) as (ol & El & Hol).
      rewrite El in Hrun. clear El.
      destruct (h (LoadYaml (local_config_file sep)) w3) as [r2 w4].
      cbn [fst snd] in Hrun, Hol.
      destruct (yaml_dict r2) as [cl1|] eqn:Hr2; [subst ol|destruct Hol as [x ->]];
        cbn [and_then] in Hrun.
      * match type of Hrun with
        | context [run h ?p s2 w4] =>
            assert (Hpure : pure h p) by solve_pure;
            destruct (Hpure s2 w4) as (o1 & E1 & Ho1)
        end.
        pose proof E1 as E1'. rewrite E1 in Hrun. clear Hpure.
        wrap_up Hrun Hhandler.
        apply saved_and_back in Hrun as [(Hout & _ & _)|(_ & r & -> & ->)].
        { apply Hfuel in Hout. contradiction. }
        rewrite loads_cons, !loads_app, Htraverse in Hloads. cbn in Hloads.
        injection Hloads as <- <-.
        rewrite app_comm_cons in Hback. apply went_back_snoc in Hback as [u ->].
        rewrite Hg in Hr1. injection Hr1 as <-.
        rewrite Hl in Hr2. injection Hr2 as <-.
        apply Hret. clear Hret Hfuel E1'.
        assert (Hfinal : forall value : pyval,
                   run h (match value with
                          | VNone => match fallback with
                                     | Some default => Ret default
                                     | None => Ret value
                                     end
                          | _ => Ret value
                          end) s2 w4
                   = (Returned (or_default value fallback), s2, w4, []))
          by (intros value; destruct value, fallback; reflexivity).
        rewrite run_let, run_except, run_lift in E1.
        assert (Hchoice : forall value : pyval,
                   run h (let+ value0 :=
                            try_except
                              (if py_truthy cl
                               then lift (setting cl section key_name)
                               else Ret value)
                              (fun x => match x with
                                        | Builtin (KeyError _) => Ret value
                                        | _ => Raise x
                                        end) in
                          match value0 with
                          | VNone => match fallback with
                                     | Some default => Ret default
                                     | None => Ret value0
                                     end
                          | _ => Ret value0
                          end) s2 w4
                   = (Returned (or_default
                                  (match lookup_setting cl section key_name with
                                   | Some value' => value'
                                   | None => value
                                   end) fallback), s2, w4, [])).
        { intros value. rewrite run_let, run_except.
          destruct (py_truthy cl) eqn:Etruthy.
          - destruct Hcl as [Hcl|Hcl]; [discriminate|].
            rewrite run_lift.
            destruct (lookup_setting cl section key_name) as [vl|] eqn:El.
            + rewrite (setting_found _ _ _ _ El). cbn [except_then and_then].
              rewrite Hfinal. reflexivity.
            + destruct (setting_missing _ _ _ Hcl El) as [k Ek]. rewrite Ek.
              cbn [except_then and_then run app]. rewrite Hfinal. reflexivity.
          - rewrite (falsy_no_setting _ section key_name Etruthy).
            cbn [except_then and_then run].
            rewrite Hfinal. reflexivity. }
        destruct (lookup_setting cg section key_name) as [vg|] eqn:Eg.
        { rewrite (setting_found _ _ _ _ Eg) in E1. cbn [except_then and_then] in E1.
          rewrite Hchoice in E1. injection E1 as <-. reflexivity. }
        destruct (setting_missing _ _ _ Hcg Eg) as [kg Ekg]. rewrite Ekg in E1.
        cbn [except_then and_then run app] in E1.
        rewrite Hchoice in E1. injection E1 as <-. reflexivity.
      * wrap_up Hrun Hhandler. apply Hshort in Hrun. rewrite Hrun in Hloads.
        rewrite !loads_app, Htraverse in Hloads. cbn in Hloads.
        injection Hloads as _ <-. congruence.
    + wrap_up Hrun Hhandler. apply Hshort in Hrun. rewrite Hrun in Hloads.
      rewrite !loads_app, Htraverse in Hloads. cbn in Hloads. discriminate.
  - wrap_up Hrun Hhandler. apply Hshort in Hrun. rewrite Hrun in Hloads.
    rewrite Htraverse in Hloads. discriminate.
  - wrap_up Hrun Hhandler. apply Hshort in Hrun. rewrite Hrun in Hloads.
    rewrite Htraverse in Hloads. discriminate.
Qed.

Lemma write_config_setting_run fuel section key_name value s w s' w' t :
  run h (write_config_setting sep fuel section key_name value) s w
  = (Returned tt, s', w', t) ->
  exists r old config,
    loads t = [(local_config_file sep, r)] /\
    yaml_dict r = Some old /\
    set_setting (if negb (py_truthy old) then VDict ∅ else old) section key_name value
    = inr config /\
    dumps t = [(local_config_file sep, config)].
Proof.
  intros Hrun. unfold write_config_setting in Hrun.
  rewrite run_let, run_call in Hrun.
  destruct (h Getcwd w) as [[x|cwd0] w1]; cbn [and_then fst snd] in Hrun.
  { discriminate. }
  rewrite run_finally, run_let in Hrun.
  destruct (run h (_traverse_to_project_root sep fuel) s w1) as [[[o2 s2] w2] t2] eqn:Htraverse.
  apply traverse_navigates in Htraverse.
  pose proof (navigation_loads _ Htraverse) as Hloads.
  pose proof (navigation_dumps _ Htraverse) as Hdumps.
  assert (Hfails : forall (o1 : outcome unit) (s1 : unit) w1 t1,
             o1 <> Returned tt ->
             (let '(o, s', w', t') :=
                finally_then h (o1, s1, w1, t1) (call (Chdir cwd0)) in
              (o, s', w', ([existT Getcwd (inr cwd0)] ++ t')%list))
             <> (Returned tt, s', w', t)).
  { intros o1 s1 w1' t1 Ho1 H1.
    apply saved_and_back in H1 as [(_ & ? & _)|(_ & r & _ & Ho)]; [discriminate|].
    destruct r; congruence. }
  destruct o2 as [[]|x|]; cbn [and_then] in Hrun;
    [|exfalso; revert Hrun; apply Hfails; discriminate..].
  rewrite run_let in Hrun.
  destruct (run_get_yaml_dict h (local_config_file sep) s2 w2) as (ol & El & Hol).
  rewrite El in Hrun. clear El.
  destruct (h (LoadYaml (local_config_file sep)) w2) as [r w3]. cbn [fst snd] in Hrun, Hol.
  destruct (yaml_dict r) as [old|] eqn:Hr; [subst ol|destruct Hol as [x ->]];
    cbn [and_then] in Hrun;
    [|exfalso; revert Hrun; cbv beta iota zeta; apply Hfails; discriminate].
  rewrite run_let, run_lift in Hrun.
  destruct (set_setting (if negb (py_truthy old) then VDict ∅ else old)
              section key_name value) as [x|config] eqn:Hset;
    cbn [and_then] in Hrun;
    [exfalso; revert Hrun; cbv beta iota zeta; apply Hfails; discriminate|].
  rewrite run_dump in Hrun.
  destruct (h (DumpYaml (local_config_file sep) config) w3) as [[x|[]] w4];
    cbn [fst snd] in Hrun;
    [exfalso; revert Hrun; cbv beta iota zeta; apply Hfails; discriminate|].
  cbv beta iota zeta in Hrun.
  apply saved_and_back in Hrun as [(? & _ & _)|(_ & rb & -> & _)]; [discriminate|].
  exists r, old, config.
  rewrite loads_cons, dumps_cons, !loads_app, !dumps_app, Hloads, Hdumps.
  repeat split; try reflexivity; assumption.
Qed.

(** The existence checks a run made. *)
Lemma get_environment_from_file_run fuel env_name s w o s' w' t :
  run h (get_environment_from_file sep fuel env_name) s w = (o, s', w', t) ->
  checks t = [((beanstalk_directory sep +:+ env_name) +:+ ".env.yml", inr false)] ->
  went_back t ->
  o = Raised (Builtin (UnboundLocalError "env")).
Proof.
  intros Hrun Hchecks Hback. unfold get_environment_from_file in Hrun.
  rewrite run_let, run_call in Hrun.
  destruct (h Getcwd w) as [[x|cwd0] w1]; cbn [and_then fst snd] in Hrun.
  { injection Hrun as <- <- <- <-. discriminate. }
  rewrite run_let, run_finally, run_except, run_let in Hrun.
  destruct (run h (_traverse_to_project_root sep fuel) s w1) as [[[o2 s2] w2] t2] eqn:Htraverse.
  apply traverse_navigates, navigation_checks in Htraverse.
  match type of Hrun with
  | context [except_then h _ ?handler] =>
      assert (Hhandler : forall x, pure h (handler x)) by (intros ?; solve_pure)
  end.
  assert (Hshort : forall (o1 : outcome (option pyval)) (s1 : unit) w1 t1,
             checks t1 = [] ->
             (let '(o, s', w', t') :=
                and_then (finally_then h (o1, s1, w1, t1) (call (Chdir cwd0)))
                  (fun env => run h match env with
                                    | Some env => Ret env
                                    | None => Raise (Builtin (UnboundLocalError "env"))
                                    end) in
              (o, s', w', ([existT Getcwd (inr cwd0)] ++ t')%list)) <> (o, s', w', t)).
  { intros o1 s1 w1' t1 Ht1 H1.
    assert (checks t = []); [|congruence].
    destruct o1 as [a|x|]; cbn [finally_then] in H1.
    - rewrite run_chdir in H1.
      destruct (h (Chdir cwd0) w1') as [[y|[]] w5]; cbn [fst snd and_then] in H1.
      + injection H1 as <- <- <- <-. rewrite checks_cons, checks_app, Ht1. reflexivity.
      + destruct a; cbn in H1; injection H1 as <- <- <- <-;
          rewrite checks_cons, !checks_app, Ht1; reflexivity.
    - rewrite run_chdir in H1.
      destruct (h (Chdir cwd0) w1') as [[y|[]] w5]; cbn [fst snd and_then] in H1;
        injection H1 as <- <- <- <-; rewrite checks_cons, checks_app, Ht1; reflexivity.
    - cbn in H1. injection H1 as <- <- <- <-. rewrite checks_cons, Ht1. reflexivity. }
  destruct o2 as [[]|x|]; cbn [and_then] in Hrun.
  - rewrite run_let, run_call in Hrun.
    destruct (h (Exists ((beanstalk_directory sep +:+ env_name) +:+ ".env.yml")) w2)
      as [[x|present] w3]; cbn [and_then fst snd] in Hrun.
    + wrap_up Hrun Hhandler.
      destruct o3 as [a|y|]; cbn [finally_then] in Hrun.
      * rewrite run_chdir in Hrun.
        destruct (h (Chdir cwd0) w3) as [[z|[]] w5]; cbn [fst snd and_then] in Hrun.
        -- injection Hrun as <- <- <- <-.
           rewrite checks_cons, !checks_app, Htraverse in Hchecks. discriminate.
        -- destruct a; cbn in Hrun; injection Hrun as <- <- <- <-;
             rewrite checks_cons, !checks_app, Htraverse in Hchecks; discriminate.
      * rewrite run_chdir in Hrun.
        destruct (h (Chdir cwd0) w3) as [[z|[]] w5]; cbn [fst snd and_then] in Hrun;
          injection Hrun as <- <- <- <-;
          rewrite checks_cons, !checks_app, Htraverse in Hchecks; discriminate.
      * cbn in Hrun. injection Hrun as <- <- <- <-.
        rewrite checks_cons, !checks_app, Htraverse in Hchecks; discriminate.
    + destruct present.
      * rewrite run_let, run_call in Hrun.
        destruct (h (LoadYaml ((beanstalk_directory sep +:+ env_name) +:+ ".env.yml")) w3)
          as [[x|env] w4]; cbn [and_then fst snd run app] in Hrun.
        -- wrap_up Hrun Hhandler.
           destruct o3 as [a|y|]; cbn [finally_then] in Hrun.
           ++ rewrite run_chdir in Hrun.
              destruct (h (Chdir cwd0) w4) as [[z|[]] w5]; cbn [fst snd and_then] in Hrun.
              ** injection Hrun as <- <- <- <-.
                 rewrite checks_cons, !checks_app, Htraverse in Hchecks. discriminate.
              ** destruct a; cbn in Hrun; injection Hrun as <- <- <- <-;
                   rewrite checks_cons, !checks_app, Htraverse in Hchecks; discriminate.
           ++ rewrite run_chdir in Hrun.
              destruct (h (Chdir cwd0) w4) as [[z|[]] w5]; cbn [fst snd and_then] in Hrun;
                injection Hrun as <- <- <- <-;
                rewrite checks_cons, !checks_app, Htraverse in Hchecks; discriminate.
           ++ cbn in Hrun. injection Hrun as <- <- <- <-.
              rewrite checks_cons, !checks_app, Htraverse in Hchecks; discriminate.
        -- cbv beta iota zeta in Hrun. cbn [except_then finally_then] in Hrun.
           rewrite run_chdir in Hrun.
           destruct (h (Chdir cwd0) w4) as [[z|[]] w5]; cbn in Hrun;
             injection Hrun as <- <- <- <-;
             rewrite checks_cons, !checks_app, Htraverse in Hchecks; discriminate.
      * cbn [run and_then except_then finally_then] in Hrun.
        rewrite run_chdir in Hrun.
        destruct (h (Chdir cwd0) w3) as [[z|[]] w5]; cbn in Hrun;
          injection Hrun as <- <- <- <-.
        -- rewrite app_comm_cons in Hback.
           apply went_back_snoc in Hback as [u Hu]. discriminate.
        -- reflexivity.
  - exfalso. wrap_up Hrun Hhandler. revert Hrun. apply Hshort. exact Htraverse.
  - exfalso. wrap_up Hrun Hhandler. revert Hrun. apply Hshort. exact Htraverse.
Qed.

End Runs.

(** ** The project root *)

Section Root.
Context {W : Type} (h : env external R W).
Variables (name : W -> string) (project : W -> bool) (parent : W -> W) (depth : W -> nat).
Hypothesis getcwd_name : forall w, h Getcwd w = (inr (name w), w).
Hypothesis isdir_project :
  forall w, h (Isdir (beanstalk_directory sep)) w = (inr (project w), w).
Hypothesis chdir_parent : forall w, h (Chdir pardir) w = (inr tt, parent w).
Hypothesis parent_depth :
  forall w, name (parent w) <> name w -> (depth (parent w) < depth w)%nat.

(** X7. On a file system where the working directory has a name, holds the
    [.elasticbeanstalk] directory or not, and has a parent that is nearer to
    the root unless it has the same name, [_traverse_to_project_root] ends
    (the fuel [depth w + 1] is enough): it returns in the nearest enclosing
    directory that holds [.elasticbeanstalk], or, if it reaches a directory
    whose parent has the same name before finding one, it raises
    [NotInitializedError('EB is not yet initialized')] from that parent. *)
Theorem traverse_to_project_root_finds_nearest_root fuel s w :
  (depth w < fuel)%nat ->
  exists k t,
    (forall j, (j < k)%nat -> project (Nat.iter j parent w) = false) /\
    let top := Nat.iter k parent w in
    (project top = true /\
     run h (_traverse_to_project_root sep fuel) s w = (Returned tt, s, top, t)) \/
    (project top = false /\ name (parent top) = name top /\
     run h (_traverse_to_project_root sep fuel) s w
     = (Raised (NotInitializedError "EB is not yet initialized"), s, parent top, t)).
Proof.
  apply (traverse_tree h name project parent depth);
    [exact getcwd_name|exact isdir_project|exact chdir_parent|exact parent_depth].
Qed.

Lemma traverse_outside fuel s w :
  (depth w < fuel)%nat ->
  (forall j, project (Nat.iter j parent w) = false) ->
  exists w' t,
    run h (_traverse_to_project_root sep fuel) s w
    = (Raised (NotInitializedError "EB is not yet initialized"), s, w', t).
Proof.
  intros Hfuel Hnone.
  destruct (traverse_tree h name project parent depth getcwd_name isdir_project
              chdir_parent parent_depth fuel s w Hfuel) as (k & t & _ & Hend).
  cbn zeta in Hend. destruct Hend as [[Htop _]|(_ & _ & Hrun)].
  - rewrite Hnone in Htop. discriminate.
  - eauto.
Qed.

Lemma get_config_setting_outside fuel section key_name fallback s w :
  (depth w < fuel)%nat ->
  (forall j, project (Nat.iter j parent w) = false) ->
  (forall w', (h (Chdir (name w)) w').1 = inr tt) ->
  exists w' t,
    run h (get_config_setting sep fuel section key_name fallback) s w
    = (match fallback with
       | Some fallback => Returned fallback
       | None => Raised (NotInitializedError "EB is not yet initialized")
       end, s, w', t).
Proof.
  intros Hfuel Hnone Hback.
  destruct (traverse_outside fuel s w Hfuel Hnone) as (w1 & t1 & Htraverse).
  unfold get_config_setting.
  rewrite run_let, run_call, getcwd_name. cbn [and_then fst snd].
  rewrite run_finally, run_except, run_let, Htraverse.
  cbn [and_then except_then].
  destruct fallback as [fallback|]; cbn [run finally_then];
    rewrite run_chdir; specialize (Hback w1);
    destruct (h (Chdir (name w)) w1) as [r w2]; cbn [fst snd] in Hback |- *;
    subst r; eauto.
Qed.

(** X13. Outside of any project (no enclosing directory holds
    [.elasticbeanstalk]), where the starting directory can be entered again:
    [get_config_setting] returns the default it was given and raises
    [NotInitializedError] when it was given none; [get_application_name]
    raises [NotInitializedError] even when it was given a default; and
    [get_default_profile] returns [None]. *)
Theorem config_outside_project fuel section key_name fallback s w :
  (depth w < fuel)%nat ->
  (forall j, project (Nat.iter j parent w) = false) ->
  (forall w', (h (Chdir (name w)) w').1 = inr tt) ->
  (run h (get_config_setting sep fuel section key_name fallback) s w).1.1.1
  = match fallback with
    | Some fallback => Returned fallback
    | None => Raised (NotInitializedError "EB is not yet initialized")
    end /\
  (run h (get_application_name sep fuel fallback) s w).1.1.1
  = Raised (NotInitializedError "EB is not yet initialized") /\
  (run h (get_default_profile sep fuel) s w).1.1.1 = Returned VNone.
Proof.
  intros Hfuel Hnone Hback. split; [|split].
  - destruct (get_config_setting_outside fuel section key_name fallback s w
                Hfuel Hnone Hback) as (w' & t & ->). reflexivity.
  - unfold get_application_name. rewrite run_let.
    destruct (get_config_setting_outside fuel "global" "application_name" None s w
                Hfuel Hnone Hback) as (w' & t & ->). reflexivity.
  - unfold get_default_profile. rewrite run_except.
    destruct (get_config_setting_outside fuel "global" "profile" None s w
                Hfuel Hnone Hback) as (w' & t & ->). reflexivity.
Qed.

End Root.

(** ** The working directory *)






(** ** Configuration settings *)

(** X9. Where [get_config_setting] finds the project root, loads the global
    and the local configuration and goes back, local gets priority: the value
    is the local setting if the local configuration has the key in the
    section, else the global one, else [None]; and a value of [None] is
    replaced by the default, if one was given.  A file that cannot be opened
    counts as an empty configuration.  This holds when the sections are dicts
    (the local configuration may also be empty); without that the lookups
    raise. *)
Theorem get_config_setting_local_over_global {W : Type} (h : env external R W)
    fuel section key_name fallback s w o s' w' t rg rl cg cl :
  run h (get_config_setting sep fuel section key_name fallback) s w = (o, s', w', t) ->
  loads t = [(global_config_file sep, rg); (local_config_file sep, rl)] ->
  went_back t ->
  yaml_dict rg = Some cg ->
  yaml_dict rl = Some cl ->
  section_is_dict cg section ->
  py_truthy cl = false \/ section_is_dict cl section ->
  o = Returned
        (or_default
           (match lookup_setting cl section key_name with
            | Some value => value
            | None => default VNone (lookup_setting cg section key_name)
            end) fallback).
Proof. apply get_config_setting_run. Qed.

(** X10. When [write_config_setting] returns, it has loaded the local
    configuration and written it back once, with the key of the section set
    to the value and every other setting as it was loaded. *)
Theorem write_config_setting_sets_one_setting {W : Type} (h : env external R W)
    fuel section key_name value s w s' w' t :
  run h (write_config_setting sep fuel section key_name value) s w
  = (Returned tt, s', w', t) ->
  exists r old config,
    loads t = [(local_config_file sep, r)] /\
    yaml_dict r = Some old /\
    dumps t = [(local_config_file sep, config)] /\
    lookup_setting config section key_name = Some value /\
    forall section' key_name',
      section' <> section \/ key_name' <> key_name ->
      lookup_setting config section' key_name' = lookup_setting old section' key_name'.
Proof.
  intros Hrun.
  destruct (write_config_setting_run h _ _ _ _ _ _ _ _ _ Hrun)
    as (r & old & config & Hloads & Hr & Hset & Hdumps).
  exists r, old, config.
  split; [exact Hloads|]. split; [exact Hr|]. split; [exact Hdumps|]. split.
  - apply set_setting_spec in Hset as (Hvalue & _). exact Hvalue.
  - intros section' key_name' Hother.
    apply set_setting_spec in Hset as (_ & _ & _ & Hkeeps).
    rewrite (Hkeeps _ _ Hother).
    destruct (py_truthy old) eqn:Htruthy; [reflexivity|].
    cbn [negb]. rewrite (falsy_no_setting old _ _ Htruthy).
    cbn. rewrite lookup_empty. reflexivity.
Qed.

(** X11. A setting written by [write_config_setting] is read back by
    [get_config_setting]: if the first returns, and the second then loads
    what the first wrote as the local configuration (whatever the global
    configuration, as long as its section is a dict), the second returns the
    value written, or the default in place of [None]. *)
Theorem config_setting_round_trip {W : Type} (h : env external R W)
    fuel section key_name value s w s' w' t :
  run h (write_config_setting sep fuel section key_name value) s w
  = (Returned tt, s', w', t) ->
  exists config,
    dumps t = [(local_config_file sep, config)] /\
    forall (W2 : Type) (h2 : env external R W2) fuel2 fallback s2 w2 o s3 w3 t2 rg cg,
      run h2 (get_config_setting sep fuel2 section key_name fallback) s2 w2
      = (o, s3, w3, t2) ->
      loads t2 = [(global_config_file sep, rg); (local_config_file sep, inr config)] ->
      went_back t2 ->
      yaml_dict rg = Some cg ->
      section_is_dict cg section ->
      o = Returned (or_default value fallback).
Proof.
  intros Hrun.
  destruct (write_config_setting_run h _ _ _ _ _ _ _ _ _ Hrun)
    as (r & old & config & Hloads & Hr & Hset & Hdumps).
  exists config. split; [exact Hdumps|].
  intros W2 h2 fuel2 fallback s2 w2 o s3 w3 t2 rg cg Hrun2 Hloads2 Hback Hrg Hcg.
  apply set_setting_spec in Hset as (Hvalue & Hsection & _ & _).
  rewrite (get_config_setting_run h2 _ _ _ _ _ _ _ _ _ _ _ _ _ _
             Hrun2 Hloads2 Hback Hrg eq_refl Hcg (or_intror Hsection)).
  rewrite Hvalue. reflexivity.
Qed.

(** X12. When the environment file does not exist, [get_environment_from_file]
    raises [UnboundLocalError]: where it finds the project root, asks once
    whether the [.env.yml] file of the environment exists, is told no and goes
    back, its [return env] reads a variable that was never assigned. *)
Theorem get_environment_from_file_missing_file {W : Type} (h : env external R W)
    fuel env_name s w o s' w' t :
  run h (get_environment_from_file sep fuel env_name) s w = (o, s', w', t) ->
  checks t = [((beanstalk_directory sep +:+ env_name) +:+ ".env.yml", inr false)] ->
  went_back t ->
  o = Raised (Builtin (UnboundLocalError "env")).
Proof. apply get_environment_from_file_run. Qed.

End Facts.

(** ** An example: a small disk *)

(** Directories are lists of names, innermost first; files hold YAML data. *)
Definition dir_name (dir : list string) : string :=
  "/" +:+ String.concat "/" (rev dir).

Definition file_name (dir : list string) (path : string) : string :=
  dir_name dir +:+ "/" +:+ path.

Abbreviation disk_state := (list string * gmap string pyval)%type.

Definition disk (directories projects : list (list string))
    : env external R disk_state :=
  fun c w =>
    match c return (error + R c) * disk_state with
    | Expanduser path => (inr ("/home" +:+ String.substring 1 (String.length path) path), w)
    | Getcwd => (inr (dir_name w.1), w)
    | Chdir path =>
        if String.eqb path pardir then (inr tt, (tail w.1, w.2))
        else match find (fun dir => String.eqb (dir_name dir) path) directories with
             | Some dir => (inr tt, (dir, w.2))
             | None => (inl (OSError 2%positive), w)
             end
    | Isdir path =>
        (inr (String.eqb path ".elasticbeanstalk/" && bool_decide (w.1 ∈ projects)), w)
    | Isfile path => (inr (bool_decide (is_Some (w.2 !! file_name w.1 path))), w)
    | Exists path => (inr (bool_decide (is_Some (w.2 !! file_name w.1 path))), w)
    | Makedirs _ => (inr tt, w)
    | Rmtree _ => (inr tt, w)
    | Remove _ => (inr tt, w)
    | Abspath path => (inr (file_name w.1 path), w)
    | Glob _ => (inr [], w)
    | Getenv _ => (inr None, w)
    | LoadYaml filename =>
        (match w.2 !! file_name w.1 filename with
         | Some data => inr data
         | None => inl (IOError 2%positive)
         end, w)
    | DumpYaml filename data => (inr tt, (w.1, <[file_name w.1 filename := data]> w.2))
    | ReadData _ => (inl (IOError 2%positive), w)
    | WriteData _ _ => (inr tt, w)
    end.

Definition home : list (list string) :=
  [["src"; "proj"; "home"]; ["proj"; "home"]; ["home"]; []].

Definition web_app_config : pyval :=
  VDict {[ "global" := VDict {[ "application_name" := VStr "web-app" ]} ]}.

Definition web_app_files : gmap string pyval :=
  {[ "/home/proj/.elasticbeanstalk/config.yml" := web_app_config ]}.

Definition in_src : disk_state := (["src"; "proj"; "home"], web_app_files).

Lemma run_parts {A B C D : Type} (r : A * B * C * D) :
  r = (r.1.1.1, r.1.1.2, r.1.2, r.2).
Proof. destruct r as [[[a b] c] d]. reflexivity. Qed.

Lemma traverse_to_project_root_finds_nearest_root_witness :
  exists k t,
    (forall j, (j < k)%nat ->
               bool_decide ((Nat.iter j (fun w : disk_state => (tail w.1, w.2)) in_src).1
                            ∈ [["proj"; "home"]]) = false) /\
    let top := Nat.iter k (fun w : disk_state => (tail w.1, w.2)) in_src in
    (bool_decide (top.1 ∈ [["proj"; "home"]]) = true /\
     run (disk home [["proj"; "home"]]) (_traverse_to_project_root "/" 4) tt in_src
     = (Returned tt, tt, top, t)) \/
    (bool_decide (top.1 ∈ [["proj"; "home"]]) = false /\
     dir_name (tail top.1) = dir_name top.1 /\
     run (disk home [["proj"; "home"]]) (_traverse_to_project_root "/" 4) tt in_src
     = (Raised (NotInitializedError "EB is not yet initialized"), tt, (tail top.1, top.2), t)).
Proof.
  refine (traverse_to_project_root_finds_nearest_root "/"
            (disk home [["proj"; "home"]])
            (fun w => dir_name w.1)
            (fun w => bool_decide (w.1 ∈ [["proj"; "home"]]))
            (fun w => (tail w.1, w.2))
            (fun w => length w.1)
            _ _ _ _ 4%nat tt in_src _).
  - intros [cwd files]. reflexivity.
  - intros [cwd files]. reflexivity.
  - intros [cwd files]. reflexivity.
  - intros [[|dir cwd] files]; cbn; [congruence|lia].
  - cbn. lia.
Defined.


Definition old_app_config : pyval :=
  VDict {[ "global" := VDict {[ "application_name" := VStr "old-app" ]} ]}.

Definition both_files : gmap string pyval :=
  {[ "/home/proj/.elasticbeanstalk/config.global.yml" := old_app_config;
     "/home/proj/.elasticbeanstalk/config.yml" := web_app_config ]}.

Lemma get_config_setting_local_over_global_witness :
  (run (disk home [["proj"; "home"]])
     (get_config_setting "/" 4 "global" "application_name" None)
     tt (["src"; "proj"; "home"], both_files)).1.1.1
  = Returned
      (or_default
         (match lookup_setting web_app_config "global" "application_name" with
          | Some value => value
          | None => default VNone (lookup_setting old_app_config "global" "application_name")
          end) None).
Proof.
  refine (get_config_setting_local_over_global "/" (disk home [["proj"; "home"]])
            4 "global" "application_name" None tt (["src"; "proj"; "home"], both_files)
            _ _ _ _ (inr old_app_config) (inr web_app_config)
            old_app_config web_app_config _ _ _ _ _ _ _).
  - apply run_parts.
  - vm_compute. reflexivity.
  - vm_compute. exact I.
  - reflexivity.
  - reflexivity.
  - vm_compute. exact I.
  - right. vm_compute. exact I.
Defined.

Definition write_region :=
  run (disk home [["proj"; "home"]])
    (write_config_setting "/" 4 "global" "default_region" (VStr "eu-west-1"))
    tt in_src.

Lemma write_region_returns :
  write_region = (Returned tt, write_region.1.1.2, write_region.1.2, write_region.2).
Proof. vm_compute. reflexivity. Qed.

Lemma write_config_setting_sets_one_setting_witness :
  exists r old config,
    loads write_region.2 = [(local_config_file "/", r)] /\
    yaml_dict r = Some old /\
    dumps write_region.2 = [(local_config_file "/", config)] /\
    lookup_setting config "global" "default_region" = Some (VStr "eu-west-1") /\
    forall section' key_name',
      section' <> "global" \/ key_name' <> "default_region" ->
      lookup_setting config section' key_name' = lookup_setting old section' key_name'.
Proof.
  exact (write_config_setting_sets_one_setting "/" (disk home [["proj"; "home"]])
           4 "global" "default_region" (VStr "eu-west-1") tt in_src _ _ _
           write_region_returns).
Defined.

Lemma config_setting_round_trip_witness :
  exists config,
    dumps write_region.2 = [(local_config_file "/", config)] /\
    forall (W2 : Type) (h2 : env external R W2) fuel2 fallback s2 w2 o s3 w3 t2 rg cg,
      run h2 (get_config_setting "/" fuel2 "global" "default_region" fallback) s2 w2
      = (o, s3, w3, t2) ->
      loads t2 = [(global_config_file "/", rg); (local_config_file "/", inr config)] ->
      went_back t2 ->
      yaml_dict rg = Some cg ->
      section_is_dict cg "global" ->
      o = Returned (or_default (VStr "eu-west-1") fallback).
Proof.
  exact (config_setting_round_trip "/" (disk home [["proj"; "home"]])
           4 "global" "default_region" (VStr "eu-west-1") tt in_src _ _ _
           write_region_returns).
Defined.

Lemma get_environment_from_file_missing_file_witness :
  (run (disk home [["proj"; "home"]]) (get_environment_from_file "/" 4 "prod")
     tt in_src).1.1.1
  = Raised (Builtin (UnboundLocalError "env")).
Proof.
  refine (get_environment_from_file_missing_file "/" (disk home [["proj"; "home"]])
            4 "prod" tt in_src _ _ _ _ _ _ _).
  - apply run_parts.
  - vm_compute. reflexivity.
  - vm_compute. exact I.
Defined.

Lemma config_outside_project_witness :
  (run (disk home []) (get_config_setting "/" 4 "global" "application_name"
                         (Some (VStr "my-app"))) tt in_src).1.1.1
  = Returned (VStr "my-app") /\
  (run (disk home []) (get_application_name "/" 4 (Some (VStr "my-app"))) tt in_src).1.1.1
  = Raised (NotInitializedError "EB is not yet initialized") /\
  (run (disk home []) (get_default_profile "/" 4) tt in_src).1.1.1 = Returned VNone.
Proof.
  refine (config_outside_project "/" (disk home [])
            (fun w => dir_name w.1)
            (fun w => bool_decide (w.1 ∈ []))
            (fun w => (tail w.1, w.2))
            (fun w => length w.1)
            _ _ _ _ 4%nat "global" "application_name" (Some (VStr "my-app"))
            tt in_src _ _ _).
  - intros [cwd files]. reflexivity.
  - intros [cwd files]. reflexivity.
  - intros [cwd files]. reflexivity.
  - intros [[|dir cwd] files]; cbn; [congruence|lia].
  - cbn. lia.
  - intros j. apply bool_decide_eq_false, not_elem_of_nil.
  - intros [cwd files]. reflexivity.
Defined.

End FileoperationsFacts.

(** ** EC2 *)

Module Ec2Facts.
Import Eb Ec2 EbFacts.

Section Calls.
Context {W : Type} (h : env external R W).

Lemma run_api c (s : unit) w :
  run h (call c : ec2_prog pyval) s w
  = (match (h c w).1 with inl x => Raised x | inr a => Returned a end,
     s, (h c w).2, [existT c (h c w).1]).
Proof. exact (run_call h c s w). Qed.

End Calls.

Section Instances.
Context {W : Type} (h : env external R W).

(** X14. [describe_instance] returns the first instance of the first
    reservation of the answer; it raises [NotFoundError('Instance <id> not
    found.')] when the answer has no reservation or the first reservation has
    no instance; an answer without the key ['Reservations'], or a reservation
    without ['Instances'], is a [KeyError], which is not translated. *)
Theorem describe_instance_first_or_not_found instance_id s w w1 (d : gmap string pyval) :
  h (MakeApiCall "ec2" "describe_instances" [("InstanceIds", VList [VStr instance_id])]) w
  = (inr (VDict d), w1) ->
  let outcome_of := (run h (describe_instance instance_id) s w).1.1.1 in
  let not_found :=
    Raised (NotFoundError ("Instance " +:+ instance_id +:+ " not found.")) in
  (d !! "Reservations" = None -> outcome_of = Raised (Builtin (KeyError "Reservations"))) /\
  (d !! "Reservations" = Some (VList []) -> outcome_of = not_found) /\
  (forall (reservation : gmap string pyval) reservations,
      d !! "Reservations" = Some (VList (VDict reservation :: reservations)) ->
      (reservation !! "Instances" = None ->
       outcome_of = Raised (Builtin (KeyError "Instances"))) /\
      (reservation !! "Instances" = Some (VList []) -> outcome_of = not_found) /\
      (forall instance instances,
          reservation !! "Instances" = Some (VList (instance :: instances)) ->
          outcome_of = Returned instance)).
Proof.
  intros Hcall outcome_of not_found. subst outcome_of not_found.
  assert (Hrun : forall reservations,
             d !! "Reservations" = reservations ->
             (run h (describe_instance instance_id) s w).1.1.1
             = match reservations with
               | None => Raised (Builtin (KeyError "Reservations"))
               | Some (VList []) =>
                   Raised (NotFoundError ("Instance " +:+ instance_id +:+ " not found."))
               | Some (VList (VDict reservation :: _)) =>
                   match reservation !! "Instances" with
                   | None => Raised (Builtin (KeyError "Instances"))
                   | Some (VList []) =>
                       Raised (NotFoundError
                                 ("Instance " +:+ instance_id +:+ " not found."))
                   | Some (VList (instance :: _)) => Returned instance
                   | Some _ =>
                       (run h (describe_instance instance_id) s w).1.1.1
                   end
               | Some _ => (run h (describe_instance instance_id) s w).1.1.1
               end).
  { intros reservations Hd.
    destruct reservations as [[| | | |[|[| | | | |reservation] ?]|]|]; try reflexivity.
    - unfold describe_instance, _make_api_call.
      rewrite run_let, run_api, Hcall. cbn [and_then fst snd].
      rewrite run_except, run_let, run_lift. unfold py_getitem at 1.
      rewrite Hd. reflexivity.
    - destruct (reservation !! "Instances") as [[| | | |[|instance ?]|]|] eqn:Hi;
        try reflexivity;
        unfold describe_instance, _make_api_call;
        rewrite run_let, run_api, Hcall; cbn [and_then fst snd];
        rewrite run_except, run_let, run_lift; unfold py_getitem at 1;
        rewrite Hd; cbn [and_then];
        rewrite run_let; cbn [first_item lift_error run and_then];
        rewrite run_let, run_lift; unfold py_getitem;
        rewrite Hi; reflexivity.
    - unfold describe_instance, _make_api_call.
      rewrite run_let, run_api, Hcall. cbn [and_then fst snd].
      rewrite run_except, run_let, run_lift. unfold py_getitem at 1.
      rewrite Hd. reflexivity. }
  split; [|split].
  - intros Hd. rewrite (Hrun _ Hd). reflexivity.
  - intros Hd. rewrite (Hrun _ Hd). reflexivity.
  - intros reservation reservations Hd. split; [|split].
    + intros Hi. rewrite (Hrun _ Hd), Hi. reflexivity.
    + intros Hi. rewrite (Hrun _ Hd), Hi. reflexivity.
    + intros instance instances Hi. rewrite (Hrun _ Hd), Hi. reflexivity.
Qed.

End Instances.

(** An account attribute that is not the default VPC. *)
Definition other_attribute (attribute : pyval) : Prop :=
  exists attribute_name,
    py_getitem attribute "AttributeName" = inr attribute_name /\
    is_str "default-vpc" attribute_name = false.

Section DefaultVpc.
Context {W : Type} (h : env external R W).
Variables (dict_keys : gmap string pyval -> list string) (lower : string -> string).

Lemma default_vpc_loop_others attributes default_vpc s w :
  Forall other_attribute attributes ->
  run h (default_vpc_loop attributes default_vpc) s w = (Returned default_vpc, s, w, []).
Proof.
  induction 1 as [|attribute attributes (attribute_name & Hname & Hother) _ IH];
    [reflexivity|].
  cbn [default_vpc_loop]. rewrite run_let, run_lift, Hname. cbn [and_then].
  rewrite Hother, run_let. cbn [run and_then]. rewrite IH. reflexivity.
Qed.

Lemma default_vpc_loop_found before (attribute : gmap string pyval) after
    default_vpc s w :
  Forall other_attribute before ->
  Forall other_attribute after ->
  attribute !! "AttributeName" = Some (VStr "default-vpc") ->
  run h (default_vpc_loop (before ++ VDict attribute :: after) default_vpc) s w
  = (match attribute !! "AttributeValues" with
     | None => Returned VNone
     | Some values =>
         match first_item values with
         | inl IndexError | inl (Builtin (KeyError _)) => Returned VNone
         | inl x => Raised x
         | inr value =>
             match py_getitem value "AttributeValue" with
             | inl (KeyError _) => Returned VNone
             | inl x => Raised (Builtin x)
             | inr default_vpc => Returned default_vpc
             end
         end
     end, s, w, []).
Proof.
  intros Hbefore Hafter Hname. revert default_vpc.
  induction Hbefore as [|other before (attribute_name & Hother & Hnot) _ IH];
    intros default_vpc.
  - cbn [app default_vpc_loop]. rewrite run_let, run_lift. unfold py_getitem at 1.
    rewrite Hname. cbn [and_then is_str String.eqb Ascii.eqb Bool.eqb].
    rewrite run_let, run_except, run_let, run_lift. unfold py_getitem at 1.
    destruct (attribute !! "AttributeValues") as [values|]; cbn [and_then except_then run].
    + rewrite run_let.
      destruct (first_item values) as [x|value]; cbn [lift_error run and_then except_then].
      * destruct x as [[]| | | | | | | | | | | |]; cbn [run and_then];
          rewrite ?default_vpc_loop_others by assumption; reflexivity.
      * rewrite run_lift.
        destruct (py_getitem value "AttributeValue") as [x|found];
          cbn [except_then run and_then].
        -- destruct x; cbn [run and_then];
             rewrite ?default_vpc_loop_others by assumption; reflexivity.
        -- rewrite default_vpc_loop_others by assumption. reflexivity.
    + rewrite default_vpc_loop_others by assumption. reflexivity.
  - cbn [app default_vpc_loop]. rewrite run_let, run_lift, Hother. cbn [and_then].
    rewrite Hnot, run_let. cbn [run and_then]. rewrite IH. reflexivity.
Qed.

(** X15. [has_default_vpc] finds the ['default-vpc'] attribute wherever it
    stands among the other account attributes: it is true when the first of
    its values has a non-empty ['AttributeValue'] that is not ['none'] in any
    letter case, and false when the attribute has no values. *)
Theorem has_default_vpc_among_attributes s w w1 (d attribute : gmap string pyval)
    before after :
  h (MakeApiCall "ec2" "describe_account_attributes"
       [("AttributeNames", VList [VStr "default-vpc"])]) w = (inr (VDict d), w1) ->
  d !! "AccountAttributes" = Some (VList (before ++ VDict attribute :: after)) ->
  Forall other_attribute before ->
  Forall other_attribute after ->
  attribute !! "AttributeName" = Some (VStr "default-vpc") ->
  let outcome_of := (run h (has_default_vpc dict_keys lower) s w).1.1.1 in
  (forall (value : gmap string pyval) values vpc,
      attribute !! "AttributeValues" = Some (VList (VDict value :: values)) ->
      value !! "AttributeValue" = Some (VStr vpc) ->
      outcome_of
      = Returned (negb (String.eqb vpc "") && negb (String.eqb (lower vpc) "none"))) /\
  (attribute !! "AttributeValues" = None \/
   attribute !! "AttributeValues" = Some (VList []) ->
   outcome_of = Returned false).
Proof.
  intros Hcall Hattributes Hbefore Hafter Hname outcome_of. subst outcome_of.
  pose proof (fun default_vpc s w =>
                default_vpc_loop_found before attribute after default_vpc s w
                  Hbefore Hafter Hname) as Hloop.
  assert (Hrun : forall found,
             (forall default_vpc s w,
                 run h (default_vpc_loop (before ++ VDict attribute :: after) default_vpc) s w
                 = (Returned found, s, w, [])) ->
             (run h (has_default_vpc dict_keys lower) s w).1.1.1
             = if py_truthy found
               then match found with
                    | VStr vpc => Returned (negb (String.eqb (lower vpc) "none"))
                    | _ => Raised (Builtin (AttributeError
                                              "object has no attribute 'lower'"))
                    end
               else Returned false).
  { intros found Hfound. unfold has_default_vpc, _make_api_call.
    rewrite run_let, run_api, Hcall. cbn [and_then fst snd].
    rewrite run_let, run_lift. unfold py_getitem at 1. rewrite Hattributes.
    cbn [and_then]. rewrite run_let. cbn [Compose.py_iter lift run and_then].
    rewrite run_let, Hfound. cbn [and_then].
    destruct (py_truthy found); [|reflexivity]. destruct found; reflexivity. }
  split.
  - intros value values vpc Hvalues Hvalue. rewrite (Hrun (VStr vpc)).
    + cbn [py_truthy]. destruct (String.eqb vpc ""); reflexivity.
    + intros default_vpc s0 w0. rewrite Hloop, Hvalues. cbn [first_item].
      unfold py_getitem. rewrite Hvalue. reflexivity.
  - intros Hvalues. rewrite (Hrun VNone); [reflexivity|].
    intros default_vpc s0 w0. rewrite Hloop.
    destruct Hvalues as [-> | ->]; reflexivity.
Qed.

End DefaultVpc.

Definition account : env external R unit :=
  fun c w =>
    match c with
    | MakeApiCall _ "describe_instances" _ =>
        (inr (VDict {[ "Reservations" :=
                         VList [VDict {[ "Instances" :=
                                           VList [VDict {[ "InstanceId" := VStr "i-1234" ]}]
                                      ]}] ]}), w)
    | MakeApiCall _ "describe_account_attributes" _ =>
        (inr (VDict {[ "AccountAttributes" :=
                         VList [VDict {[ "AttributeName" := VStr "supported-platforms" ]};
                                VDict {[ "AttributeName" := VStr "default-vpc";
                                         "AttributeValues" :=
                                           VList [VDict {[ "AttributeValue" := VStr "vpc-1a2b" ]}]
                                      ]}] ]}), w)
    | _ => (inl (ServiceError "Unknown operation" "InvalidAction"), w)
    end.

Lemma describe_instance_first_or_not_found_witness :
  (run account (describe_instance "i-1234") tt tt).1.1.1
  = Returned (VDict {[ "InstanceId" := VStr "i-1234" ]}).
Proof.
  destruct (describe_instance_first_or_not_found account "i-1234" tt tt tt _ eq_refl)
    as (_ & _ & Hfirst).
  destruct (Hfirst {[ "Instances" := VList [VDict {[ "InstanceId" := VStr "i-1234" ]}] ]} [])
    as (_ & _ & Hinstance); [apply lookup_singleton_eq|].
  apply (Hinstance _ []). apply lookup_singleton_eq.
Defined.

Lemma has_default_vpc_among_attributes_witness :
  (run account (has_default_vpc (fun _ => []) id) tt tt).1.1.1
  = Returned (negb (String.eqb "vpc-1a2b" "") && negb (String.eqb (id "vpc-1a2b") "none")).
Proof.
  refine (proj1 (has_default_vpc_among_attributes account (fun _ => []) id tt tt tt
                   _ {[ "AttributeName" := VStr "default-vpc";
                        "AttributeValues" :=
                          VList [VDict {[ "AttributeValue" := VStr "vpc-1a2b" ]}] ]}
                   [VDict {[ "AttributeName" := VStr "supported-platforms" ]}] []
                   eq_refl _ _ _ _)
            {[ "AttributeValue" := VStr "vpc-1a2b" ]} [] "vpc-1a2b" _ _).
  - apply lookup_singleton_eq.
  - repeat constructor. exists (VStr "supported-platforms"). split; [|reflexivity].
    unfold py_getitem. rewrite lookup_singleton_eq. reflexivity.
  - constructor.
  - vm_compute. reflexivity.
  - vm_compute. reflexivity.
  - apply lookup_singleton_eq.
Defined.

End Ec2Facts.

(** ** Solution stacks *)

Module SolutionStacksFacts.
Import Eb SolutionStacks EbFacts.

Lemma servers_step_head servers0 first (stacks : list SolutionStack) :
  hd_error
    (foldl (fun servers stack =>
              if existsb (String.eqb (server stack)) servers
              then servers
              else (servers ++ [server stack])%list)
       (first :: servers0) stacks)
  = Some first.
Proof.
  revert servers0. induction stacks as [|stack stacks IH]; intros servers0; [reflexivity|].
  cbn [foldl].
  destruct (existsb (String.eqb (server stack)) (first :: servers0)); [apply IH|].
  rewrite <- app_comm_cons. apply IH.
Qed.

Lemma servers_of_head first (stacks : list SolutionStack) :
  hd_error (servers_of (first :: stacks)) = Some (server first).
Proof. unfold servers_of. cbn [foldl existsb app]. apply servers_step_head. Qed.

Lemma filter_nil_forallb {A : Type} (f : A -> bool) (l : list A) :
  (length (List.filter f l) =? 0)%nat = forallb (fun x => negb (f x)) l.
Proof.
  induction l as [|x l IH]; [reflexivity|].
  cbn [List.filter forallb]. destruct (f x); [reflexivity|exact IH].
Qed.

Section Latest.
Context {W : Type} (h : env external R W).
Variables (strings : string -> string) (replace : string -> string -> string -> string).

(** X16. [get_latest_solution_stack] works on the list it is given or, when
    it is given none or an empty one, on the available solution stacks.  It
    raises [NotFoundError] when no stack of the list has the version; else it
    returns the first stack of the list that has the version, provided no
    later stack of the version runs the same server, and fails its assertion
    when one does. *)
Theorem get_latest_solution_stack_first_of_version platform_version stack_list
    solution_stacks s w :
  (stack_list = Some solution_stacks /\ solution_stacks <> []) \/
  ((stack_list = None \/ stack_list = Some []) /\
   (h GetAvailableSolutionStacks w).1 = inr solution_stacks) ->
  (run h (get_latest_solution_stack strings replace platform_version stack_list) s w).1.1.1
  = match List.filter (fun x => String.eqb (version x) platform_version) solution_stacks with
    | [] =>
        Raised (NotFoundError
                  (replace (strings "sstacks.notaversion") "{version}" platform_version))
    | first :: others =>
        if forallb (fun x => negb (String.eqb (server x) (server first))) others
        then Returned first
        else Raised (AssertionError
                       "Filtered Solution Stack list contains multiple results")
    end.
Proof.
  intros Hlist. unfold get_latest_solution_stack. rewrite run_let.
  assert (Hchosen : exists w' t,
             run h match stack_list with
                   | Some (stack :: stacks) => Ret (stack :: stacks)
                   | _ => call GetAvailableSolutionStacks
                   end s w
             = (Returned solution_stacks, s, w', t)).
  { destruct Hlist as [[-> Hne]|[Hnone Hcall]].
    - destruct solution_stacks as [|stack stacks]; [congruence|].
      exists w, []. reflexivity.
    - assert (Hrun : run h (call GetAvailableSolutionStacks) s w
                     = (Returned solution_stacks, s, (h GetAvailableSolutionStacks w).2,
                        [existT GetAvailableSolutionStacks (inr solution_stacks)])).
      { rewrite run_call, Hcall. reflexivity. }
      destruct Hnone as [-> | ->]; eauto. }
  destruct Hchosen as (w' & t & ->). cbn [and_then].
  destruct (List.filter (fun x => String.eqb (version x) platform_version) solution_stacks)
    as [|first others]; [reflexivity|].
  pose proof (servers_of_head first others) as Hhead.
  destruct (servers_of (first :: others)) as [|server0 servers]; [discriminate|].
  injection Hhead as ->.
  cbn [List.filter]. rewrite String.eqb_refl. cbn [length].
  change (Datatypes.S ?n =? 1)%nat with (n =? 0)%nat.
  rewrite filter_nil_forallb.
  destruct (forallb (fun x => negb (String.eqb (server x) (server first))) others);
    reflexivity.
Qed.

End Latest.

Definition php : SolutionStack :=
  {| name := "64bit Amazon Linux 2014.09 v1.0.9 running PHP 5.5";
     platform := "PHP"; version := "PHP 5.5"; server := "" |}.

Definition tomcat7 : SolutionStack :=
  {| name := "64bit Amazon Linux 2014.09 v1.0.9 running Tomcat 7 Java 7";
     platform := "Tomcat"; version := "Java 7"; server := "Tomcat 7" |}.

Definition tomcat8 : SolutionStack :=
  {| name := "64bit Amazon Linux 2014.09 v1.0.9 running Tomcat 8 Java 7";
     platform := "Tomcat"; version := "Java 7"; server := "Tomcat 8" |}.

Definition available : env external R unit :=
  fun c w => (inr [php; tomcat7; tomcat8], w).

Lemma get_latest_solution_stack_first_of_version_witness :
  (run available (get_latest_solution_stack id (fun s _ _ => s) "Java 7" None) tt tt).1.1.1
  = match List.filter (fun x => String.eqb (version x) "Java 7") [php; tomcat7; tomcat8] with
    | [] => Raised (NotFoundError "sstacks.notaversion")
    | first :: others =>
        if forallb (fun x => negb (String.eqb (server x) (server first))) others
        then Returned first
        else Raised (AssertionError
                       "Filtered Solution Stack list contains multiple results")
    end.
Proof.
  apply (get_latest_solution_stack_first_of_version available id (fun s _ _ => s)
           "Java 7" None [php; tomcat7; tomcat8] tt tt).
  right. split; [left; reflexivity|reflexivity].
Defined.

End SolutionStacksFacts.

(** ** Uploading a key pair *)

Module KeypairsFacts.
Import Eb Keypairs EbFacts.

(** The commands a run executed, with what came of them. *)
Definition executed (e : entry external R)
    : option (list string * (error + string * string * Z)) :=
  match e with
  | existT c r =>
      match c return error + R c -> option (list string * (error + string * string * Z)) with
      | ExecCmd args => fun r => Some (args, r)
      | _ => fun _ => None
      end r
  end.

Definition execs (t : list (entry external R)) :=
  omap executed t.

(** The arguments of the [import_key_pair] calls of a run. *)
Definition imported (c : external) : option (list (string * pyval)) :=
  match c with
  | Ec2Call (Ec2.MakeApiCall _ "import_key_pair" operation_options) =>
      Some operation_options
  | _ => None
  end.

Definition imports (t : list (entry external R)) : list (list (string * pyval)) :=
  omap imported (calls t).

Lemma execs_app t1 t2 : execs (t1 ++ t2) = (execs t1 ++ execs t2)%list.
Proof. apply omap_app. Qed.

Lemma imports_app t1 t2 : imports (t1 ++ t2) = (imports t1 ++ imports t2)%list.
Proof. unfold imports, calls. rewrite map_app. apply omap_app. Qed.

Lemma execs_embedded {E0 : Type} (inj : E0 -> external) (cs : list E0)
    (t : list (entry external R)) :
  (forall c args, inj c <> ExecCmd args) ->
  calls t = map inj cs -> execs t = [].
Proof.
  intros Hinj. revert cs. induction t as [|[c r] t IH]; intros cs Hcalls; [reflexivity|].
  destruct cs as [|c0 cs]; [discriminate|]. cbn in Hcalls. injection Hcalls as -> Hcalls.
  unfold execs. cbn [omap list_omap executed].
  destruct (inj c0) eqn:Hc; try (exact (IH _ Hcalls)).
  exfalso. exact (Hinj _ _ Hc).
Qed.

Lemma imports_of_file (cs : list Fileoperations.external) (t : list (entry external R)) :
  calls t = map File cs -> imports t = [].
Proof.
  unfold imports. intros ->. induction cs as [|c cs IH]; [reflexivity|exact IH].
Qed.

Section Upload.
Context {W : Type} (h : env external R W).
Variables (sep : string) (strings : string -> string)
          (replace : string -> string -> string -> string)
          (dict_keys : gmap string pyval -> list string).

Lemma run_keys_of_file {A : Type} (p : Fileoperations.file_prog A) s w o s' w' t :
  run h (of_file p) s w = (o, s', w', t) -> execs t = [] /\ imports t = [].
Proof.
  unfold of_file. intros Hrun.
  destruct (run_embed File (fun _ a => a) h p s w) as (t' & E & Hcalls).
  rewrite E in Hrun. injection Hrun as _ _ _ <-. split.
  - apply (execs_embedded File _ _ ltac:(discriminate) Hcalls).
  - apply (imports_of_file _ _ Hcalls).
Qed.

Lemma run_get_key_pairs s w o s' w' t :
  run h (of_ec2 Ec2.get_key_pairs) s w = (o, s', w', t) -> execs t = [] /\ imports t = [].
Proof.
  unfold of_ec2. intros Hrun.
  destruct (run_embed Ec2Call (fun _ a => a) h Ec2.get_key_pairs s w) as (t' & E & Hcalls).
  rewrite E in Hrun. injection Hrun as _ _ _ <-. split.
  - apply (execs_embedded Ec2Call _ _ ltac:(discriminate) Hcalls).
  - unfold imports. rewrite Hcalls. unfold Ec2.get_key_pairs, Ec2._make_api_call.
    rewrite run_let, Ec2Facts.run_api. cbn [fst snd].
    destruct (restrict Ec2Call (fun _ a => a) h
                (Ec2.MakeApiCall "ec2" "describe_key_pairs" []) w) as [[x|result] w1];
      cbn [fst snd and_then]; [reflexivity|].
    rewrite run_lift. reflexivity.
Qed.

Lemma run_import_key_pair keyname key_material s w o s' w' t :
  run h (of_ec2 (Ec2.import_key_pair keyname key_material)) s w = (o, s', w', t) ->
  execs t = [] /\
  imports t = [[("KeyName", keyname); ("PublicKeyMaterial", key_material)]].
Proof.
  unfold of_ec2. intros Hrun.
  destruct (run_embed Ec2Call (fun _ a => a) h (Ec2.import_key_pair keyname key_material)
              s w) as (t' & E & Hcalls).
  rewrite E in Hrun. injection Hrun as _ _ _ <-. split.
  - apply (execs_embedded Ec2Call _ _ ltac:(discriminate) Hcalls).
  - unfold imports. rewrite Hcalls. unfold Ec2.import_key_pair, Ec2._make_api_call.
    rewrite run_except, Ec2Facts.run_api. cbn [fst snd].
    destruct (restrict Ec2Call (fun _ a => a) h
                (Ec2.MakeApiCall "ec2" "import_key_pair"
                   [("KeyName", keyname); ("PublicKeyMaterial", key_material)]) w)
      as [[x|result] w1]; cbn [fst snd except_then]; [|reflexivity].
    assert (Hpure : forall y : error,
               exists o1,
                 run (restrict Ec2Call (fun _ a => a) h)
                   (match y with
                    | ServiceError message _ =>
                        if Ec2.endswith message "already exists."
                        then Raise (AlreadyExistsError message)
                        else Raise y
                    | _ => Raise y
                    end : Ec2.ec2_prog pyval) s w1 = (o1, s, w1, [])).
    { intros y. destruct y; try (eexists; reflexivity).
      destruct (Ec2.endswith message "already exists."); eexists; reflexivity. }
    destruct (Hpure x) as (o1 & ->). reflexivity.
Qed.

Lemma run_exists path (s : unit) w :
  run h (call (File (Fileoperations.Exists path)) : keys_prog bool) s w
  = (match (h (File (Fileoperations.Exists path)) w).1 with
     | inl x => Raised x
     | inr a => Returned a
     end, s, (h (File (Fileoperations.Exists path)) w).2,
     [existT (File (Fileoperations.Exists path))
        (h (File (Fileoperations.Exists path)) w).1]).
Proof. exact (run_call h (File (Fileoperations.Exists path)) s w). Qed.

Lemma run_exec args (s : unit) w :
  run h (call (ExecCmd args) : keys_prog (string * string * Z)) s w
  = (match (h (ExecCmd args) w).1 with
     | inl x => Raised x
     | inr a => Returned a
     end, s, (h (ExecCmd args) w).2, [existT (ExecCmd args) (h (ExecCmd args) w).1]).
Proof. exact (run_call h (ExecCmd args) s w). Qed.

(** The end of [_get_public_ssh_key]: running [ssh-keygen] on the key file. *)
Lemma run_ssh_keygen file_name s w o s' w' t :
  run h
    (try_except
       (let+ (stdout, stderr, returncode) :=
          call (ExecCmd ["ssh-keygen"; "-y"; "-f"; file_name]) in
        if negb (returncode =? 0)%Z
        then Raise (CommandError
                      "An error occurred while trying to get ssh public key")
        else Ret (VStr stdout))
       (fun e =>
          match e with
          | OSError _ => Ret VNone
          | _ => Raise e
          end)) s w = (o, s', w', t) ->
  imports t = [] /\
  exists args r, execs t = [(args, r)] /\ forall n, r = inl (OSError n) -> o = Returned VNone.
Proof.
  rewrite run_except, run_let, run_exec.
  destruct (h (ExecCmd ["ssh-keygen"; "-y"; "-f"; file_name]) w) as [[x|[[stdout stderr] code]] w1];
    cbn [fst snd and_then except_then].
  - assert (Hpure : exists o1,
               run h (match x with
                      | OSError _ => Ret VNone
                      | _ => Raise x
                      end : keys_prog pyval) s w1 = (o1, s, w1, []) /\
               forall n, x = OSError n -> o1 = Returned VNone).
    { destruct x; eexists; (split; [reflexivity|]); intros n Hn;
        try discriminate; reflexivity. }
    destruct Hpure as (o1 & -> & Hos). intros [= <- <- <- <-].
    split; [reflexivity|]. eexists _, _. split; [reflexivity|].
    intros n [= ->]. eauto.
  - destruct (negb (code =? 0)%Z); cbn [run except_then];
      intros [= <- <- <- <-]; (split; [reflexivity|]);
      eexists _, _; (split; [reflexivity|]); intros n Hn; discriminate.
Qed.

Lemma get_public_ssh_key_run keypair_name s w o s' w' t :
  run h (_get_public_ssh_key sep strings replace keypair_name) s w = (o, s', w', t) ->
  imports t = [] /\
  (execs t = [] /\ (forall key_material, o <> Returned key_material) \/
   exists args r,
     execs t = [(args, r)] /\ forall n, r = inl (OSError n) -> o = Returned VNone).
Proof.
  unfold _get_public_ssh_key. intros Hrun.
  apply run_let_inv in Hrun as (o1 & s1 & w1 & t1 & E1 & Hrun).
  apply run_keys_of_file in E1 as [Hexecs1 Himports1].
  destruct o1 as [folder|x|];
    [|destruct Hrun as [-> ->]; split; [assumption|left; split; [assumption|discriminate]]..].
  destruct Hrun as (t2 & Hrun & ->). rewrite imports_app, execs_app, Himports1, Hexecs1.
  cbn [app]. clear t1 Hexecs1 Himports1.
  apply run_let_inv in Hrun as (o2 & s2 & w2 & t3 & E2 & Hrun).
  rewrite run_exists in E2. injection E2 as <- <- <- <-.
  destruct (h (File (Fileoperations.Exists (folder +:+ keypair_name))) w1)
    as [[x|present] w4]; cbn [fst snd] in Hrun.
  { destruct Hrun as [-> ->].
    split; [reflexivity|left; split; [reflexivity|discriminate]]. }
  destruct Hrun as (t5 & Hrun & ->).
  destruct present.
  - cbn [bind] in Hrun. apply run_ssh_keygen in Hrun as [Himports Hexecs].
    rewrite imports_app, execs_app, Himports. split; [reflexivity|right; exact Hexecs].
  - apply run_let_inv in Hrun as (o5 & s5 & w5 & t7 & E5 & Hrun).
    apply run_let_inv in E5 as (o6 & s6 & w6 & t8 & E6 & E5).
    rewrite run_exists in E6. injection E6 as <- <- <- <-.
    destruct (h (File (Fileoperations.Exists ((folder +:+ keypair_name) +:+ ".pem"))) w4)
      as [[x|present] w7]; cbn [fst snd] in E5.
    { destruct E5 as [-> ->]. destruct Hrun as [-> ->].
      split; [reflexivity|left; split; [reflexivity|discriminate]]. }
    destruct E5 as (t9 & E5 & ->).
    destruct present.
    + injection E5 as <- <- <- <-. destruct Hrun as (t6 & Hrun & ->).
      apply run_ssh_keygen in Hrun as [Himports Hexecs].
      rewrite !imports_app, !execs_app, Himports.
      split; [reflexivity|right; exact Hexecs].
    + injection E5 as <- <- <- <-. destruct Hrun as [-> ->].
      split; [reflexivity|left; split; [reflexivity|discriminate]].
Qed.

Lemma run_log_warning message (s : unit) w :
  run h (call (LogWarning message) : keys_prog unit) s w
  = (match (h (LogWarning message) w).1 with
     | inl x => Raised x
     | inr a => Returned a
     end, s, (h (LogWarning message) w).2,
     [existT (LogWarning message) (h (LogWarning message) w).1]).
Proof. exact (run_call h (LogWarning message) s w). Qed.

(** What follows the import: the warning that the key pair was uploaded. *)
Lemma run_uploaded_warning keyname (imported : bool) s w o s' w' t :
  run h
    (if imported
     then
       let+ region := call GetDefaultRegion in
       match region with
       | Some region =>
           call (LogWarning
                   (replace (replace (strings "ssh.uploaded") "{keyname}" keyname)
                      "{region}" region))
       | None => Raise (Builtin (TypeError "replace() argument 2 must be str, not None"))
       end
     else Ret tt) s w = (o, s', w', t) ->
  imports t = [].
Proof.
  destruct imported; [|intros [= <- <- <- <-]; reflexivity].
  rewrite run_let, run_call.
  destruct (h GetDefaultRegion w) as [[x|[region|]] w1]; cbn [fst snd and_then].
  - intros [= <- <- <- <-]. reflexivity.
  - rewrite run_log_warning. intros [= <- <- <- <-]. reflexivity.
  - intros [= <- <- <- <-]. reflexivity.
Qed.

(** X17. When [ssh-keygen] cannot be started ([exec_cmd] raises [OSError]),
    [upload_keypair_if_needed] does not stop: [_get_public_ssh_key] builds a
    [CommandError] without raising it and so gives [None], and the key pair
    is imported with [None] as its public key material. *)
Theorem upload_keypair_without_ssh_keygen keyname s w o s' w' t args n :
  run h (upload_keypair_if_needed sep strings replace dict_keys keyname) s w
  = (o, s', w', t) ->
  execs t = [(args, inl (OSError n))] ->
  imports t = [[("KeyName", VStr keyname); ("PublicKeyMaterial", VNone)]].
Proof.
  unfold upload_keypair_if_needed. intros Hrun Hexecs.
  apply run_let_inv in Hrun as (o1 & s1 & w1 & t1 & E1 & Hrun).
  apply run_get_key_pairs in E1 as [Hexecs1 Himports1].
  destruct o1 as [pairs|x|]; [|destruct Hrun as [_ ->]; congruence..].
  destruct Hrun as (t2 & Hrun & ->).
  rewrite execs_app, Hexecs1 in Hexecs. rewrite imports_app, Himports1.
  cbn [app] in Hexecs |- *. clear t1 Hexecs1 Himports1.
  apply run_let_inv in Hrun as (o2 & s2 & w2 & t3 & E2 & Hrun).
  rewrite run_lift in E2. injection E2 as <- <- <- <-.
  destruct (Compose.py_iter dict_keys pairs) as [x|items];
    [destruct Hrun as [_ ->]; discriminate|].
  destruct Hrun as (t4 & Hrun & ->). cbn [app] in Hexecs |- *.
  apply run_let_inv in Hrun as (o3 & s3 & w3 & t5 & E3 & Hrun).
  rewrite run_lift in E3. injection E3 as <- <- <- <-.
  destruct (Compose.for_each (fun k => py_getitem k "KeyName") items) as [x|keys];
    [destruct Hrun as [_ ->]; discriminate|].
  destruct Hrun as (t6 & Hrun & ->). cbn [app] in Hexecs |- *.
  destruct (existsb (Ec2.is_str keyname) keys).
  { injection Hrun as _ _ _ <-. discriminate. }
  apply run_let_inv in Hrun as (o4 & s4 & w4 & t7 & E4 & Hrun).
  apply get_public_ssh_key_run in E4 as [Himports4 Hexecs4].
  assert (Hmaterial : o4 = Returned VNone /\ execs t7 = [(args, inl (OSError n))]).
  { destruct Hexecs4 as [[Hnone Hnot]|(args' & r & Hone & Hos)].
    - destruct o4 as [key_material|x|].
      + destruct (Hnot key_material eq_refl).
      + destruct Hrun as [_ ->]. congruence.
      + destruct Hrun as [_ ->]. congruence.
    - destruct o4 as [key_material|x|].
      + destruct Hrun as (t8 & Hrun & ->).
        rewrite execs_app, Hone in Hexecs. injection Hexecs as -> -> _.
        split; [exact (Hos n eq_refl)|exact Hone].
      + destruct Hrun as [_ ->]. rewrite Hone in Hexecs. injection Hexecs as -> ->.
        split; [exact (Hos n eq_refl)|exact Hone].
      + destruct Hrun as [_ ->]. rewrite Hone in Hexecs. injection Hexecs as -> ->.
        split; [exact (Hos n eq_refl)|exact Hone]. }
  destruct Hmaterial as [-> Hexecs7]. destruct Hrun as (t8 & Hrun & ->).
  rewrite imports_app, Himports4. cbn [app].
  apply run_let_inv in Hrun as (o5 & s5 & w5 & t9 & E5 & Hrun).
  rewrite run_except in E5.
  destruct (run h (let+ _ := of_ec2 (Ec2.import_key_pair (VStr keyname) VNone) in Ret true)
              s4 w4) as [[[o6 s6] w6] t10] eqn:E6.
  apply run_let_inv in E6 as (o7 & s7 & w7 & t11 & E7 & E6).
  apply run_import_key_pair in E7 as [_ Himports7].
  assert (Ht10 : imports t10 = [[("KeyName", VStr keyname); ("PublicKeyMaterial", VNone)]]).
  { destruct o7 as [result|x|].
    - destruct E6 as (t12 & E6 & ->). injection E6 as _ _ _ <-.
      rewrite app_nil_r. exact Himports7.
    - destruct E6 as [_ ->]. exact Himports7.
    - destruct E6 as [_ ->]. exact Himports7. }
  assert (Ht9 : imports t9 = [[("KeyName", VStr keyname); ("PublicKeyMaterial", VNone)]]).
  { destruct o6 as [imported|x|]; cbn [except_then] in E5.
    - injection E5 as _ _ _ <-. exact Ht10.
    - destruct x; cbn [run] in E5; injection E5 as _ _ _ <-;
        rewrite app_nil_r; exact Ht10.
    - injection E5 as _ _ _ <-. exact Ht10. }
  destruct o5 as [imported|x|].
  - destruct Hrun as (t13 & Hrun & ->). apply run_uploaded_warning in Hrun.
    rewrite imports_app, Ht9, Hrun. reflexivity.
  - destruct Hrun as [_ ->]. exact Ht9.
  - destruct Hrun as [_ ->]. exact Ht9.
Qed.

End Upload.

(** A machine without [ssh-keygen], with a key file and no key pair yet. *)
Definition no_ssh_keygen : env external R unit :=
  fun c w =>
    match c return (error + R c) * unit with
    | File c =>
        match c return (error + Fileoperations.R c) * unit with
        | Fileoperations.Expanduser _ => (inr "/home/me/.ssh/", w)
        | Fileoperations.Exists _ => (inr true, w)
        | _ => (inl (OSError 1%positive), w)
        end
    | Ec2Call (Ec2.MakeApiCall _ "describe_key_pairs" _) =>
        (inr (VDict {[ "KeyPairs" := VList [] ]}), w)
    | Ec2Call _ => (inr VNone, w)
    | ExecCmd _ => (inl (OSError 2%positive), w)
    | GetDefaultRegion => (inr (Some "us-west-2"), w)
    | LogWarning _ => (inr tt, w)
    end.

Lemma upload_keypair_without_ssh_keygen_witness :
  imports (run no_ssh_keygen
             (upload_keypair_if_needed "/" id (fun s _ _ => s) (fun _ => []) "aws-eb")
             tt tt).2
  = [[("KeyName", VStr "aws-eb"); ("PublicKeyMaterial", VNone)]].
Proof.
  refine (upload_keypair_without_ssh_keygen no_ssh_keygen "/" id (fun s _ _ => s)
            (fun _ => []) "aws-eb" tt tt _ _ _ _
            ["ssh-keygen"; "-y"; "-f"; "/home/me/.ssh/aws-eb"] 2%positive _ _).
  - apply FileoperationsFacts.run_parts.
  - vm_compute. reflexivity.
Defined.

End KeypairsFacts.

(** ** Zipping up the project *)

Module ArchiveFacts.
Import Eb Archive EbFacts.

(** What a run echoed, with what came of it. *)
Definition echoed (e : entry external R) : option (string * (error + unit)) :=
  match e with
  | existT c r =>
      match c return error + R c -> option (string * (error + unit)) with
      | Echo text => fun r => Some (text, r)
      | _ => fun _ => None
      end r
  end.

Definition echoes (t : list (entry external R)) : list (string * (error + unit)) :=
  omap echoed t.

Lemma echoes_app t1 t2 : echoes (t1 ++ t2) = (echoes t1 ++ echoes t2)%list.
Proof. apply omap_app. Qed.

Lemma echoes_of_file (cs : list Fileoperations.external) (t : list (entry external R)) :
  calls t = map File cs -> echoes t = [].
Proof.
  revert cs. induction t as [|[c r] t IH]; intros cs Hcalls; [reflexivity|].
  destruct cs as [|c0 cs]; [discriminate|]. cbn in Hcalls. injection Hcalls as -> Hcalls.
  unfold echoes. cbn [omap list_omap echoed]. exact (IH _ Hcalls).
Qed.

Section Zip.
Context {W : Type} (h : env external R W).
Variables (sep : string) (strings : string -> string)
          (replace : string -> string -> string -> string)
          (dict_keys : gmap string pyval -> list string).

Lemma run_zip_of_file {A : Type} (p : Fileoperations.file_prog A) s w o s' w' t :
  run h (of_file p) s w = (o, s', w', t) -> echoes t = [].
Proof.
  unfold of_file. intros Hrun.
  destruct (run_embed File (fun _ a => a) h p s w) as (t' & E & Hcalls).
  rewrite E in Hrun. injection Hrun as _ _ _ <-.
  apply (echoes_of_file _ _ Hcalls).
Qed.

Lemma run_app_versions app_name (s : unit) w :
  run h (call (GetApplicationVersions app_name) : zip_prog pyval) s w
  = (match (h (GetApplicationVersions app_name) w).1 with
     | inl x => Raised x
     | inr a => Returned a
     end, s, (h (GetApplicationVersions app_name) w).2,
     [existT (GetApplicationVersions app_name) (h (GetApplicationVersions app_name) w).1]).
Proof. exact (run_call h (GetApplicationVersions app_name) s w). Qed.

Lemma run_echo text (s : unit) w :
  run h (call (Echo text) : zip_prog unit) s w
  = (match (h (Echo text) w).1 with
     | inl x => Raised x
     | inr a => Returned a
     end, s, (h (Echo text) w).2, [existT (Echo text) (h (Echo text) w).1]).
Proof. exact (run_call h (Echo text) s w). Qed.

Lemma run_get_app_version_labels app_name s w o s' w' t :
  run h (get_app_version_labels dict_keys app_name) s w = (o, s', w', t) ->
  echoes t = [].
Proof.
  unfold get_app_version_labels. rewrite run_let, run_app_versions.
  destruct (h (GetApplicationVersions app_name) w) as [[x|app_versions] w1];
    cbn [fst snd and_then]; [intros [= <- <- <- <-]; reflexivity|].
  rewrite run_let, run_lift.
  destruct (Compose.py_iter dict_keys app_versions) as [x|items]; cbn [and_then];
    [intros [= <- <- <- <-]; reflexivity|].
  rewrite run_lift. intros [= <- <- <- <-]. reflexivity.
Qed.

(** X18. [_zip_up_project] never gets to create an archive.  It returns, with
    the file name [<version_label>.zip], only without announcing a new
    archive (the file exists already, or the label is already an application
    version); once it has announced one, it raises [AttributeError], as
    [fileoperations] has no [get_ebignore_list]. *)
Theorem zip_up_project_never_creates_archive fuel app_name version_label s w o s' w' t :
  run h (_zip_up_project sep strings replace dict_keys fuel app_name version_label) s w
  = (o, s', w', t) ->
  (forall file_name file_path,
      o = Returned (file_name, file_path) ->
      file_name = version_label +:+ ".zip" /\ echoes t = []) /\
  (forall text,
      echoes t = [(text, inr tt)] ->
      o = Raised (Builtin (AttributeError
                             "module 'ebcli.core.fileoperations' has no attribute 'get_ebignore_list'"))).
Proof.
  unfold _zip_up_project. cbv zeta. intros Hrun.
  apply run_let_inv in Hrun as (o1 & s1 & w1 & t1 & E1 & Hrun).
  apply run_zip_of_file in E1.
  destruct o1 as [file_path|x|];
    [|destruct Hrun as [-> ->]; split; [discriminate|congruence]..].
  destruct Hrun as (t2 & Hrun & ->). rewrite echoes_app, E1. cbn [app]. clear t1 E1.
  apply run_let_inv in Hrun as (o2 & s2 & w2 & t3 & E2 & Hrun).
  apply run_zip_of_file in E2.
  destruct o2 as [present|x|];
    [|destruct Hrun as [-> ->]; split; [discriminate|congruence]..].
  destruct Hrun as (t4 & Hrun & ->). rewrite echoes_app, E2. cbn [app]. clear t3 E2.
  apply run_let_inv in Hrun as (o3 & s3 & w3 & t5 & E3 & Hrun).
  assert (Ht5 : echoes t5 = []).
  { destruct present; cbn [negb] in E3.
    - injection E3 as _ _ _ <-. reflexivity.
    - apply run_let_inv in E3 as (o4 & s4 & w4 & t6 & E4 & E3).
      apply run_get_app_version_labels in E4.
      destruct o4 as [labels|x|].
      + destruct E3 as (t7 & E3 & ->). injection E3 as _ _ _ <-.
        rewrite app_nil_r. exact E4.
      + destruct E3 as [_ ->]. exact E4.
      + destruct E3 as [_ ->]. exact E4. }
  destruct o3 as [create|x|];
    [|destruct Hrun as [-> ->]; split; [discriminate|congruence]..].
  destruct Hrun as (t8 & Hrun & ->). rewrite echoes_app, Ht5. cbn [app]. clear t5 E3 Ht5.
  destruct create.
  - rewrite run_let, run_echo in Hrun.
    destruct (h (Echo (replace (strings "appversion.create") "{version}" version_label)) w3)
      as [[x|[]] w4]; cbn [fst snd and_then run app] in Hrun;
      injection Hrun as <- <- <- <-.
    + split; [discriminate|]. intros text [=].
    + split; [discriminate|]. reflexivity.
  - injection Hrun as <- <- <- <-. split; [|discriminate].
    intros file_name path [= <- <-]. split; reflexivity.
Qed.

End Zip.

(** A project whose archive is not there yet. *)
Definition fresh_project : env external R FileoperationsFacts.disk_state :=
  fun c w =>
    match c return (error + R c) * FileoperationsFacts.disk_state with
    | File c =>
        FileoperationsFacts.disk FileoperationsFacts.home [["proj"; "home"]] c w
    | GetApplicationVersions _ =>
        (inr (VList [VDict {[ "VersionLabel" := VStr "app-0001" ]}]), w)
    | Echo _ => (inr tt, w)
    end.

Lemma zip_up_project_never_creates_archive_witness :
  let r := run fresh_project
             (_zip_up_project "/" id (fun s _ _ => s) (fun _ => []) 4 "web-app" "app-0002")
             tt FileoperationsFacts.in_src in
  (forall file_name file_path,
      r.1.1.1 = Returned (file_name, file_path) ->
      file_name = "app-0002" +:+ ".zip" /\ echoes r.2 = []) /\
  (forall text,
      echoes r.2 = [(text, inr tt)] ->
      r.1.1.1
      = Raised (Builtin (AttributeError
                           "module 'ebcli.core.fileoperations' has no attribute 'get_ebignore_list'"))).
Proof.
  intros r.
  exact (zip_up_project_never_creates_archive fresh_project "/" id (fun s _ _ => s)
           (fun _ => []) 4 "web-app" "app-0002" tt FileoperationsFacts.in_src
           _ _ _ _ (FileoperationsFacts.run_parts r)).
Defined.

End ArchiveFacts.

(** ** Names of operations and waiters *)

Module NamesFacts.
Import Hooks Client PyFacts.

(** The waiters a run created. *)
Definition created (c : external) : option string :=
  match c with
  | CreateWaiterWithClient name _ _ => Some name
  | _ => None
  end.

Section Names.
Variable xform_name : string -> string.

(** X19. The name mapping of a service has exactly the Python names of its
    operations as keys, and each maps to an operation of that Python name:
    to the operation itself when no two operations share a Python name. *)
Theorem name_mapping_of_operations (service_model : ServiceModel) :
  let mapping := _create_name_mapping xform_name service_model in
  (forall py_operation_name operation_name,
      mapping !! py_operation_name = Some operation_name ->
      operation_name ∈ operation_names service_model /\
      xform_name operation_name = py_operation_name) /\
  (forall py_operation_name,
      is_Some (mapping !! py_operation_name)
      <-> py_operation_name ∈ xform_name <$> operation_names service_model) /\
  ((forall a b, a ∈ operation_names service_model ->
                b ∈ operation_names service_model ->
                xform_name a = xform_name b -> a = b) ->
   forall operation_name,
     operation_name ∈ operation_names service_model ->
     mapping !! xform_name operation_name = Some operation_name).
Proof.
  intros mapping.
  assert (Hlookup : forall py_operation_name operation_name,
             mapping !! py_operation_name = Some operation_name ->
             operation_name ∈ operation_names service_model /\
             xform_name operation_name = py_operation_name).
  { intros py name H. apply WaiterFacts.name_loop_lookup in H as [H|H]; [exact H|].
    rewrite lookup_empty in H. discriminate. }
  assert (Hkeys : forall py_operation_name,
             is_Some (mapping !! py_operation_name)
             <-> py_operation_name ∈ xform_name <$> operation_names service_model).
  { intros py. unfold mapping, _create_name_mapping.
    rewrite WaiterFacts.name_loop_is_Some, lookup_empty. split.
    - intros [H|[x H]]; [exact H|discriminate].
    - intros H. left. exact H. }
  split; [exact Hlookup|]. split; [exact Hkeys|].
  intros Hinj name Hname.
  assert (Hsome : is_Some (mapping !! xform_name name)).
  { apply Hkeys. apply list_elem_of_fmap. exists name. split; [reflexivity|exact Hname]. }
  destruct Hsome as [name' Hname']. rewrite Hname'. f_equal.
  destruct (Hlookup _ _ Hname') as [Hin Hx]. apply Hinj; assumption.
Qed.

Section Waiters.
Context {W : Type}.
Variables (h : env external R W) (loader : obj) (service_model : ServiceModel).

(** X20. [waiter_names] lists the waiters [get_waiter] creates: from the
    same client and with the same waiter model, [get_waiter] calls
    [create_waiter_with_client] for a name exactly when the name is in the
    list; with an empty waiter config the list is empty and nothing is
    created. *)
Theorem waiter_names_are_the_waiters_created (self self1 : BaseClient) (w w1 : W)
    config t1 :
  run h (_get_waiter_config loader service_model) self w
  = (Returned config, self1, w1, t1) ->
  omap created (calls t1) = [] ->
  let names := ClientNames.waiter_names loader service_model xform_name in
  let getw := get_waiter loader service_model xform_name in
  (py_truthy config = false ->
   (run h names self w).1.1.1 = Returned [] /\
   forall waiter_name, omap created (calls (run h (getw waiter_name) self w).2) = []) /\
  (forall model w2,
      py_truthy config = true ->
      h (NewWaiterModel config) w1 = (inr model, w2) ->
      exists listed,
        (run h names self w).1.1.1 = Returned listed /\
        forall waiter_name,
          waiter_name ∈ listed
          <-> omap created (calls (run h (getw waiter_name) self w).2) <> []).
Proof.
  intros Hconfig Hnone names getw. subst names getw.
  assert (Happ : forall t2 : list (entry external R),
             omap created (calls (t1 ++ t2)) = omap created (calls t2)).
  { intros t2.
    assert (Hcalls : calls (t1 ++ t2) = (calls t1 ++ calls t2)%list)
      by (unfold calls; apply map_app).
    rewrite Hcalls, omap_app, Hnone. reflexivity. }
  split.
  - intros Hfalse. split.
    + unfold ClientNames.waiter_names. rewrite run_bind, Hconfig. cbn [and_then].
      rewrite Hfalse. reflexivity.
    + intros waiter_name. unfold get_waiter. rewrite run_bind, Hconfig. cbn [and_then].
      rewrite Hfalse. cbn [negb run snd]. apply Happ.
  - intros model w2 Htrue Hmodel. exists (xform_name <$> waiter_names model). split.
    + unfold ClientNames.waiter_names. rewrite run_bind, Hconfig. cbn [and_then].
      rewrite Htrue. cbn [negb]. rewrite run_bind. cbn. rewrite Hmodel. reflexivity.
    + intros waiter_name.
      rewrite <- (WaiterFacts.waiter_mapping_is_Some xform_name model waiter_name).
      unfold get_waiter. rewrite run_bind, Hconfig. cbn [and_then].
      rewrite Htrue. cbn [negb]. rewrite run_bind.
      assert (Hnew : run h (call (NewWaiterModel config)) self1 w1
                     = (Returned model, self1, w2,
                        [existT (NewWaiterModel config) (inr model)])).
      { cbn. rewrite Hmodel. reflexivity. }
      rewrite Hnew. cbn [and_then].
      destruct (waiter_mapping xform_name model !! waiter_name) as [actual|] eqn:Hactual.
      * rewrite bool_decide_eq_true_2 by eauto. cbn [negb].
        rewrite run_bind. unfold dict_getitem. rewrite Hactual. cbn [lift run and_then].
        rewrite run_bind. cbn [run and_then get Py.get].
        assert (Hcreate : exists o3 w3 r,
                   run h (call (CreateWaiterWithClient actual model self1)
                          : client_prog obj) self1 w2
                   = (o3, self1, w3,
                      [existT (CreateWaiterWithClient actual model self1) r])).
        { cbn. destruct (h (CreateWaiterWithClient actual model self1) w2) as [[x|a] w3];
            eauto. }
        destruct Hcreate as (o3 & w3 & r & ->).
        cbv beta iota. cbn [snd app]. rewrite Happ. cbn. split; [discriminate|eauto].
      * rewrite bool_decide_eq_false_2 by (intros [? ?]; discriminate). cbn [negb run].
        cbn [snd app]. rewrite Happ. cbn.
        split; [intros [? ?]; discriminate|congruence].
Qed.

End Waiters.

End Names.

Lemma waiter_names_are_the_waiters_created_witness :
  exists listed,
    (run WaiterFacts.with_waiters
       (ClientNames.waiter_names 40%positive DispatchFacts.widgets_model WaiterFacts.snake)
       DispatchFacts.widgets_client tt).1.1.1 = Returned listed /\
    forall waiter_name,
      waiter_name ∈ listed
      <-> omap created
            (calls (run WaiterFacts.with_waiters
                      (get_waiter 40%positive DispatchFacts.widgets_model WaiterFacts.snake
                         waiter_name)
                      DispatchFacts.widgets_client tt).2) <> [].
Proof.
  refine (proj2 (waiter_names_are_the_waiters_created WaiterFacts.snake
                   WaiterFacts.with_waiters 40%positive DispatchFacts.widgets_model
                   DispatchFacts.widgets_client _ tt tt WaiterFacts.widgets_waiters _ _ _)
            WaiterFacts.widget_waiter_model tt _ _).
  - vm_compute. reflexivity.
  - reflexivity.
  - vm_compute. reflexivity.
  - reflexivity.
Defined.

End NamesFacts.

(** ** Settings of the current branch *)

Module BranchesFacts.
Import Eb Branches EbFacts.

(** The calls of a run that went to the file system. *)
Definition file_call (e : entry external R)
    : option (entry Fileoperations.external Fileoperations.R) :=
  match e with
  | existT c r =>
      match c return error + R c
                     -> option (entry Fileoperations.external Fileoperations.R) with
      | File c => fun r => Some (existT c r)
      | _ => fun _ => None
      end r
  end.

Definition file_part (t : list (entry external R))
    : list (entry Fileoperations.external Fileoperations.R) :=
  omap file_call t.

(** The branches source control named as the current one. *)
Definition branch_named (e : entry external R) : option string :=
  match e with
  | existT (GetCurrentBranch _) (inr branch_name) => Some branch_name
  | _ => None
  end.

Definition branches (t : list (entry external R)) : list string :=
  omap branch_named t.

Lemma file_part_app t1 t2 : file_part (t1 ++ t2) = (file_part t1 ++ file_part t2)%list.
Proof. apply omap_app. Qed.

Lemma branches_app t1 t2 : branches (t1 ++ t2) = (branches t1 ++ branches t2)%list.
Proof. apply omap_app. Qed.

Section Runs.
Context {W : Type} (h : env external R W).

(** A program of [fileoperations] runs as it does on its own. *)
Lemma run_of_file {A : Type} (p : Fileoperations.file_prog A) s w :
  exists t,
    run h (of_file p) s w
    = ((run (restrict File (fun _ a => a) h) p s w).1.1.1,
       (run (restrict File (fun _ a => a) h) p s w).1.1.2,
       (run (restrict File (fun _ a => a) h) p s w).1.2, t) /\
    file_part t = (run (restrict File (fun _ a => a) h) p s w).2 /\
    branches t = [].
Proof.
  unfold of_file. revert s w.
  induction p as [a|x| |k IH|s0 k IH|c k IH]; intros s w; cbn [embed run].
  - exists []. repeat split.
  - exists []. repeat split.
  - exists []. repeat split.
  - apply IH.
  - apply IH.
  - assert (Hr : restrict File (fun _ a => a) h c w = ((h (File c) w).1, (h (File c) w).2)).
    { unfold restrict. destruct (h (File c) w) as [[x|a] w1]; reflexivity. }
    rewrite Hr. clear Hr. destruct (h (File c) w) as [[x|a] w1]; cbv beta iota; cbn [fst snd];
      change (R (File c)) with (Fileoperations.R c).
    + destruct (IH (inl x) s w1) as (t & -> & Hfile & Hbranches).
      destruct (run (restrict File (fun _ a => a) h) (k (inl x)) s w1) as [[[o s1] w2] t1].
      cbn [fst snd] in Hfile |- *. eexists. split; [reflexivity|]. split.
      * unfold file_part. cbn [omap list_omap file_call]. f_equal. exact Hfile.
      * exact Hbranches.
    + destruct (IH (@inr error (Fileoperations.R c) a) s w1)
        as (t & -> & Hfile & Hbranches).
      destruct (run (restrict File (fun _ a => a) h)
                  (k (@inr error (Fileoperations.R c) a)) s w1) as [[[o s1] w2] t1].
      cbn [fst snd] in Hfile |- *. eexists. split; [reflexivity|]. split.
      * unfold file_part. cbn [omap list_omap file_call]. f_equal. exact Hfile.
      * exact Hbranches.
Qed.

End Runs.

Section Settings.
Variable sep : string.

(** The two questions to source control that start both functions. *)
Lemma run_current_branch {W : Type} (h : env external R W) {A : Type}
    (rest : string -> branch_prog A) s w o s' w' t :
  run h (let+ source_control := call GetSourceControl in
         let+ branch_name := call (GetCurrentBranch source_control) in
         rest branch_name) s w = (o, s', w', t) ->
  (branches t = [] /\ file_part t = [] /\ forall a, o <> Returned a) \/
  exists branch_name w1 t1 t2,
    run h (rest branch_name) s w1 = (o, s', w', t2) /\
    t = (t1 ++ t2)%list /\ branches t1 = [branch_name] /\ file_part t1 = [].
Proof.
  intros Hrun.
  apply run_let_inv in Hrun as (o1 & s1 & w1 & t1 & E1 & Hrun).
  rewrite run_call in E1. injection E1 as <- <- <- <-.
  destruct (h GetSourceControl w) as [[x|source_control] w2]; cbn [fst snd] in Hrun.
  { destruct Hrun as [-> ->]. left. repeat split. discriminate. }
  destruct Hrun as (t2 & Hrun & ->).
  apply run_let_inv in Hrun as (o3 & s3 & w3 & t3 & E3 & Hrun).
  rewrite run_call in E3. injection E3 as <- <- <- <-.
  destruct (h (GetCurrentBranch source_control) w2) as [[x|branch_name] w4];
    cbn [fst snd] in Hrun.
  { destruct Hrun as [-> ->]. left. repeat split. discriminate. }
  destruct Hrun as (t4 & Hrun & ->). right.
  exists branch_name, w4,
    [existT GetSourceControl (inr source_control);
     existT (GetCurrentBranch source_control) (inr branch_name)], t4.
  repeat split. exact Hrun.
Qed.

(** X21. [write_setting_to_current_branch] replaces the settings of the
    branch: what it writes as the local configuration holds, for the current
    branch, the one setting written.  [get_setting_from_current_branch], when
    it then loads that configuration for the same branch, gives the written
    value for the written key and [None] for every other key. *)
Theorem branch_setting_round_trip {W : Type} (h : env external R W)
    fuel keyname value s w s' w' t :
  run h (write_setting_to_current_branch sep fuel keyname value) s w
  = (Returned tt, s', w', t) ->
  exists branch_name config,
    branches t = [branch_name] /\
    FileoperationsFacts.dumps (file_part t)
    = [(Fileoperations.local_config_file sep, config)] /\
    forall (W2 : Type) (h2 : env external R W2) fuel2 keyname' s2 w2 o s3 w3 t2 rg cg,
      run h2 (get_setting_from_current_branch sep fuel2 keyname') s2 w2
      = (o, s3, w3, t2) ->
      branches t2 = [branch_name] ->
      FileoperationsFacts.loads (file_part t2)
      = [(Fileoperations.global_config_file sep, rg);
         (Fileoperations.local_config_file sep, inr config)] ->
      FileoperationsFacts.went_back (file_part t2) ->
      FileoperationsFacts.yaml_dict rg = Some cg ->
      FileoperationsFacts.section_is_dict cg "branch-defaults" ->
      o = Returned (if String.eqb keyname' keyname then value else VNone).
Proof.
  unfold write_setting_to_current_branch. intros Hrun.
  apply (run_current_branch h
           (fun branch_name =>
              of_file (Fileoperations.write_config_setting sep fuel "branch-defaults"
                         branch_name (VDict {[ keyname := value ]})))) in Hrun
    as [(_ & _ & Hnot)|(branch_name & w1 & t1 & t2 & Hrun & -> & Hbranch & Hfile)];
    [destruct (Hnot tt eq_refl)|].
  destruct (run_of_file h
              (Fileoperations.write_config_setting sep fuel "branch-defaults" branch_name
                 (VDict {[ keyname := value ]})) s w1) as (t3 & E & Hpart & Hnone).
  rewrite E in Hrun. injection Hrun as Ho _ _ <-.
  destruct (FileoperationsFacts.write_config_setting_run sep
              (restrict File (fun _ a => a) h) fuel "branch-defaults" branch_name
              (VDict {[ keyname := value ]}) s w1
              (run (restrict File (fun _ a => a) h)
                 (Fileoperations.write_config_setting sep fuel "branch-defaults"
                    branch_name (VDict {[ keyname := value ]})) s w1).1.1.2
              (run (restrict File (fun _ a => a) h)
                 (Fileoperations.write_config_setting sep fuel "branch-defaults"
                    branch_name (VDict {[ keyname := value ]})) s w1).1.2
              (run (restrict File (fun _ a => a) h)
                 (Fileoperations.write_config_setting sep fuel "branch-defaults"
                    branch_name (VDict {[ keyname := value ]})) s w1).2)
    as (r & old & config & _ & _ & Hset & Hdumps).
  { rewrite <- Ho. apply FileoperationsFacts.run_parts. }
  apply FileoperationsFacts.set_setting_spec in Hset as (Hvalue & Hsection & _ & _).
  exists branch_name, config.
  rewrite branches_app, file_part_app, Hbranch, Hfile, Hnone, Hpart.
  split; [reflexivity|]. split; [exact Hdumps|].
  clear dependent t3. clear dependent t1. clear Ho.
  intros W2 h2 fuel2 keyname' s2 w2 o s3 w3 t2 rg cg Hrun Hbranches Hloads Hback Hrg Hcg.
  unfold get_setting_from_current_branch in Hrun.
  apply (run_current_branch h2
           (fun branch_name =>
              let+ branch_dict :=
                of_file (Fileoperations.get_config_setting sep fuel2 "branch-defaults"
                           branch_name None) in
              match branch_dict with
              | VNone => Ret VNone
              | _ =>
                  try_except (lift (py_getitem branch_dict keyname'))
                    (fun e =>
                       match e with
                       | Builtin (KeyError _) => Ret VNone
                       | _ => Raise e
                       end)
              end)) in Hrun
    as [(Hb & _ & _)|(branch_name' & w4 & t4 & t5 & Hrun & -> & Hbranch & Hfile)];
    [congruence|].
  apply run_let_inv in Hrun as (o6 & s6 & w6 & t6 & E6 & Hrun).
  destruct (run_of_file h2
              (Fileoperations.get_config_setting sep fuel2 "branch-defaults" branch_name'
                 None) s2 w4) as (t7 & E7 & Hpart & Hnone).
  rewrite E7 in E6. injection E6 as Ho6 _ _ <-.
  assert (Htrace : exists t8,
             t5 = (t7 ++ t8)%list /\ branches t8 = [] /\ file_part t8 = [] /\
             (forall branch_dict,
                 o6 = Returned branch_dict ->
                 run h2 (match branch_dict with
                         | VNone => Ret VNone
                         | _ =>
                             try_except (lift (py_getitem branch_dict keyname'))
                               (fun e =>
                                  match e with
                                  | Builtin (KeyError _) => Ret VNone
                                  | _ => Raise e
                                  end)
                         end) s6 w6 = (o, s3, w3, t8))).
  { destruct o6 as [branch_dict|x|].
    - destruct Hrun as (t8 & Hrun & ->). exists t8.
      assert (Ht8 : t8 = []).
      { destruct branch_dict; try (injection Hrun as _ _ _ <-; reflexivity);
          rewrite run_except, run_lift in Hrun;
          destruct (py_getitem _ keyname') as [[]|found];
          cbn in Hrun; injection Hrun as _ _ _ <-; reflexivity. }
      subst t8. repeat split. intros branch_dict' [= <-]. exact Hrun.
    - destruct Hrun as [_ ->]. exists []. rewrite app_nil_r. repeat split. discriminate.
    - destruct Hrun as [_ ->]. exists []. rewrite app_nil_r. repeat split. discriminate. }
  destruct Htrace as (t8 & -> & Hb8 & Hf8 & Hrest).
  rewrite !branches_app, Hbranch, Hnone, Hb8 in Hbranches. injection Hbranches as ->.
  rewrite !file_part_app, Hfile, Hf8, app_nil_r, Hpart in Hloads, Hback.
  cbn [app] in Hloads, Hback.
  pose proof (FileoperationsFacts.get_config_setting_run sep
                (restrict File (fun _ a => a) h2) fuel2 "branch-defaults" branch_name None
                s2 w4 _ _ _ _ rg (inr config) cg config
                (FileoperationsFacts.run_parts _) Hloads Hback Hrg eq_refl Hcg
                (or_intror Hsection)) as Hdict.
  rewrite Hvalue in Hdict. cbn [FileoperationsFacts.or_default] in Hdict.
  assert (Ho6' : o6 = Returned (VDict {[ keyname := value ]}))
    by (rewrite <- Ho6; exact Hdict).
  specialize (Hrest _ Ho6'). cbv beta iota in Hrest.
  rewrite run_except, run_lift in Hrest. unfold py_getitem in Hrest.
  destruct (String.eqb_spec keyname' keyname) as [->|Hne].
  - rewrite lookup_singleton_eq in Hrest. injection Hrest as <- _ _ _. reflexivity.
  - rewrite lookup_singleton_ne in Hrest by congruence.
    injection Hrest as <- _ _ _. reflexivity.
Qed.

End Settings.

(** The small disk, under source control on the branch [master]. *)
Definition repository : env external R FileoperationsFacts.disk_state :=
  fun c w =>
    match c return (error + R c) * FileoperationsFacts.disk_state with
    | File c =>
        FileoperationsFacts.disk FileoperationsFacts.home [["proj"; "home"]] c w
    | GetSourceControl => (inr 7%positive, w)
    | GetCurrentBranch _ => (inr "master", w)
    end.

Definition write_environment :=
  run repository (write_setting_to_current_branch "/" 4 "environment" (VStr "web-prod"))
    tt FileoperationsFacts.in_src.

Lemma write_environment_returns :
  write_environment
  = (Returned tt, write_environment.1.1.2, write_environment.1.2, write_environment.2).
Proof. vm_compute. reflexivity. Qed.

Lemma branch_setting_round_trip_witness :
  exists branch_name config,
    branches write_environment.2 = [branch_name] /\
    FileoperationsFacts.dumps (file_part write_environment.2)
    = [(Fileoperations.local_config_file "/", config)] /\
    forall (W2 : Type) (h2 : env external R W2) fuel2 keyname' s2 w2 o s3 w3 t2 rg cg,
      run h2 (get_setting_from_current_branch "/" fuel2 keyname') s2 w2
      = (o, s3, w3, t2) ->
      branches t2 = [branch_name] ->
      FileoperationsFacts.loads (file_part t2)
      = [(Fileoperations.global_config_file "/", rg);
         (Fileoperations.local_config_file "/", inr config)] ->
      FileoperationsFacts.went_back (file_part t2) ->
      FileoperationsFacts.yaml_dict rg = Some cg ->
      FileoperationsFacts.section_is_dict cg "branch-defaults" ->
      o = Returned (if String.eqb keyname' "environment" then VStr "web-prod" else VNone).
Proof.
  exact (branch_setting_round_trip "/" repository 4 "environment" (VStr "web-prod")
           tt FileoperationsFacts.in_src _ _ _ write_environment_returns).
Defined.

End BranchesFacts.
